(** * vibe-logger: session registry and credential lifecycle

    A shallow embedding of the stateful core of vibe-logger:

    - [SessionManager] (session/manager.ts): the active-session slot, the
      per-project history, the document cache and the document-name
      generator;
    - [GoogleAuth] (google/auth.ts) with the token schema of
      schemas/google.ts: expiry detection, refresh and persistence;
    - the session operations of [VibeLoggerService]
      (services/vibe-logger.ts), with the document client as an input.

    Conventions.  A JavaScript string is a [string]; a character stands for
    one code unit of the Latin-1 range.  An instant ([Date], [Date.now()],
    [expiry_date]) is an integer number of milliseconds since the epoch.
    [undefined] and [null] are [None].  A thrown [Error] is a value of an
    error type whose constructors are named after the message thrown.
    Clock reads, the random session id, the [git] subprocess, the disk and
    the remote token endpoint are inputs of the operation that consults
    them. *)

From Stdlib Require Import ZArith Ascii String Bool.
From stdpp Require Import gmap strings list.

Local Open Scope string_scope.

(** ** JavaScript string primitives *)

Module JS.

Definition code (c : ascii) : nat := nat_of_ascii c.

Definition between (lo hi n : nat) : bool := (lo <=? n)%nat && (n <=? hi)%nat.

(** [a-z] *)
Definition is_lower (c : ascii) : bool := between 97 122 (code c).

(** [0-9] *)
Definition is_digit (c : ascii) : bool := between 48 57 (code c).

(** [-] *)
Definition is_hyphen (c : ascii) : bool := (code c =? 45)%nat.

(** The class [\s] restricted to code units below 256: TAB, LF, VT, FF, CR,
    SPACE and NO-BREAK SPACE. *)
Definition is_space (c : ascii) : bool :=
  between 9 13 (code c) || (code c =? 32)%nat || (code c =? 160)%nat.

(** [String.prototype.toLowerCase] on one code unit: A-Z and the Latin-1
    capitals U+00C0..U+00DE (U+00D7, the multiplication sign, excepted) move
    up by 32. *)
Definition lower_char (c : ascii) : ascii :=
  let n := code c in
  if between 65 90 n || (between 192 222 n && negb (n =? 215)%nat)
  then ascii_of_nat (n + 32) else c.

Fixpoint toLowerCase (s : string) : string :=
  match s with
  | EmptyString => EmptyString
  | String c r => String (lower_char c) (toLowerCase r)
  end.

(** [s.replace(/[^...]/g, '')]: keeps the characters of the class [keep]. *)
Fixpoint keep_chars (keep : ascii -> bool) (s : string) : string :=
  match s with
  | EmptyString => EmptyString
  | String c r =>
      if keep c then String c (keep_chars keep r) else keep_chars keep r
  end.

(** [s.replace(/C+/g, '-')]: every maximal run of characters of the class
    [cls] becomes one hyphen.  [in_run] tells that the previous character
    belonged to a run whose hyphen is already written. *)
Fixpoint runs_to_hyphen (cls : ascii -> bool) (in_run : bool) (s : string) : string :=
  match s with
  | EmptyString => EmptyString
  | String c r =>
      if cls c
      then if in_run then runs_to_hyphen cls true r
           else String "-" (runs_to_hyphen cls true r)
      else String c (runs_to_hyphen cls false r)
  end.

(** The [^-] alternative of [s.replace(/^-|-$/g, '')]. *)
Definition strip_leading_hyphen (s : string) : string :=
  match s with
  | String c r => if is_hyphen c then r else s
  | EmptyString => EmptyString
  end.

(** The [-$] alternative, applied to what the first alternative left. *)
Fixpoint strip_trailing_hyphen (s : string) : string :=
  match s with
  | EmptyString => EmptyString
  | String c EmptyString => if is_hyphen c then EmptyString else s
  | String c r => String c (strip_trailing_hyphen r)
  end.

(** [s.slice(0, n)] *)
Fixpoint slice0 (n : nat) (s : string) : string :=
  match n, s with
  | S k, String c r => String c (slice0 k r)
  | _, _ => EmptyString
  end.

Fixpoint trimStart (s : string) : string :=
  match s with
  | String c r => if is_space c then trimStart r else s
  | EmptyString => EmptyString
  end.

Fixpoint trimEnd (s : string) : string :=
  match s with
  | EmptyString => EmptyString
  | String c r =>
      match trimEnd r with
      | EmptyString => if is_space c then EmptyString else String c EmptyString
      | r' => String c r'
      end
  end.

(** [s.trim()] *)
Definition trim (s : string) : string := trimEnd (trimStart s).

(** Truthiness of a string, of an optional string and of an optional
    number: [''], [0], [undefined] and [null] are falsy. *)
Definition truthy (s : string) : bool :=
  match s with EmptyString => false | _ => true end.

Definition truthy_opt (o : option string) : bool :=
  match o with Some s => truthy s | None => false end.

Definition truthy_num (o : option Z) : bool :=
  match o with Some z => negb (z =? 0)%Z | None => false end.

(** [o || d] for a possibly absent string. *)
Definition or_else (o : option string) (d : string) : string :=
  match o with Some s => if truthy s then s else d | None => d end.

(** [o || undefined] *)
Definition or_undefined (o : option string) : option string :=
  match o with Some s => if truthy s then Some s else None | None => None end.

End JS.

(** How a call ends: it returns a value or throws an error. *)
Inductive Outcome (E A : Type) :=
  | Ok (a : A)
  | Err (e : E).
Arguments Ok {E A} a.
Arguments Err {E A} e.

(** ** session/manager.ts: the document name *)

Module DocumentName.
Import JS.

(** The characters a sanitized project name may contain: [a-z0-9-]. *)
Definition name_char (c : ascii) : bool := is_lower c || is_digit c || is_hyphen c.

Fixpoint all_chars (p : ascii -> bool) (s : string) : bool :=
  match s with
  | EmptyString => true
  | String c r => p c && all_chars p r
  end.

Definition sanitizeProjectName (name : string) : string :=
  slice0 50
    (strip_trailing_hyphen
       (strip_leading_hyphen
          (runs_to_hyphen is_hyphen false
             (runs_to_hyphen is_space false
                (keep_chars
                   (fun c => is_lower c || is_digit c || is_space c || is_hyphen c)
                   (toLowerCase name)))))).

(** [getCurrentUsername]: [git] is the output of [git config user.name]
    ([None] when the subprocess fails), [user] is [process.env.USER]. *)
Definition getCurrentUsername (git user : option string) : string :=
  match git with
  | Some stdout => runs_to_hyphen is_space false (toLowerCase (trim stdout))
  | None =>
      or_else
        (option_map (fun u => runs_to_hyphen is_space false (toLowerCase u)) user)
        "developer"
  end.

(** The template literal of [generateDocumentName], as a function of the
    project, the date text of [getTodaysDate] and the operator name. *)
Definition documentName (projectName today username : string) : string :=
  "session-" ++ sanitizeProjectName projectName ++ "-" ++ today ++ "-" ++ username.

Definition generateDocumentName (today : string) (git user : option string)
    (projectName : string) : string :=
  documentName projectName today (getCurrentUsername git user).

End DocumentName.

(** ** session/manager.ts: the session registry *)

Module SessionManager.
Import JS DocumentName.

Record Session := mkSession {
  id : string;
  projectName : string;
  documentId : string;
  documentName : string;
  startTime : Z;
  objective : string;
  template : string;
  previousSessionId : option string;
  isActive : bool
}.

Definition set_isActive (b : bool) (s : Session) : Session :=
  mkSession (id s) (projectName s) (documentId s) (documentName s) (startTime s)
            (objective s) (template s) (previousSessionId s) b.

Definition set_documentId (d : string) (s : Session) : Session :=
  mkSession (id s) (projectName s) d (documentName s) (startTime s)
            (objective s) (template s) (previousSessionId s) (isActive s).

(** A [Session] object is shared between the array of its project and the
    [currentSession] slot, and both see a write to [isActive] or
    [documentId].  The objects live in [objects], in allocation order; a
    reference is an index into it. *)
Abbreviation ref := nat (only parsing).

(** [projectSessions] is a [Map]: its entries keep the order in which their
    keys were first set, which is the order [setDocumentId] scans them in.
    [todaysDocuments] is only read and written by key. *)
Record SessionState := mkState {
  objects : list Session;
  currentSession : option ref;
  projectSessions : list (string * list ref);
  todaysDocuments : gmap string string
}.

Definition initial : SessionState := mkState [] None [] ∅.

(** [Map.prototype.get] and [Map.prototype.set] on the ordered entries. *)
Fixpoint entries_get {V} (k : string) (m : list (string * V)) : option V :=
  match m with
  | [] => None
  | (k', v) :: r => if decide (k' = k) then Some v else entries_get k r
  end.

Fixpoint entries_set {V} (k : string) (v : V) (m : list (string * V)) : list (string * V) :=
  match m with
  | [] => [(k, v)]
  | (k', v') :: r =>
      if decide (k' = k) then (k, v) :: r else (k', v') :: entries_set k v r
  end.

(** The number of milliseconds in a day. *)
Definition msPerDay : Z := 86400000.

(** [d.toISOString().split('T')[0]] is the text of the UTC calendar day of
    [d].  The code only compares two such texts for equality; the text is
    determined by, and determines, the number of whole days since the epoch,
    which stands for it here. *)
Definition utcDay (t : Z) : Z := (t `div` msPerDay)%Z.

(** What one call of [startSession] draws from its environment: the value of
    [generateSessionId()], the text of [getTodaysDate()], the outcome of
    [git config user.name], [process.env.USER], and the [new Date()] stored
    as [startTime]. *)
Record StartEnv := mkStartEnv {
  env_sessionId : string;
  env_today : string;
  env_git : option string;
  env_USER : option string;
  env_now : Z
}.

Definition endCurrentSession (st : SessionState) : SessionState :=
  match currentSession st with
  | Some r =>
      mkState (alter (set_isActive false) r (objects st)) None
              (projectSessions st) (todaysDocuments st)
  | None => st
  end.

Definition getProjectSessions (st : SessionState) (project : string) : list ref :=
  default [] (entries_get project (projectSessions st)).

Definition getAllProjects (st : SessionState) : list string :=
  (projectSessions st).*1.

Definition getCurrentSession (st : SessionState) : option ref := currentSession st.

(** [projectSessions[projectSessions.length - 1]] *)
Definition lastSession (st : SessionState) (project : string) : option ref :=
  last (getProjectSessions st project).

Definition startSession (env : StartEnv) (project objective template : string)
    (st : SessionState) : ref * SessionState :=
  let sessionId := env_sessionId env in
  let documentName :=
    generateDocumentName (env_today env) (env_git env) (env_USER env) project in
  let documentId := todaysDocuments st !! project in
  let sessions := getProjectSessions st project in
  let previousSession := last sessions ≫= λ r, objects st !! r in
  let session :=
    mkSession sessionId project (or_else documentId "") documentName (env_now env)
              objective template (id <$> previousSession) true in
  let st1 := endCurrentSession st in
  let r := length (objects st1) in
  (r, mkState (objects st1 ++ [session])%list (Some r)
              (entries_set project (sessions ++ [r])%list (projectSessions st1))
              (todaysDocuments st1)).

(** The second half of [continueSession], from the comment 'Return current
    session if it exists and is from today' on: it runs when no project is
    given and when the project given has no history. *)
Definition continueCurrent (now : Z) (st : SessionState) : option ref * SessionState :=
  match currentSession st with
  | Some r =>
      match objects st !! r with
      | Some cur =>
          if decide (utcDay (startTime cur) = utcDay now)
          then (Some r, st)
          else (None, endCurrentSession st)
      | None => (None, st)
      end
  | None => (None, st)
  end.

(** [project] is the optional argument; [now] is the clock behind
    [getTodaysDate()]. *)
Definition continueSession (project : option string) (now : Z)
    (st : SessionState) : option ref * SessionState :=
  let fallthrough := continueCurrent now st in
  match project with
  | Some p =>
      if truthy p then
        match lastSession st p with
        | Some r =>
            match objects st !! r with
            | Some lastS =>
                if decide (utcDay (startTime lastS) = utcDay now)
                then
                  let st1 := endCurrentSession st in
                  (Some r,
                   mkState (alter (set_isActive true) r (objects st1)) (Some r)
                           (projectSessions st1) (todaysDocuments st1))
                else (None, st)
            | None => (None, st)
            end
        | None => fallthrough
        end
      else fallthrough
  | None => fallthrough
  end.

(** [sessions.find(s => s.id === sessionId)] *)
Fixpoint find_by_id (objs : list Session) (sessionId : string) (sessions : list ref)
    : option ref :=
  match sessions with
  | [] => None
  | r :: rest =>
      match objs !! r with
      | Some s => if decide (id s = sessionId) then Some r
                  else find_by_id objs sessionId rest
      | None => find_by_id objs sessionId rest
      end
  end.

(** The loop of [setDocumentId] up to its [break]: the first project, in
    entry order, one of whose sessions has the id. *)
Fixpoint locate (objs : list Session) (sessionId : string)
    (entries : list (string * list ref)) : option (string * ref) :=
  match entries with
  | [] => None
  | (project, sessions) :: rest =>
      match find_by_id objs sessionId sessions with
      | Some r => Some (project, r)
      | None => locate objs sessionId rest
      end
  end.

Definition setDocumentId (sessionId documentId : string) (st : SessionState)
    : SessionState :=
  match locate (objects st) sessionId (projectSessions st) with
  | Some (project, r) =>
      mkState (alter (set_documentId documentId) r (objects st)) (currentSession st)
              (projectSessions st) (<[project := documentId]> (todaysDocuments st))
  | None => st
  end.

Definition needsNewDocument (st : SessionState) (project : string) : bool :=
  negb (truthy_opt (todaysDocuments st !! project)).

Definition getTodaysDocumentId (st : SessionState) (project : string) : option string :=
  or_undefined (todaysDocuments st !! project).

(** The operations of the registry, and a run of them from a state. *)
Inductive Op :=
  | Start (env : StartEnv) (project objective template : string)
  | Continue (project : option string) (now : Z)
  | End
  | AttachDocument (sessionId documentId : string).

Definition step (st : SessionState) (o : Op) : SessionState :=
  match o with
  | Start env p obj t => (startSession env p obj t st).2
  | Continue p now => (continueSession p now st).2
  | End => endCurrentSession st
  | AttachDocument sid did => setDocumentId sid did st
  end.

Definition run (ops : list Op) (st : SessionState) : SessionState :=
  foldl step st ops.

(** The sessions whose [isActive] flag is set. *)
Definition activeSessions (st : SessionState) : list Session :=
  filter (λ s, isActive s = true) (objects st).

(** Every session whose flag is set is the one in the [currentSession]
    slot. *)
Definition active_is_current (st : SessionState) : Prop :=
  ∀ r s, objects st !! r = Some s → isActive s = true → currentSession st = Some r.

(** Every reference held by the slot or by a history resolves to an object. *)
Definition refs_resolve (st : SessionState) : Prop :=
  (∀ r, currentSession st = Some r → is_Some (objects st !! r))
  ∧ (∀ p rs r, (p, rs) ∈ projectSessions st → r ∈ rs → is_Some (objects st !! r)).

End SessionManager.

(** ** schemas/google.ts: the token schema *)

Module Schemas.
Import JS.

(** An object with the six token properties, each of which may be absent:
    the shape checked by [TokenDataSchema], the shape of its output
    [TokenData], and the shape of the [credentials] of the OAuth2 client
    (which start as the empty object). *)
Record TokenData := mkTokenData {
  access_token : option string;
  refresh_token : option string;
  scope : option string;
  token_type : option string;
  expiry_date : option Z;
  id_token : option string
}.

Definition noTokens : TokenData := mkTokenData None None None None None None.

(** A value handed to the schema: an object whose token properties are
    absent or of the declared type, or anything else (text that is not
    JSON, a value that is no object, a property of the wrong type), which
    the schema rejects. *)
Inductive Json :=
  | JObject (fields : TokenData)
  | JOther.

(** The [.transform] of [TokenDataSchema]. *)
Definition transform (data : TokenData) : TokenData :=
  mkTokenData
    (Some (or_else (access_token data) ""))
    (or_undefined (refresh_token data))
    (Some (or_else (scope data) ""))
    (Some (or_else (token_type data) "Bearer"))
    (if truthy_num (expiry_date data) then expiry_date data else None)
    (or_undefined (id_token data)).

(** [TokenDataSchema.parse]; [None] is a [ZodError]. *)
Definition TokenDataSchema_parse (j : Json) : option TokenData :=
  match j with
  | JObject data => Some (transform data)
  | JOther => None
  end.

(** [AuthCodeSchema]: a non-empty string. *)
Definition AuthCodeSchema_parse (code : string) : option string :=
  if truthy code then Some code else None.

Record GoogleCredentials := mkGoogleCredentials {
  client_id : string;
  client_secret : string;
  redirect_uris : list string
}.

(** The credentials file after [JSON.parse] and
    [GoogleCredentialsFileSchema.parse]: one of the two accepted layouts, or
    a content that one of the two steps rejects. *)
Inductive CredentialsFile :=
  | Flat (c : GoogleCredentials)
  | Installed (c : GoogleCredentials)
  | Rejected.

End Schemas.

(** ** google/auth.ts: the token lifecycle *)

Module GoogleAuth.
Import JS Schemas.

Inductive Error :=
  | ZodError                 (* an error whose name is 'ZodError' *)
  | FileError                (* a rejected [fs] call, or [JSON.parse] throwing *)
  | NoRefreshTokenSet        (* the OAuth2 library: no refresh token to send *)
  | RemoteRejected           (* the OAuth2 library: the token endpoint refused *)
  | NotAnObject              (* the OAuth2 library: a TypeError, the answer is no object *)
  | ClientNotInitialized     (* 'OAuth2 client not initialized' *)
  | InitFailed               (* 'Failed to initialize Google Auth: ...' *)
  | InvalidRefreshData       (* 'Invalid token data received during refresh' *)
  | RefreshFailed            (* 'Token refresh failed. Re-authentication required.' *)
  | InvalidTokenData         (* 'Invalid token data received from Google API' *)
  | SaveFailed               (* 'Failed to save tokens: ...' *)
  | InvalidCodeFormat        (* 'Invalid authorization code format' *)
  | ExchangeFailed           (* 'Failed to exchange auth code: ...' *)
  | NoAccessToken.           (* 'No access token available. Authentication required.' *)

(** A request sent to the token endpoint. *)
Inductive Request :=
  | RefreshRequest (refreshToken : string)
  | TokenRequest (code : string).

(** The object and what it touches: the client ([None] until [initialize]
    builds it, then its [credentials]), the two files ([None] when the file
    does not exist) and the requests sent so far, oldest first. *)
Record AuthState := mkAuth {
  oauth2Client : option TokenData;
  credentials : option GoogleCredentials;
  credentialsFile : option CredentialsFile;
  tokenFile : option Json;
  requests : list Request
}.

(** What a call finds outside: the clock, the answer of the token endpoint
    to a request and whether the token file can be written.  The answer is
    the body of the response as the OAuth2 library hands it on, with the
    [expires_in] of the endpoint already turned into an [expiry_date]:
    [None] when the endpoint refuses, an object with well-typed token
    properties, or a body that is no object at all ([JOther]: text that is
    not JSON, a primitive, [null]).  An endpoint that answers with an object
    one of whose token properties has the wrong type is not among these
    worlds: the library would install that object as the credentials of the
    client, which are typed here. *)
Record World := mkWorld {
  now : Z;
  remote : option Json;
  diskWritable : bool
}.

(** A method: it reads and writes the state and returns or throws.  What it
    wrote before it threw stays written. *)
Definition M (A : Type) : Type := AuthState → Outcome Error A * AuthState.

#[global] Instance M_ret : MRet M := λ A a st, (Ok a, st).
#[global] Instance M_bind : MBind M := λ A B k m st,
  match m st with
  | (Ok a, st') => k a st'
  | (Err e, st') => (Err e, st')
  end.

Definition throw {A} (e : Error) : M A := λ st, (Err e, st).

(** [try { m } catch (error) { h error }] *)
Definition try_catch {A} (m : M A) (h : Error → M A) : M A := λ st,
  match m st with
  | (Ok a, st') => (Ok a, st')
  | (Err e, st') => h e st'
  end.

Definition get : M AuthState := λ st, (Ok st, st).

(** [TokenDataSchema.parse(j)] inside a method. *)
Definition parseTokens (j : Json) : M TokenData :=
  match TokenDataSchema_parse j with
  | Some v => mret v
  | None => throw ZodError
  end.

(** [this.oauth2Client.setCredentials(tokens)] *)
Definition setCredentials (tokens : TokenData) : M unit := λ st,
  (Ok (), mkAuth (Some tokens) (credentials st) (credentialsFile st)
                 (tokenFile st) (requests st)).

(** [fs.mkdir] followed by [fs.writeFile(TOKEN_PATH, JSON.stringify(v))]: a
    later read parses back the object [v]. *)
Definition writeTokenFile (w : World) (v : TokenData) : M unit := λ st,
  if diskWritable w
  then (Ok (), mkAuth (oauth2Client st) (credentials st) (credentialsFile st)
                      (Some (JObject v)) (requests st))
  else (Err FileError, st).

Definition send (q : Request) : M unit := λ st,
  (Ok (), mkAuth (oauth2Client st) (credentials st) (credentialsFile st)
                 (tokenFile st) (requests st ++ [q])%list).

(** The state in which a request has been sent and nothing else changed. *)
Definition sent (q : Request) (st : AuthState) : AuthState :=
  mkAuth (oauth2Client st) (credentials st) (credentialsFile st) (tokenFile st)
         (requests st ++ [q])%list.

(** [tokens.refresh_token = this.credentials.refresh_token]: the OAuth2
    library puts the refresh token it sent into the token set it was
    granted. *)
Definition carry_refresh_token (client granted : TokenData) : TokenData :=
  mkTokenData (access_token granted) (refresh_token client) (scope granted)
              (token_type granted) (expiry_date granted) (id_token granted).

(** [this.oauth2Client.refreshAccessToken()], a call into the OAuth2
    library.  Without a refresh token in the credentials it throws before
    any request.  Otherwise it sends one request and throws when the
    endpoint refuses.  To the token set it is granted it adds the refresh
    token it sent, makes the result the credentials of the client
    ([this.credentials = tokens]) and returns it; on a body that is no
    object the assignment of the refresh token is a TypeError, thrown before
    the credentials are touched. *)
Definition refreshAccessToken (w : World) (client : TokenData) : M Json :=
  match or_undefined (refresh_token client) with
  | None => throw NoRefreshTokenSet
  | Some t =>
      send (RefreshRequest t);;
      match remote w with
      | None => throw RemoteRejected
      | Some JOther => throw NotAnObject
      | Some (JObject granted) =>
          let tokens := carry_refresh_token client granted in
          setCredentials tokens;;
          mret (JObject tokens)
      end
  end.

Definition isTokenExpired (now : Z) (tokens : TokenData) : bool :=
  if negb (truthy_num (expiry_date tokens)) then true
  else match expiry_date tokens with
       | Some e => (e <=? now)%Z
       | None => true
       end.

Definition saveTokens (w : World) (tokens : TokenData) : M unit :=
  try_catch
    (validatedTokens ← parseTokens (JObject tokens);
     writeTokenFile w validatedTokens)
    (λ error, match error with
              | ZodError => throw InvalidTokenData
              | _ => throw SaveFailed
              end).

Definition refreshTokens (w : World) : M unit :=
  st ← get;
  match oauth2Client st with
  | None => throw ClientNotInitialized
  | Some client =>
      try_catch
        (granted ← refreshAccessToken w client;
         validatedTokens ← parseTokens granted;
         setCredentials validatedTokens;;
         saveTokens w validatedTokens)
        (λ error, match error with
                  | ZodError => throw InvalidRefreshData
                  | _ => throw RefreshFailed
                  end)
  end.

Definition loadTokens (w : World) : M unit :=
  try_catch
    (st ← get;
     match tokenFile st with
     | None => throw FileError
     | Some tokenData =>
         validatedTokens ← parseTokens tokenData;
         match oauth2Client st with
         | Some _ =>
             setCredentials validatedTokens;;
             if isTokenExpired (now w) validatedTokens
             then refreshTokens w else mret ()
         | None => mret ()
         end
     end)
    (λ _, mret ()).

(** [this.credentials = ...; this.oauth2Client = new google.auth.OAuth2(...)]:
    a new client has the empty object as credentials. *)
Definition newClient (c : GoogleCredentials) : M unit := λ st,
  (Ok (), mkAuth (Some noTokens) (Some c) (credentialsFile st)
                 (tokenFile st) (requests st)).

Definition initialize (w : World) : M unit :=
  try_catch
    (st ← get;
     match credentialsFile st with
     | None => throw FileError
     | Some Rejected => throw ZodError
     | Some (Flat c) | Some (Installed c) => newClient c;; loadTokens w
     end)
    (λ _, throw InitFailed).

Definition handleAuthCode (w : World) (code : string) : M unit :=
  st ← get;
  match oauth2Client st with
  | None => throw ClientNotInitialized
  | Some _ =>
      try_catch
        (match AuthCodeSchema_parse code with
         | None => throw ZodError
         | Some validatedCode =>
             send (TokenRequest validatedCode);;
             match remote w with
             | None => throw RemoteRejected
             | Some tokens =>
                 validatedTokens ← parseTokens tokens;
                 setCredentials validatedTokens;;
                 saveTokens w validatedTokens
             end
         end)
        (λ error, match error with
                  | ZodError => throw InvalidCodeFormat
                  | _ => throw ExchangeFailed
                  end)
  end.

(** The client returned is the one of the state; the outcome only tells
    whether the call returned. *)
Definition getAuthenticatedClient (w : World) : M unit :=
  st ← get;
  match oauth2Client st with
  | None => throw ClientNotInitialized
  | Some creds =>
      if negb (truthy_opt (access_token creds)) then throw NoAccessToken
      else if isTokenExpired (now w) creds then refreshTokens w
      else mret ()
  end.

Definition isAuthenticated (now : Z) (st : AuthState) : bool :=
  match oauth2Client st with
  | None => false
  | Some creds =>
      truthy_opt (access_token creds) && negb (isTokenExpired now creds)
  end.

(** [fs.unlink(TOKEN_PATH)]: it throws when the file is absent, and when
    the file is there and cannot be removed ([removable] is false: no
    permission on the directory, a directory at that path, a read-only
    file system). *)
Definition unlinkTokenFile (removable : bool) : M unit := λ st,
  match tokenFile st with
  | Some _ =>
      if removable
      then (Ok (), mkAuth (oauth2Client st) (credentials st) (credentialsFile st)
                          None (requests st))
      else (Err FileError, st)
  | None => (Err FileError, st)
  end.

(** The [catch] takes every error of [unlink] for a missing file. *)
Definition clearTokens (removable : bool) : M unit :=
  try_catch
    (unlinkTokenFile removable;;
     st ← get;
     match oauth2Client st with
     | Some _ => setCredentials noTokens
     | None => mret ()
     end)
    (λ _, mret ()).

End GoogleAuth.

(** ** services/vibe-logger.ts: the session operations of the service *)

Module VibeLoggerService.
Import JS SessionManager.

Inductive Error :=
  | NoActiveSessionToEnd     (* 'No active session to end' *)
  | DocumentGone             (* 'Session document no longer exists: ...' *)
  | DocsFailure.             (* an error thrown by the document client *)

(** The answers of the document client during one call: which document ids
    [getDocument] resolves, the id [createDocument] returns ([None] when it
    throws) and whether an [appendContent] whose options pass
    [AppendContentOptionsSchema] succeeds. *)
Record Docs := mkDocs {
  getDocument : string → bool;
  createDocument : option string;
  appendContent : bool
}.

(** [this.docsClient.appendContent({ documentId, content })] with one of the
    texts of the service, none of which is empty: the schema of the options
    rejects an empty document id before anything is asked of the client. *)
Definition appendTo (docs : Docs) (documentId : string) : bool :=
  truthy documentId && appendContent docs.

Definition createSessionDocument (docs : Docs) : option string :=
  match createDocument docs with
  | Some d => if appendTo docs d then Some d else None
  | None => None
  end.

(** The result is the session, the id of its document and [isNewDocument]. *)
Definition startSession (env : StartEnv) (docs : Docs)
    (project objective template : string) (st : SessionState)
    : Outcome Error (ref * string * bool) * SessionState :=
  let '(session, st1) := SessionManager.startSession env project objective template st in
  let created :=
    match createSessionDocument docs with
    | Some d => Ok (d, true)
    | None => Err DocsFailure
    end in
  let document :=
    match getTodaysDocumentId st1 project with
    | Some existingDocumentId =>
        if getDocument docs existingDocumentId
        then Ok (existingDocumentId, false)
        else created
    | None => created
    end in
  match document with
  | Ok (d, isNewDocument) =>
      let st2 := setDocumentId (env_sessionId env) d st1 in
      if appendTo docs d then (Ok (session, d, isNewDocument), st2)
      else (Err DocsFailure, st2)
  | Err e => (Err e, st1)
  end.

Definition continueSession (docs : Docs) (project : option string) (now : Z)
    (st : SessionState) : Outcome Error (option ref) * SessionState :=
  match SessionManager.continueSession project now st with
  | (None, st1) => (Ok None, st1)
  | (Some session, st1) =>
      let documentId := default "" (SessionManager.documentId <$> objects st1 !! session) in
      if getDocument docs documentId && appendTo docs documentId
      then (Ok (Some session), st1)
      else (Err DocumentGone, endCurrentSession st1)
  end.

(** The summary text is not part of the result here; the result is the
    session that was current. *)
Definition endSession (docs : Docs) (st : SessionState)
    : Outcome Error ref * SessionState :=
  match getCurrentSession st with
  | None => (Err NoActiveSessionToEnd, st)
  | Some currentSession =>
      let documentId :=
        default "" (SessionManager.documentId <$> objects st !! currentSession) in
      if appendTo docs documentId
      then (Ok currentSession, endCurrentSession st)
      else (Err DocsFailure, st)
  end.

End VibeLoggerService.

(** ** Sample states *)

Module Samples.
Import Schemas GoogleAuth.

Definition installedApp : GoogleCredentials :=
  mkGoogleCredentials "id" "secret" ["http://localhost"].

(** An expired token set with a refresh token, on disk and in the client. *)
Definition staleTokens : TokenData :=
  mkTokenData (Some "ya29.old") (Some "1//0g") (Some "") (Some "Bearer")
              (Some 1736899200000%Z) None.

Definition staleState : AuthState :=
  mkAuth (Some staleTokens) (Some installedApp)
         (Some (Flat installedApp))
         (Some (JObject staleTokens)) [].

(** A machine with an accepted credentials file and no token file, before
    [initialize]. *)
Definition freshInstall : AuthState :=
  mkAuth None None (Some (Installed installedApp)) None [].

(** 2025-01-15T00:00:00Z, and a day later. *)
Definition jan15 : Z := 1736899200000.
Definition jan16 : Z := 1736985600000.

Definition envCart : SessionManager.StartEnv :=
  SessionManager.mkStartEnv "session-2025-01-15T09-00-00-k3x9a1" "2025-01-15"
    (Some "Ada Lovelace") None (jan15 + 32400000).

Definition envBlog : SessionManager.StartEnv :=
  SessionManager.mkStartEnv "session-2025-01-15T10-30-00-q7w2e4" "2025-01-15"
    (Some "Ada Lovelace") None (jan15 + 37800000).

(** The registry after [startSession('Cart', 'Add wishlist')] on 15 January. *)
Definition cartStarted : SessionManager.SessionState :=
  (SessionManager.startSession envCart "Cart" "Add wishlist" "project_log"
     SessionManager.initial).2.

(** The same after the service attached the document it created. *)
Definition cartAttached : SessionManager.SessionState :=
  SessionManager.setDocumentId "session-2025-01-15T09-00-00-k3x9a1" "doc-1" cartStarted.

(** A call of [startSession] on 16 January, 00:01 UTC. *)
Definition envCartNextDay : SessionManager.StartEnv :=
  SessionManager.mkStartEnv "session-2025-01-16T00-01-00-z8y7x6" "2025-01-16"
    (Some "Ada Lovelace") None (jan16 + 60000).

(** A document client for which every call succeeds. *)
Definition docsUp : VibeLoggerService.Docs :=
  VibeLoggerService.mkDocs (λ _, true) (Some "doc-2") true.

(** A document client whose [appendContent] throws. *)
Definition docsDown : VibeLoggerService.Docs :=
  VibeLoggerService.mkDocs (λ _, true) (Some "doc-2") false.

End Samples.

(** ** The shape of a name *)

Module NameShape.
Import JS.

Definition starts_with_hyphen (s : string) : bool :=
  match s with
  | String c _ => is_hyphen c
  | EmptyString => false
  end.

Fixpoint ends_with_hyphen (s : string) : bool :=
  match s with
  | EmptyString => false
  | String c EmptyString => is_hyphen c
  | String _ r => ends_with_hyphen r
  end.

(** Two hyphens in a row somewhere in [s]. *)
Fixpoint has_double_hyphen (s : string) : bool :=
  match s with
  | EmptyString => false
  | String c r => (is_hyphen c && starts_with_hyphen r) || has_double_hyphen r
  end.

(** A character of the class [\s] somewhere in [s]. *)
Fixpoint has_space (s : string) : bool :=
  match s with
  | EmptyString => false
  | String c r => is_space c || has_space r
  end.

End NameShape.

(** ** The shape of the registry *)

Module RegistryShape.
Import SessionManager.

(** The fields of a session that are written once, when it is created. *)
Definition created (s : Session)
    : string * string * string * Z * string * string * option string :=
  (id s, projectName s, documentName s, startTime s, objective s, template s,
   previousSessionId s).

(** How the histories file the session objects: one entry per project,
    none of them empty, every reference resolving to a session of the
    project of the entry, and every session listed under its project. *)
Record filed (st : SessionState) : Prop := mkFiled {
  keys_unique : NoDup (getAllProjects st);
  histories_nonempty : ∀ p rs, (p, rs) ∈ projectSessions st → rs ≠ [];
  history_resolves :
    ∀ p rs r, (p, rs) ∈ projectSessions st → r ∈ rs → is_Some (objects st !! r);
  history_owns :
    ∀ p rs r s, (p, rs) ∈ projectSessions st → r ∈ rs →
                objects st !! r = Some s → projectName s = p;
  all_listed :
    ∀ r s, objects st !! r = Some s →
           ∃ rs, (projectName s, rs) ∈ projectSessions st ∧ r ∈ rs
}.

(** The current session exists, is active and is the last one of the
    history of its project. *)
Definition current_is_last (st : SessionState) : Prop :=
  ∀ r, currentSession st = Some r →
       ∃ s, objects st !! r = Some s
            ∧ isActive s = true
            ∧ lastSession st (projectName s) = Some r.

End RegistryShape.

(** ** More sample states *)

Module AuthSamples.
Import Schemas GoogleAuth Samples.

(** A token set that expires on 15 January at 01:00 UTC, as the schema
    returns it. *)
Definition liveTokens : TokenData :=
  mkTokenData (Some "ya29.live") (Some "1//0g") (Some "") (Some "Bearer")
              (Some 1736902800000%Z) None.

(** The client holds [liveTokens], which are also on disk. *)
Definition liveState : AuthState :=
  mkAuth (Some liveTokens) (Some installedApp) (Some (Flat installedApp))
         (Some (JObject liveTokens)) [].

(** What the endpoint grants in the samples. *)
Definition grantedTokens : TokenData :=
  mkTokenData (Some "ya29.new") None None None (Some 1736906400000%Z) None.

End AuthSamples.

(** ** Starting up *)

Module Startup.
Import Schemas GoogleAuth.

(** The credentials of an accepted credentials file, in either layout. *)
Definition accepted (f : option CredentialsFile) : option GoogleCredentials :=
  match f with
  | Some (Flat c) | Some (Installed c) => Some c
  | _ => None
  end.

(** The state right after [initialize] built the client: new credentials
    object, empty credentials. *)
Definition built (c : GoogleCredentials) (tokens : TokenData) (st : AuthState)
    : AuthState :=
  mkAuth (Some tokens) (Some c) (credentialsFile st) (tokenFile st) (requests st).

End Startup.

(** ** google/client.ts: the document client *)

Module GoogleDocsClient.
Import JS Schemas GoogleAuth.

Inductive Error :=
  | FromAuth (e : GoogleAuth.Error)  (* an error of [GoogleAuth], passed on *)
  | ZodError                 (* an error whose name is 'ZodError' *)
  | ApiError                 (* an error thrown by the Docs API library *)
  | InvalidResponse          (* 'Invalid document response from Google API' *)
  | AuthenticationRequired   (* 'Authentication required. Please visit: ...' *)
  | ApiNotInitialized        (* 'Google Docs API not initialized' *)
  | InvalidApiData           (* 'Invalid data received from Google Docs API' *)
  | CreateFailed             (* 'Failed to create document: ...' *)
  | GetFailed                (* 'Failed to get document: ...' *)
  | InvalidAppendOptions     (* 'Invalid append content options provided' *)
  | AppendFailed.            (* 'Failed to append content: ...' *)

(** A call made to the Docs API. *)
Inductive ApiCall :=
  | Create (title : string)
  | Get (documentId : string)
  | InsertText (documentId : string) (index : Z) (text : string).

(** The [data] of a [documents.create] response, as far as
    [GoogleDocumentSchema] looks at it. *)
Record Created := mkCreated {
  created_documentId : option string;
  created_title : option string
}.

(** The [data] of a [documents.get] response: the title, and the
    [endIndex] of the last element of the body when all of
    [doc.body?.content?.[length - 1]?.endIndex] is there. *)
Record Document := mkDocument {
  doc_title : option string;
  doc_lastEndIndex : option Z
}.

(** [DocumentInfo] without its two time stamps, which are the clock at the
    time of the call. *)
Record DocumentInfo := mkInfo {
  info_id : string;
  info_title : string
}.

(** What the Docs API answers during one call of the client; [None] and
    [false] stand for a call that throws. *)
Record Api := mkApi {
  api_create : option Created;
  api_get : string → option Document;
  api_batchUpdate : bool
}.

(** The client: its [GoogleAuth], whether [docsApi] has been built, and the
    calls made to the Docs API so far, oldest first. *)
Record ClientState := mkClient {
  auth : AuthState;
  docsApi : bool;
  calls : list ApiCall
}.

Definition C (A : Type) : Type := ClientState → Outcome Error A * ClientState.

Definition ret {A} (a : A) : C A := λ st, (Ok a, st).
Definition fail {A} (e : Error) : C A := λ st, (Err e, st).
Definition bind {A B} (m : C A) (k : A → C B) : C B := λ st,
  match m st with
  | (Ok a, st') => k a st'
  | (Err e, st') => (Err e, st')
  end.
Definition catch {A} (m : C A) (h : Error → C A) : C A := λ st,
  match m st with
  | (Ok a, st') => (Ok a, st')
  | (Err e, st') => h e st'
  end.

(** A method of [this.auth], run on the [auth] of the client. *)
Definition onAuth {A} (m : GoogleAuth.M A) : C A := λ st,
  match m (auth st) with
  | (Ok a, auth') => (Ok a, mkClient auth' (docsApi st) (calls st))
  | (Err e, auth') => (Err (FromAuth e), mkClient auth' (docsApi st) (calls st))
  end.

(** [this.docsApi = google.docs(...)] *)
Definition buildApi : C unit := λ st, (Ok (), mkClient (auth st) true (calls st)).

Definition call (c : ApiCall) : C unit := λ st,
  (Ok (), mkClient (auth st) (docsApi st) (calls st ++ [c])%list).

(** [GoogleAuth.getAuthUrl]; the text of the URL is not part of the
    result. *)
Definition getAuthUrl : GoogleAuth.M unit := λ st,
  match oauth2Client st with
  | None => (Err ClientNotInitialized, st)
  | Some _ => (Ok (), st)
  end.

(** [w1] is what [auth.initialize()] finds outside, [w2] what
    [getAuthenticatedClient()] finds after it. *)
Definition initialize (w1 w2 : World) : C unit :=
  bind (onAuth (GoogleAuth.initialize w1)) (λ _,
  bind (onAuth (getAuthenticatedClient w2)) (λ _,
  buildApi)).

(** [now] is the clock of the [isAuthenticated] test, [w] what
    [getAuthenticatedClient] finds after it. *)
Definition ensureAuthenticated (now : Z) (w : World) : C unit := λ st,
  if negb (isAuthenticated now (auth st))
  then bind (onAuth getAuthUrl) (λ _, fail AuthenticationRequired) st
  else if negb (docsApi st)
       then bind (onAuth (getAuthenticatedClient w)) (λ _, buildApi) st
       else (Ok (), st).

(** [if (!this.docsApi) throw ...] *)
Definition requireApi : C unit := λ st,
  if docsApi st then (Ok (), st) else (Err ApiNotInitialized, st).

(** [CreateDocumentOptionsSchema]: a title of 1 to 255 characters. *)
Definition CreateDocumentOptionsSchema_parse (title : string) : option string :=
  if truthy title && (String.length title <=? 255)%nat then Some title else None.

(** [GoogleDocumentSchema]: a non-empty [documentId] and a [title]. *)
Definition GoogleDocumentSchema_parse (d : Created) : option (string * string) :=
  match created_documentId d, created_title d with
  | Some i, Some t => if truthy i then Some (i, t) else None
  | _, _ => None
  end.

(** [DocumentInfoSchema]: a non-empty [id] and a non-empty [title]. *)
Definition DocumentInfoSchema_parse (i t : string) : option DocumentInfo :=
  if truthy i && truthy t then Some (mkInfo i t) else None.

(** [AppendContentOptionsSchema]: a non-empty [documentId], a non-empty
    [content] and, when given, an [insertIndex] of at least 1. *)
Definition AppendContentOptionsSchema_parse (documentId content : string)
    (insertIndex : option Z) : option (string * string * option Z) :=
  if truthy documentId && truthy content
     && match insertIndex with Some i => (1 <=? i)%Z | None => true end
  then Some (documentId, content, insertIndex) else None.

Definition fromOption {A} (o : option A) (e : Error) : C A :=
  match o with Some a => ret a | None => fail e end.

Definition createDocument (api : Api) (now : Z) (w : World) (title : string)
    : C DocumentInfo :=
  bind (fromOption (CreateDocumentOptionsSchema_parse title) ZodError) (λ validatedTitle,
  bind (ensureAuthenticated now w) (λ _,
  bind requireApi (λ _,
  catch
    (bind (call (Create validatedTitle)) (λ _,
     bind (fromOption (api_create api) ApiError) (λ doc,
     bind (fromOption (GoogleDocumentSchema_parse doc) ZodError) (λ validatedDoc,
     if negb (truthy validatedDoc.1) || negb (truthy validatedDoc.2)
     then fail InvalidResponse
     else fromOption (DocumentInfoSchema_parse validatedDoc.1 validatedDoc.2) ZodError))))
    (λ error, match error with
              | ZodError => fail InvalidApiData
              | _ => fail CreateFailed
              end)))).

Definition getDocument (api : Api) (now : Z) (w : World) (documentId : string)
    : C Document :=
  bind (ensureAuthenticated now w) (λ _,
  bind requireApi (λ _,
  catch
    (bind (call (Get documentId)) (λ _,
     fromOption (api_get api documentId) ApiError))
    (λ _, fail GetFailed))).

(** [x || d] for a number that may be absent. *)
Definition num_or (o : option Z) (d : Z) : Z :=
  match o with Some z => if (z =? 0)%Z then d else z | None => d end.

(** [now] is the clock of the first [isAuthenticated] test, [now'] the
    clock of the one [getDocument] makes. *)
Definition appendContent (api : Api) (now now' : Z) (w : World)
    (documentId content : string) (insertIndex : option Z) : C unit :=
  bind (fromOption (AppendContentOptionsSchema_parse documentId content insertIndex)
          ZodError) (λ '(validatedId, validatedContent, validatedIndex),
  bind (ensureAuthenticated now w) (λ _,
  bind requireApi (λ _,
  catch
    (bind (getDocument api now' w validatedId) (λ doc,
     let endIndex := num_or (doc_lastEndIndex doc) 1 in
     bind (call (InsertText validatedId (num_or validatedIndex (endIndex - 1))
                   validatedContent)) (λ _,
     if api_batchUpdate api then ret () else fail ApiError)))
    (λ error, match error with
              | ZodError => fail InvalidAppendOptions
              | _ => fail AppendFailed
              end)))).

(** The result is always 'not found'. *)
Definition findDocumentByTitle (now : Z) (w : World) (title : string)
    : C (option DocumentInfo) :=
  bind (ensureAuthenticated now w) (λ _, ret None).

Definition formatContent (now : Z) (w : World) : C unit :=
  bind (ensureAuthenticated now w) (λ _, requireApi).

Definition isAuthenticated (now : Z) (st : ClientState) : bool :=
  GoogleAuth.isAuthenticated now (auth st).

Definition handleAuthCode (w1 w2 : World) (code : string) : C unit :=
  bind (onAuth (GoogleAuth.handleAuthCode w1 code)) (λ _,
  bind (onAuth (getAuthenticatedClient w2)) (λ _,
  buildApi)).

End GoogleDocsClient.

(** ** Sample clients *)

Module ClientSamples.
Import Schemas GoogleAuth Samples AuthSamples.

(** A client whose credentials have expired, with its API handle built. *)
Definition staleClient : GoogleDocsClient.ClientState :=
  GoogleDocsClient.mkClient staleState true [].

(** A client with live credentials and its API handle built. *)
Definition liveClient : GoogleDocsClient.ClientState :=
  GoogleDocsClient.mkClient liveState true [].

(** A Docs API that creates "doc-2", finds every document with a body that
    ends at index 120, and accepts updates. *)
Definition apiUp : GoogleDocsClient.Api :=
  GoogleDocsClient.mkApi
    (Some (GoogleDocsClient.mkCreated (Some "doc-2") (Some "session-cart")))
    (λ _, Some (GoogleDocsClient.mkDocument (Some "session-cart") (Some 120%Z)))
    true.

End ClientSamples.

(** ** schemas/tools.ts and server.ts: the session tools *)

Module Tools.
Import JS SessionManager.

(** The value of one property of the arguments of a tool call: missing, a
    string, or a value of another type. *)
Inductive Arg :=
  | Absent
  | Text (s : string)
  | Other.

(** [SessionTemplateSchema] *)
Definition SessionTemplates : list string :=
  ["project_log"; "adr"; "feature_spec"; "troubleshooting"; "retrospective"].

(** [StartSessionSchema]: a non-empty project, a non-empty objective and a
    template of the enumeration, 'project_log' when it is missing. *)
Definition StartSessionSchema_parse (project objective template : Arg)
    : option (string * string * string) :=
  match project, objective with
  | Text p, Text o =>
      if truthy p && truthy o then
        match template with
        | Absent => Some (p, o, "project_log")
        | Text t => if bool_decide (t ∈ SessionTemplates) then Some (p, o, t) else None
        | Other => None
        end
      else None
  | _, _ => None
  end.

(** [ContinueSessionSchema]: an optional string. *)
Definition ContinueSessionSchema_parse (project : Arg) : option (option string) :=
  match project with
  | Absent => Some None
  | Text p => Some (Some p)
  | Other => None
  end.

(** A call of one of the tools, with what it finds outside.  [accepted]
    tells whether [EndSessionSchema] accepts the arguments of
    [end_session]; the three logging tools do not touch the registry. *)
Inductive ToolCall :=
  | start_session (project objective template : Arg) (env : StartEnv)
      (docs : VibeLoggerService.Docs)
  | continue_session (project : Arg) (now : Z) (docs : VibeLoggerService.Docs)
  | end_session (accepted : bool) (docs : VibeLoggerService.Docs)
  | log_entry.

(** The registry after the handler of [CallToolRequestSchema] ran: nothing
    happens when [vibeLogger.initialize()] throws ([initialized] false) or
    when the schema rejects the arguments. *)
Definition callTool (st : SessionState) (c : bool * ToolCall) : SessionState :=
  if negb c.1 then st else
  match c.2 with
  | start_session project objective template env docs =>
      match StartSessionSchema_parse project objective template with
      | Some (p, o, t) => (VibeLoggerService.startSession env docs p o t st).2
      | None => st
      end
  | continue_session project now docs =>
      match ContinueSessionSchema_parse project with
      | Some p => (VibeLoggerService.continueSession docs p now st).2
      | None => st
      end
  | end_session accepted docs =>
      if accepted then (VibeLoggerService.endSession docs st).2 else st
  | log_entry => st
  end.

Definition callTools (cs : list (bool * ToolCall)) (st : SessionState) : SessionState :=
  foldl callTool st cs.

(** What [StartSessionSchema] lets through. *)
Definition validStart (project objective template : string) : Prop :=
  project ≠ "" ∧ objective ≠ "" ∧ template ∈ SessionTemplates.

End Tools.

(** * Properties *)

(** ** The document name *)

Section DocumentNameFacts.
Import JS DocumentName.

Example sanitizeProjectName_spaces_and_marks :
  sanitizeProjectName "  My Cool -- Project!!  v2 " = "my-cool-project-v2".
Proof. reflexivity. Qed.

Example sanitizeProjectName_only_marks : sanitizeProjectName "-!-" = "".
Proof. reflexivity. Qed.

Example getCurrentUsername_fallbacks :
  getCurrentUsername (Some "  Ada   Lovelace
") None = "ada-lovelace"
  ∧ getCurrentUsername None (Some "Bob X") = "bob-x"
  ∧ getCurrentUsername None (Some "") = "developer"
  ∧ getCurrentUsername None None = "developer".
Proof. split_and!; reflexivity. Qed.

Lemma all_chars_keep (keep : ascii → bool) (s : string) :
  all_chars keep (keep_chars keep s) = true.
Proof.
  induction s as [|c r IH]; simpl; [done|].
  destruct (keep c) eqn:E; simpl; [rewrite E|]; done.
Qed.

(** Replacing the runs of a class by hyphens leads from the alphabet [q] to
    the alphabet [p] when [p] has the hyphen and every character of [q]
    outside the class. *)
Lemma all_chars_runs (cls p q : ascii → bool) (b : bool) (s : string) :
  p "-"%char = true →
  (∀ c, q c = true → cls c = false → p c = true) →
  all_chars q s = true →
  all_chars p (runs_to_hyphen cls b s) = true.
Proof.
  intros Hh Hpq. revert b.
  induction s as [|c r IH]; intros b Hs; simpl in *; [done|].
  apply andb_true_iff in Hs as [Hc Hr].
  destruct (cls c) eqn:E.
  - destruct b; simpl; [|rewrite Hh; simpl]; by apply IH.
  - simpl. rewrite (Hpq c Hc E). simpl. by apply IH.
Qed.

Lemma all_chars_strip_leading (p : ascii → bool) (s : string) :
  all_chars p s = true → all_chars p (strip_leading_hyphen s) = true.
Proof.
  destruct s as [|c r]; simpl; [done|].
  intros [Hc Hr]%andb_true_iff.
  destruct (is_hyphen c); simpl; [done|]. by rewrite Hc.
Qed.

Lemma all_chars_strip_trailing (p : ascii → bool) (s : string) :
  all_chars p s = true → all_chars p (strip_trailing_hyphen s) = true.
Proof.
  induction s as [|c r IH]; [done|].
  intros [Hc Hr]%andb_true_iff.
  destruct r as [|c' r'].
  - simpl. destruct (is_hyphen c); simpl; [done|]. by rewrite Hc.
  - change (all_chars p (String c (strip_trailing_hyphen (String c' r'))) = true).
    simpl all_chars at 1. rewrite Hc. simpl. by apply IH.
Qed.

Lemma all_chars_slice0 (p : ascii → bool) (n : nat) (s : string) :
  all_chars p s = true → all_chars p (slice0 n s) = true.
Proof.
  revert s. induction n as [|n IH]; intros [|c r]; simpl; try done.
  intros [Hc Hr]%andb_true_iff. rewrite Hc. simpl. by apply IH.
Qed.

Lemma length_slice0 (n : nat) (s : string) : (String.length (slice0 n s) ≤ n)%nat.
Proof.
  revert s. induction n as [|n IH]; intros [|c r]; simpl; try lia.
  specialize (IH r). lia.
Qed.

Lemma length_append (a b : string) :
  String.length (a ++ b) = String.length a + String.length b.
Proof. induction a as [|c r IH]; simpl; [done|]. by rewrite IH. Qed.

Lemma sanitizeProjectName_chars (name : string) :
  all_chars name_char (sanitizeProjectName name) = true.
Proof.
  unfold sanitizeProjectName.
  apply all_chars_slice0, all_chars_strip_trailing, all_chars_strip_leading.
  apply (all_chars_runs is_hyphen name_char name_char); [done| |].
  { by intros c Hc _. }
  apply (all_chars_runs is_space name_char
           (λ c, is_lower c || is_digit c || is_space c || is_hyphen c));
    [done| |apply all_chars_keep].
  intros c Hc Hs. unfold name_char. rewrite Hs in Hc.
  destruct (is_lower c), (is_digit c), (is_hyphen c); simpl in *; congruence.
Qed.

Lemma sanitizeProjectName_length (name : string) :
  (String.length (sanitizeProjectName name) ≤ 50)%nat.
Proof. apply length_slice0. Qed.

(** C8, as the code has it.  The name is a function of the project, the date
    text and the operator name alone: two calls that read the same date and
    the same operator name return the same name.  Its project component,
    [sanitizeProjectName project], has only characters of [a-z0-9-] and at
    most 50 of them; the name wraps it as
    [session-<component>-<date>-<operator>], which adds the lengths of the
    date and of the operator name and 10 more characters. *)
Theorem generateDocumentName_component_bounds (project today : string)
    (git user git' user' : option string) :
  let clean := sanitizeProjectName project in
  let name := generateDocumentName today git user project in
  name = "session-" ++ clean ++ "-" ++ today ++ "-" ++ getCurrentUsername git user
  ∧ all_chars name_char clean = true
  ∧ (String.length clean ≤ 50)%nat
  ∧ String.length name
    = 10 + String.length clean + String.length today
      + String.length (getCurrentUsername git user)
  ∧ (getCurrentUsername git user = getCurrentUsername git' user' →
     generateDocumentName today git' user' project = name).
Proof.
  cbv zeta. split_and!.
  - done.
  - apply sanitizeProjectName_chars.
  - apply sanitizeProjectName_length.
  - unfold generateDocumentName, documentName.
    rewrite !length_append. simpl. lia.
  - unfold generateDocumentName. by intros ->.
Qed.

Lemma generateDocumentName_component_bounds_witness :
  getCurrentUsername (Some "Ada Lovelace") None = getCurrentUsername None (Some "ada lovelace")
  ∧ generateDocumentName "2025-01-15" None (Some "ada lovelace") "My Cart!"
    = "session-my-cart-2025-01-15-ada-lovelace".
Proof.
  split; [reflexivity|].
  pose proof (generateDocumentName_component_bounds "My Cart!" "2025-01-15"
                (Some "Ada Lovelace") None None (Some "ada lovelace")) as H.
  cbv zeta in H. destruct H as (_ & _ & _ & _ & H).
  rewrite (H eq_refl). reflexivity.
Defined.

(** C8 as stated fails on the whole name: for the project "Vibe Logger
    Google Docs Integration", the date 2025-01-15 and the operator "J. Doe"
    the name has 61 characters, one of which is a full stop. *)
Lemma generateDocumentName_exceeds_cap :
  let name := generateDocumentName "2025-01-15" (Some "J. Doe") None
                "Vibe Logger Google Docs Integration" in
  name = "session-vibe-logger-google-docs-integration-2025-01-15-j.-doe"
  ∧ String.length name = 61
  ∧ ¬ (String.length name ≤ 50)%nat
  ∧ all_chars name_char name = false.
Proof. cbv zeta. split_and!; [reflexivity|reflexivity|vm_compute; lia|reflexivity]. Qed.

End DocumentNameFacts.

(** ** The token lifecycle *)

Section GoogleAuthFacts.
Import JS Schemas GoogleAuth Samples.

Lemma or_undefined_idem (o : option string) :
  or_undefined (or_undefined o) = or_undefined o.
Proof. destruct o as [[|c r]|]; reflexivity. Qed.

Lemma or_undefined_truthy (o : option string) :
  truthy_opt o = false → or_undefined o = None.
Proof. destruct o as [[|c r]|]; simpl; congruence. Qed.

(** What the schema returns it accepts again, unchanged: [saveTokens]
    validates a second time the tokens its callers have validated. *)
Lemma transform_idem (data : TokenData) : transform (transform data) = transform data.
Proof.
  destruct data as [a r s t e i]. unfold transform; simpl. f_equal.
  - by destruct a as [[|c x]|].
  - apply or_undefined_idem.
  - by destruct s as [[|c x]|].
  - by destruct t as [[|c x]|].
  - by destruct (truthy_num e) eqn:E; simpl; rewrite ?E.
  - apply or_undefined_idem.
Qed.

Lemma parse_validated (j : Json) (v : TokenData) :
  TokenDataSchema_parse j = Some v → TokenDataSchema_parse (JObject v) = Some v.
Proof.
  destruct j as [data|]; simpl; [|done].
  intros [= <-]. by rewrite transform_idem.
Qed.

(** A validated token set never carries the expiry 0: the schema turns it
    into an absent expiry. *)
Lemma parse_expiry_nonzero (j : Json) (v : TokenData) :
  TokenDataSchema_parse j = Some v → expiry_date v ≠ Some 0%Z.
Proof.
  destruct j as [data|]; simpl; [|done].
  intros [= <-]. simpl. destruct (expiry_date data) as [z|]; simpl; [|done].
  destruct (Z.eqb_spec z 0); simpl; congruence.
Qed.

Lemma isTokenExpired_unfold (now : Z) (tokens : TokenData) :
  isTokenExpired now tokens
  = match expiry_date tokens with
    | Some e => (e =? 0)%Z || (e <=? now)%Z
    | None => true
    end.
Proof.
  unfold isTokenExpired, truthy_num.
  destruct (expiry_date tokens) as [e|]; [|done].
  by destruct (e =? 0)%Z.
Qed.

(** With a clock at or after the epoch the same holds of every object,
    validated or not: an expiry of 0 is then both falsy and in the past. *)
Lemma isTokenExpired_iff_any (now : Z) (tokens : TokenData) :
  (0 ≤ now)%Z →
  isTokenExpired now tokens = true
  ↔ expiry_date tokens = None ∨ ∃ e, expiry_date tokens = Some e ∧ (e ≤ now)%Z.
Proof.
  intros Hnow. rewrite isTokenExpired_unfold.
  destruct (expiry_date tokens) as [e|]; [|naive_solver].
  rewrite orb_true_iff, Z.eqb_eq, Z.leb_le. split.
  - intros H. right. exists e. split; [done|lia].
  - intros [|(e' & [= <-] & ?)]; [done|]. by right.
Qed.

(** C2.  For every token set the schema returns and every instant,
    [isTokenExpired] answers true exactly when the expiry is absent or the
    instant is at or past it; in particular it answers true when the instant
    equals the expiry, and when there is no expiry. *)
Theorem isTokenExpired_iff (now : Z) (j : Json) (tokens : TokenData) :
  TokenDataSchema_parse j = Some tokens →
  (isTokenExpired now tokens = true
   ↔ expiry_date tokens = None ∨ ∃ e, expiry_date tokens = Some e ∧ (e ≤ now)%Z)
  ∧ (expiry_date tokens = Some now → isTokenExpired now tokens = true)
  ∧ (expiry_date tokens = None → isTokenExpired now tokens = true).
Proof.
  intros Hv%parse_expiry_nonzero. rewrite isTokenExpired_unfold.
  destruct (expiry_date tokens) as [e|]; [|naive_solver].
  rewrite orb_true_iff, Z.eqb_eq, Z.leb_le. split_and!.
  - split.
    + intros [->|H]; [done|]. right. by exists e.
    + intros [|(e' & [= <-] & ?)]; [done|]. by right.
  - intros [= ->]. right. lia.
  - done.
Qed.

Lemma isTokenExpired_iff_witness :
  let tokens := mkTokenData (Some "ya29.a0") (Some "1//0g") (Some "") (Some "Bearer")
                            (Some 1736899200000%Z) None in
  TokenDataSchema_parse
    (JObject (mkTokenData (Some "ya29.a0") (Some "1//0g") None None
                          (Some 1736899200000%Z) None)) = Some tokens
  ∧ isTokenExpired 1736899200000 tokens = true
  ∧ isTokenExpired 1736899199999 tokens = false.
Proof.
  cbv zeta. split; [reflexivity|]. split; [|reflexivity].
  destruct (isTokenExpired_iff 1736899200000
              (JObject (mkTokenData (Some "ya29.a0") (Some "1//0g") None None
                                    (Some 1736899200000%Z) None))
              _ eq_refl) as (_ & Hboundary & _).
  apply Hboundary. reflexivity.
Defined.

(** [refreshTokens], path by path. *)
Lemma refreshTokens_paths (w : World) (st : AuthState) :
  refreshTokens w st =
  match oauth2Client st with
  | None => (Err ClientNotInitialized, st)
  | Some client =>
      match or_undefined (refresh_token client) with
      | None => (Err RefreshFailed, st)
      | Some t =>
          match remote w with
          | None | Some JOther => (Err RefreshFailed, sent (RefreshRequest t) st)
          | Some (JObject granted) =>
              let v := transform (carry_refresh_token client granted) in
              if diskWritable w
              then (Ok (), mkAuth (Some v) (credentials st) (credentialsFile st)
                                  (Some (JObject v))
                                  (requests st ++ [RefreshRequest t])%list)
              else (Err RefreshFailed,
                    mkAuth (Some v) (credentials st) (credentialsFile st)
                           (tokenFile st)
                           (requests st ++ [RefreshRequest t])%list)
          end
      end
  end.
Proof.
  unfold refreshTokens, mbind, M_bind, get.
  destruct (oauth2Client st) as [client|] eqn:Hc; [|done].
  unfold try_catch, refreshAccessToken, mbind, M_bind.
  destruct (or_undefined (refresh_token client)) as [t|]; [|done].
  unfold send; simpl.
  destruct (remote w) as [[granted|]|]; [|done|done].
  unfold mret, M_ret, setCredentials, parseTokens; simpl.
  unfold saveTokens, try_catch, mbind, M_bind, parseTokens; simpl.
  rewrite transform_idem.
  unfold mret, M_ret, writeTokenFile; simpl.
  by destruct (diskWritable w).
Qed.

(** The refresh token of the client outlives a refresh: the library carries
    it over and the schema lets it through. *)
Lemma carried_refresh_token (client granted : TokenData) (t : string) :
  or_undefined (refresh_token client) = Some t →
  refresh_token (transform (carry_refresh_token client granted)) = Some t.
Proof. done. Qed.

(** C7.  A refresh that fails because the credentials hold no refresh token
    or because the token endpoint refuses throws 'Token refresh failed' and
    leaves the credentials of the client and the token file as they were.
    The token file is written only in a call that returns, and a call that
    returns has validated what the endpoint granted (to which the library
    has added the refresh token it sent), installed it as the credentials
    of the client and written that same token set to the file. *)
Theorem refreshTokens_atomic (w : World) (st : AuthState) (client : TokenData) :
  oauth2Client st = Some client →
  let out := (refreshTokens w st).1 in
  let st' := (refreshTokens w st).2 in
  (truthy_opt (refresh_token client) = false ∨ remote w = None →
     out = Err RefreshFailed
     ∧ oauth2Client st' = oauth2Client st
     ∧ tokenFile st' = tokenFile st)
  ∧ (tokenFile st' ≠ tokenFile st → out = Ok ())
  ∧ (out = Ok () →
     ∃ granted v,
       remote w = Some (JObject granted)
       ∧ TokenDataSchema_parse (JObject (carry_refresh_token client granted)) = Some v
       ∧ oauth2Client st' = Some v
       ∧ tokenFile st' = Some (JObject v)).
Proof.
  intros Hc. cbv zeta. rewrite refreshTokens_paths, Hc.
  destruct (or_undefined (refresh_token client)) as [t|] eqn:Hr.
  2:{ simpl. split_and!; [done|done|done]. }
  destruct (remote w) as [[granted|]|] eqn:Hw.
  2:{ simpl. split_and!; [done|done|done]. }
  2:{ simpl. split_and!; [done|done|done]. }
  cbv zeta. destruct (diskWritable w); simpl.
  - split_and!; [|done|by eexists granted, _].
    intros [Hn|]; [|done]. by rewrite (or_undefined_truthy _ Hn) in Hr.
  - split_and!; [|done|done].
    intros [Hn|]; [|done]. by rewrite (or_undefined_truthy _ Hn) in Hr.
Qed.

Lemma refreshTokens_atomic_witness :
  let w := mkWorld 1736899500000 None true in
  (refreshTokens w staleState).1 = Err RefreshFailed
  ∧ oauth2Client (refreshTokens w staleState).2 = Some staleTokens
  ∧ tokenFile (refreshTokens w staleState).2 = Some (JObject staleTokens).
Proof.
  cbv zeta.
  destruct (refreshTokens_atomic (mkWorld 1736899500000 None true) staleState
              staleTokens eq_refl) as (Hfail & _ & _).
  apply Hfail. right. reflexivity.
Defined.

(** Outside C7: when the endpoint grants a token set and the file cannot be
    written, the call throws with the new token set already installed in the
    client and the old one still on disk. *)
Lemma refreshTokens_disk_failure :
  let fresh := mkTokenData (Some "ya29.new") None None None (Some 1736903100000%Z) None in
  let w := mkWorld 1736899500000 (Some (JObject fresh)) false in
  (refreshTokens w staleState).1 = Err RefreshFailed
  ∧ oauth2Client (refreshTokens w staleState).2
    = Some (mkTokenData (Some "ya29.new") (Some "1//0g") (Some "") (Some "Bearer")
                        (Some 1736903100000%Z) None)
  ∧ tokenFile (refreshTokens w staleState).2 = Some (JObject staleTokens).
Proof. cbv zeta. split_and!; reflexivity. Qed.

(** Outside C7 as well: an answer that is no object is a TypeError in the
    library, reported like a refusal, with one request sent and the
    credentials and the file as they were. *)
Lemma refreshTokens_not_an_object :
  let w := mkWorld 1736899500000 (Some JOther) true in
  refreshTokens w staleState
  = (Err RefreshFailed, sent (RefreshRequest "1//0g") staleState).
Proof. reflexivity. Qed.

Lemma getAuthenticatedClient_no_token (w : World) (st : AuthState) (creds : TokenData) :
  oauth2Client st = Some creds →
  truthy_opt (access_token creds) = false →
  getAuthenticatedClient w st = (Err NoAccessToken, st).
Proof.
  intros Hc Ha. unfold getAuthenticatedClient, mbind, M_bind, get.
  by rewrite Hc, Ha.
Qed.

(** [initialize] when the credentials file is accepted and there is no token
    file: the client is built with empty credentials and nothing is sent. *)
Lemma initialize_no_token_file (w : World) (st : AuthState) (c : GoogleCredentials) :
  credentialsFile st = Some (Flat c) ∨ credentialsFile st = Some (Installed c) →
  tokenFile st = None →
  initialize w st
  = (Ok (), mkAuth (Some noTokens) (Some c) (credentialsFile st) None (requests st)).
Proof.
  intros Hcred Htok.
  unfold initialize, try_catch, mbind, M_bind, get.
  destruct Hcred as [Hcred | Hcred]; rewrite Hcred;
    unfold newClient, loadTokens, try_catch, mbind, M_bind, get;
    simpl; by rewrite Htok, Hcred.
Qed.

(** C6.  In a state whose client holds no access token, [isAuthenticated]
    is false and [getAuthenticatedClient] throws 'No access token available.
    Authentication required.' and leaves the state, the list of requests
    sent included, as it was.  [initialize] with an accepted credentials
    file and no token file returns in such a state without a request. *)
Theorem no_access_token_not_authenticated (w : World) (st : AuthState) :
  (∀ creds,
     oauth2Client st = Some creds →
     truthy_opt (access_token creds) = false →
     isAuthenticated (now w) st = false
     ∧ getAuthenticatedClient w st = (Err NoAccessToken, st))
  ∧ (∀ w0 c,
       credentialsFile st = Some (Flat c) ∨ credentialsFile st = Some (Installed c) →
       tokenFile st = None →
       let st' := (initialize w0 st).2 in
       (initialize w0 st).1 = Ok ()
       ∧ requests st' = requests st
       ∧ isAuthenticated (now w) st' = false
       ∧ getAuthenticatedClient w st' = (Err NoAccessToken, st')).
Proof.
  split.
  - intros creds Hc Ha. split.
    + unfold isAuthenticated. by rewrite Hc, Ha.
    + by apply (getAuthenticatedClient_no_token w st creds).
  - intros w0 c Hcred Htok. cbv zeta.
    rewrite (initialize_no_token_file w0 st c Hcred Htok). simpl.
    split_and!; try done.
Qed.

Lemma no_access_token_not_authenticated_witness :
  let w := mkWorld 1736899500000 (Some JOther) true in
  let st' := (initialize w freshInstall).2 in
  requests st' = []
  ∧ isAuthenticated (now w) st' = false
  ∧ getAuthenticatedClient w st' = (Err NoAccessToken, st').
Proof.
  cbv zeta.
  destruct (no_access_token_not_authenticated
              (mkWorld 1736899500000 (Some JOther) true) freshInstall) as [_ H].
  destruct (H (mkWorld 1736899500000 (Some JOther) true) installedApp
              (or_intror eq_refl) eq_refl) as (_ & Hreq & Hauth & Hget).
  split_and!; [exact Hreq|exact Hauth|exact Hget].
Defined.

End GoogleAuthFacts.

(** ** The session registry *)

Section SessionManagerFacts.
Import JS SessionManager Samples.
Local Open Scope nat_scope.

Lemma endCurrentSession_inactive (st : SessionState) :
  active_is_current st →
  ∀ r s, objects (endCurrentSession st) !! r = Some s → isActive s = false.
Proof.
  intros Hinv r s. unfold endCurrentSession.
  destruct (currentSession st) as [c|] eqn:Hc; simpl.
  - destruct (decide (c = r)) as [->|Hne].
    + rewrite list_lookup_alter_eq.
      destruct (objects st !! r); simpl; [|done]. by intros [= <-].
    + rewrite list_lookup_alter_ne by done. intros Hs.
      destruct (isActive s) eqn:Ha; [|done].
      specialize (Hinv r s Hs Ha). congruence.
  - intros Hs. destruct (isActive s) eqn:Ha; [|done].
    specialize (Hinv r s Hs Ha). congruence.
Qed.

Lemma endCurrentSession_projectSessions (st : SessionState) :
  projectSessions (endCurrentSession st) = projectSessions st.
Proof. unfold endCurrentSession. by destruct (currentSession st). Qed.

Lemma endCurrentSession_todaysDocuments (st : SessionState) :
  todaysDocuments (endCurrentSession st) = todaysDocuments st.
Proof. unfold endCurrentSession. by destruct (currentSession st). Qed.

Lemma endCurrentSession_currentSession (st : SessionState) :
  currentSession (endCurrentSession st) = None.
Proof. unfold endCurrentSession. by destruct (currentSession st) eqn:E. Qed.

Lemma endCurrentSession_length (st : SessionState) :
  length (objects (endCurrentSession st)) = length (objects st).
Proof.
  unfold endCurrentSession. destruct (currentSession st); simpl; [|done].
  apply length_alter.
Qed.

Lemma endCurrentSession_invariant (st : SessionState) :
  active_is_current st → active_is_current (endCurrentSession st).
Proof.
  intros Hinv r s Hs Ha.
  by rewrite (endCurrentSession_inactive st Hinv r s Hs) in Ha.
Qed.

Lemma startSession_invariant env p obj t (st : SessionState) :
  active_is_current st → active_is_current (startSession env p obj t st).2.
Proof.
  intros Hinv r s. unfold startSession; simpl.
  intros Hs Ha.
  destruct (decide (r < length (objects (endCurrentSession st)))) as [Hlt|Hge].
  - rewrite lookup_app_l in Hs by done.
    by rewrite (endCurrentSession_inactive st Hinv r s Hs) in Ha.
  - apply lookup_lt_Some in Hs as Hlen. rewrite length_app in Hlen. simpl in Hlen.
    f_equal. lia.
Qed.

(** The second half of [continueSession] leaves the state alone or ends
    the current session. *)
Lemma continueCurrent_state (now : Z) (st : SessionState) :
  (continueCurrent now st).2 = st
  ∨ (continueCurrent now st).2 = endCurrentSession st.
Proof.
  unfold continueCurrent.
  destruct (currentSession st) as [r|]; [|by left].
  destruct (objects st !! r) as [cur|]; [|by left].
  case_decide; [by left|by right].
Qed.

Lemma continueSession_invariant p now (st : SessionState) :
  active_is_current st → active_is_current (continueSession p now st).2.
Proof.
  intros Hinv.
  assert (Hfall : active_is_current (continueCurrent now st).2).
  { destruct (continueCurrent_state now st) as [->| ->]; [done|].
    by apply endCurrentSession_invariant. }
  unfold continueSession.
  destruct p as [p|]; [|done].
  destruct (truthy p); [|done].
  destruct (lastSession st p) as [r|]; [|done].
  destruct (objects st !! r) as [lastS|]; [|done].
  case_decide; [|done].
  intros r' s Hs Ha. simpl in *. f_equal.
  destruct (decide (r = r')) as [|Hne]; [done|].
  rewrite list_lookup_alter_ne in Hs by done.
  by rewrite (endCurrentSession_inactive st Hinv r' s Hs) in Ha.
Qed.

Lemma setDocumentId_invariant sid did (st : SessionState) :
  active_is_current st → active_is_current (setDocumentId sid did st).
Proof.
  intros Hinv. unfold setDocumentId.
  destruct (locate (objects st) sid (projectSessions st)) as [[p r]|]; [|done].
  intros r' s; simpl. rewrite list_lookup_alter.
  case_decide as E; [|exact (Hinv r' s)].
  subst r'.
  destruct (objects st !! r) as [s0|] eqn:Hs0; [|done].
  simpl. intros [= <-]. exact (Hinv r s0 Hs0).
Qed.

Lemma step_invariant (st : SessionState) (o : Op) :
  active_is_current st → active_is_current (step st o).
Proof.
  intros Hinv. destruct o; simpl.
  - by apply startSession_invariant.
  - by apply continueSession_invariant.
  - by apply endCurrentSession_invariant.
  - by apply setDocumentId_invariant.
Qed.

Lemma run_invariant (ops : list Op) (st : SessionState) :
  active_is_current st → active_is_current (run ops st).
Proof.
  revert st. induction ops as [|o ops IH]; intros st Hinv; simpl; [done|].
  apply IH. by apply step_invariant.
Qed.

Lemma initial_invariant : active_is_current initial.
Proof. intros r s Hs. by destruct r. Qed.

(** When all the elements with a property sit at one index, there is at
    most one of them. *)
Lemma filter_one_index {A} (P : A → Prop) `{∀ x, Decision (P x)} (l : list A) (k : nat) :
  (∀ i x, l !! i = Some x → P x → i = k) → length (filter P l) ≤ 1.
Proof.
  revert k. induction l as [|a l IH]; intros k Hk; simpl; [lia|].
  rewrite filter_cons. case_decide as Ha.
  - assert (k = 0) as -> by (symmetry; by apply (Hk 0 a)).
    assert (filter P l = []) as ->; [|simpl; lia].
    destruct (filter P l) as [|b l'] eqn:E; [done|].
    assert (b ∈ filter P l) as [Hb Hin]%list_elem_of_filter by (rewrite E; left).
    apply list_elem_of_lookup in Hin as [i Hi].
    by specialize (Hk (S i) b Hi Hb).
  - apply (IH (pred k)). intros i x Hi Hx.
    specialize (Hk (S i) x Hi Hx). lia.
Qed.

Lemma filter_none {A} (P : A → Prop) `{∀ x, Decision (P x)} (l : list A) :
  (∀ i x, l !! i = Some x → ¬ P x) → filter P l = [].
Proof.
  intros Hn. destruct (filter P l) as [|b l'] eqn:E; [done|].
  assert (b ∈ filter P l) as [Hb Hin]%list_elem_of_filter by (rewrite E; left).
  apply list_elem_of_lookup in Hin as [i Hi]. by destruct (Hn i b Hi).
Qed.

Lemma activeSessions_at_most_one (st : SessionState) :
  active_is_current st → length (activeSessions st) ≤ 1.
Proof.
  intros Hinv. unfold activeSessions.
  destruct (currentSession st) as [c|] eqn:Hc.
  - apply (filter_one_index _ _ c). intros i x Hi Hx.
    specialize (Hinv i x Hi Hx). congruence.
  - rewrite filter_none; [simpl; lia|].
    intros i x Hi Hx. specialize (Hinv i x Hi Hx). congruence.
Qed.

(** After [startSession] the new session is the only active one. *)
Lemma startSession_only_active env p obj t (st : SessionState) :
  active_is_current st →
  let r := (startSession env p obj t st).1 in
  let st' := (startSession env p obj t st).2 in
  ∃ s, activeSessions st' = [s]
       ∧ objects st' !! r = Some s
       ∧ currentSession st' = Some r
       ∧ id s = env_sessionId env ∧ projectName s = p ∧ objective s = obj.
Proof.
  intros Hinv. cbv zeta. unfold startSession, activeSessions; simpl.
  eexists. split_and!; [|by apply list_lookup_middle|done..].
  rewrite filter_app, filter_none; [done|].
  intros i x Hi. by rewrite (endCurrentSession_inactive st Hinv i x Hi).
Qed.

(** [startSession] clears the flag of the session that was current, whatever
    the two projects are. *)
Lemma startSession_deactivates env p obj t (st : SessionState) (r : ref) (s : Session) :
  currentSession st = Some r →
  objects st !! r = Some s →
  objects (startSession env p obj t st).2 !! r = Some (set_isActive false s).
Proof.
  intros Hc Hs. unfold startSession; simpl.
  assert (objects (endCurrentSession st) !! r = Some (set_isActive false s)) as Hr.
  { unfold endCurrentSession. rewrite Hc; simpl.
    by rewrite list_lookup_alter_eq, Hs. }
  rewrite lookup_app_l; [done|]. by apply lookup_lt_Some in Hr.
Qed.

(** C1.  After any sequence of [startSession], [continueSession],
    [endCurrentSession] and [setDocumentId] calls on a new registry, at most
    one session has its flag set.  Two [startSession] calls in a row, for
    any two projects, leave exactly one active session: the one the second
    call returned, which is the current one, while the session of the first
    call is inactive.  And [startSession] clears the flag of the session
    that was current before, whatever its project. *)
Theorem at_most_one_active (ops : list Op) :
  let st := run ops initial in
  length (activeSessions st) ≤ 1
  ∧ (∀ envA envB A B objA objB tA tB,
       let rA := (startSession envA A objA tA st).1 in
       let stA := (startSession envA A objA tA st).2 in
       let rB := (startSession envB B objB tB stA).1 in
       let stB := (startSession envB B objB tB stA).2 in
       ∃ sA sB,
         activeSessions stB = [sB]
         ∧ objects stB !! rB = Some sB
         ∧ currentSession stB = Some rB
         ∧ id sB = env_sessionId envB ∧ projectName sB = B ∧ objective sB = objB
         ∧ objects stB !! rA = Some sA
         ∧ projectName sA = A ∧ isActive sA = false)
  ∧ (∀ env p obj t r s,
       currentSession st = Some r →
       objects st !! r = Some s →
       objects (startSession env p obj t st).2 !! r = Some (set_isActive false s)).
Proof.
  cbv zeta.
  pose proof (run_invariant ops initial initial_invariant) as Hinv.
  split_and!.
  - by apply activeSessions_at_most_one.
  - intros envA envB A B objA objB tA tB.
    destruct (startSession_only_active envA A objA tA _ Hinv)
      as (sA & _ & HsA & HcA & _ & HpA & _).
    pose proof (startSession_invariant envA A objA tA _ Hinv) as HinvA.
    destruct (startSession_only_active envB B objB tB _ HinvA)
      as (sB & Hact & HsB & HcB & HidB & HpB & HoB).
    exists (set_isActive false sA), sB. split_and!; try done.
    by apply startSession_deactivates.
  - intros env p obj t r s. apply startSession_deactivates.
Qed.

Lemma at_most_one_active_witness :
  objects (startSession envBlog "Blog" "Write post" "project_log" cartStarted).2 !! 0
  = Some (mkSession "session-2025-01-15T09-00-00-k3x9a1" "Cart" ""
            "session-cart-2025-01-15-ada-lovelace" (jan15 + 32400000)
            "Add wishlist" "project_log" None false).
Proof.
  destruct (at_most_one_active [Start envCart "Cart" "Add wishlist" "project_log"])
    as (_ & _ & H).
  exact (H envBlog "Blog" "Write post" "project_log" 0
           (mkSession "session-2025-01-15T09-00-00-k3x9a1" "Cart" ""
              "session-cart-2025-01-15-ada-lovelace" (jan15 + 32400000)
              "Add wishlist" "project_log" None true)
           eq_refl eq_refl).
Defined.

Lemma truthy_nonempty (p : string) : p ≠ "" → truthy p = true.
Proof. by destruct p. Qed.

(** The no-project branch of [continueSession], on a current session. *)
Lemma continueSession_current (now : Z) (st : SessionState) (r : ref) (s : Session) :
  currentSession st = Some r →
  objects st !! r = Some s →
  continueSession None now st
  = if decide (utcDay (startTime s) = utcDay now)
    then (Some r, st) else (None, endCurrentSession st).
Proof. intros Hc Hs. unfold continueSession, continueCurrent. by rewrite Hc, Hs. Qed.

Lemma endCurrentSession_current (st : SessionState) (r : ref) (s : Session) :
  currentSession st = Some r →
  objects st !! r = Some s →
  objects (endCurrentSession st) !! r = Some (set_isActive false s).
Proof.
  intros Hc Hs. unfold endCurrentSession. rewrite Hc; simpl.
  by rewrite list_lookup_alter_eq, Hs.
Qed.

Lemma endCurrentSession_others (st : SessionState) (r r' : ref) :
  currentSession st = Some r → r' ≠ r →
  objects (endCurrentSession st) !! r' = objects st !! r'.
Proof.
  intros Hc Hne. unfold endCurrentSession. rewrite Hc; simpl.
  by rewrite list_lookup_alter_ne.
Qed.

(** C4.  For a project given by a non-empty name whose history ends with the
    session [s]: on the UTC day [s] was started, [continueSession] returns
    [s], which is then the current session, has its flag set and is
    otherwise as it was, while every other session is inactive and the
    histories and the document cache are untouched; on a later day it
    returns nothing and changes nothing.  Without a project the same
    comparison is made on the current session: on its day it is returned
    and nothing changes, on another day nothing is returned, the slot is
    emptied and the flag of that session is cleared. *)
Theorem continueSession_day_check (st : SessionState) (now : Z) :
  (∀ p r s,
     p ≠ "" → lastSession st p = Some r → objects st !! r = Some s →
     (utcDay (startTime s) = utcDay now →
        let st' := (continueSession (Some p) now st).2 in
        (continueSession (Some p) now st).1 = Some r
        ∧ currentSession st' = Some r
        ∧ objects st' !! r = Some (set_isActive true s)
        ∧ (active_is_current st →
           ∀ r' s', r' ≠ r → objects st' !! r' = Some s' → isActive s' = false)
        ∧ projectSessions st' = projectSessions st
        ∧ todaysDocuments st' = todaysDocuments st)
     ∧ ((utcDay (startTime s) < utcDay now)%Z →
        continueSession (Some p) now st = (None, st)))
  ∧ (∀ r s,
       currentSession st = Some r → objects st !! r = Some s →
       (utcDay (startTime s) = utcDay now →
          continueSession None now st = (Some r, st))
       ∧ (utcDay (startTime s) ≠ utcDay now →
          let st' := (continueSession None now st).2 in
          (continueSession None now st).1 = None
          ∧ currentSession st' = None
          ∧ objects st' !! r = Some (set_isActive false s)
          ∧ projectSessions st' = projectSessions st)).
Proof.
  split.
  - intros p r s Hp Hlast Hs. split.
    + intros Hday. cbv zeta. unfold continueSession.
      rewrite (truthy_nonempty p Hp), Hlast, Hs, decide_True by done. simpl.
      split_and!; try done.
      * rewrite list_lookup_alter_eq.
        destruct (currentSession st) as [c|] eqn:Hc.
        -- destruct (decide (c = r)) as [->|Hne].
           ++ by rewrite (endCurrentSession_current st r s Hc Hs).
           ++ by rewrite (endCurrentSession_others st c r Hc), Hs.
        -- unfold endCurrentSession. by rewrite Hc, Hs.
      * intros Hinv r' s' Hne Hs'.
        rewrite list_lookup_alter_ne in Hs' by done.
        by apply (endCurrentSession_inactive st Hinv r' s').
      * apply endCurrentSession_projectSessions.
      * apply endCurrentSession_todaysDocuments.
    + intros Hday. unfold continueSession.
      rewrite (truthy_nonempty p Hp), Hlast, Hs, decide_False; [done|lia].
  - intros r s Hc Hs. split.
    + intros Hday. by rewrite (continueSession_current now st r s Hc Hs), decide_True.
    + intros Hday. cbv zeta.
      rewrite (continueSession_current now st r s Hc Hs), decide_False by done.
      simpl. split_and!; [done| | |].
      * apply endCurrentSession_currentSession.
      * by apply endCurrentSession_current.
      * apply endCurrentSession_projectSessions.
Qed.

Lemma continueSession_day_check_witness :
  (continueSession (Some "Cart") (jan15 + 80000000) cartAttached).1 = Some 0
  ∧ continueSession (Some "Cart") (jan16 + 1000) cartAttached = (None, cartAttached)
  ∧ (continueSession None (jan16 + 1000) cartAttached).1 = None
  ∧ currentSession (continueSession None (jan16 + 1000) cartAttached).2 = None.
Proof.
  destruct (continueSession_day_check cartAttached (jan15 + 80000000)) as [Hsame _].
  destruct (continueSession_day_check cartAttached (jan16 + 1000)) as [Hlater Hnone].
  destruct (Hsame "Cart" 0
              (mkSession "session-2025-01-15T09-00-00-k3x9a1" "Cart" "doc-1"
                 "session-cart-2025-01-15-ada-lovelace" (jan15 + 32400000)
                 "Add wishlist" "project_log" None true)
              ltac:(discriminate) eq_refl eq_refl) as [H1 _].
  destruct (Hlater "Cart" 0
              (mkSession "session-2025-01-15T09-00-00-k3x9a1" "Cart" "doc-1"
                 "session-cart-2025-01-15-ada-lovelace" (jan15 + 32400000)
                 "Add wishlist" "project_log" None true)
              ltac:(discriminate) eq_refl eq_refl) as [_ H2].
  destruct (Hnone 0
              (mkSession "session-2025-01-15T09-00-00-k3x9a1" "Cart" "doc-1"
                 "session-cart-2025-01-15-ada-lovelace" (jan15 + 32400000)
                 "Add wishlist" "project_log" None true)
              eq_refl eq_refl) as [_ H3].
  split_and!.
  - exact (proj1 (H1 eq_refl)).
  - exact (H2 eq_refl).
  - exact (proj1 (H3 ltac:(vm_compute; discriminate))).
  - exact (proj1 (proj2 (H3 ltac:(vm_compute; discriminate)))).
Defined.

(** C10.  When the project named has no history, [continueSession] does
    what it does without a project; so a current session started today is
    returned, and the state is left as it was, whatever the project of that
    session is. *)
Theorem continueSession_unknown_project (st : SessionState) (p : string) (now : Z) :
  getProjectSessions st p = [] →
  continueSession (Some p) now st = continueSession None now st
  ∧ (∀ r s,
       currentSession st = Some r → objects st !! r = Some s →
       utcDay (startTime s) = utcDay now →
       continueSession (Some p) now st = (Some r, st)).
Proof.
  intros Hnone.
  assert (continueSession (Some p) now st = continueSession None now st) as Heq.
  { unfold continueSession, lastSession. rewrite Hnone. simpl.
    by destruct (truthy p). }
  split; [done|].
  intros r s Hc Hs Hday.
  by rewrite Heq, (continueSession_current now st r s Hc Hs), decide_True.
Qed.

Lemma continueSession_unknown_project_witness :
  continueSession (Some "Blog") (jan15 + 80000000) cartAttached = (Some 0, cartAttached)
  ∧ projectName <$> objects cartAttached !! 0 = Some "Cart".
Proof.
  split; [|reflexivity].
  destruct (continueSession_unknown_project cartAttached "Blog" (jan15 + 80000000)
              eq_refl) as [_ H].
  exact (H 0 (mkSession "session-2025-01-15T09-00-00-k3x9a1" "Cart" "doc-1"
                "session-cart-2025-01-15-ada-lovelace" (jan15 + 32400000)
                "Add wishlist" "project_log" None true)
           eq_refl eq_refl eq_refl).
Defined.

Lemma entries_get_elem {V} (k : string) (v : V) (m : list (string * V)) :
  entries_get k m = Some v → (k, v) ∈ m.
Proof.
  induction m as [|[k' v'] m IH]; simpl; [done|].
  case_decide as E.
  - intros [= ->]. subst k'. left.
  - intros Hm. right. by apply IH.
Qed.

Lemma entries_set_elem {V} (k q : string) (v x : V) (m : list (string * V)) :
  (q, x) ∈ entries_set k v m → (q, x) = (k, v) ∨ (q, x) ∈ m.
Proof.
  induction m as [|[k' v'] m IH]; simpl.
  - intros ->%list_elem_of_singleton. by left.
  - case_decide as E.
    + intros [->|Hin]%elem_of_cons; [by left|]. right. by right.
    + intros [->|Hin]%elem_of_cons; [right; left|].
      destruct (IH Hin) as [|]; [by left|]. right. by right.
Qed.

Lemma lastSession_elem (st : SessionState) (p : string) (r : ref) :
  lastSession st p = Some r →
  ∃ rs, (p, rs) ∈ projectSessions st ∧ r ∈ rs.
Proof.
  unfold lastSession, getProjectSessions.
  destruct (entries_get p (projectSessions st)) as [rs|] eqn:E; simpl; [|done].
  intros Hl. exists rs. split; [by apply entries_get_elem|].
  rewrite last_lookup in Hl. by apply list_elem_of_lookup_2 in Hl.
Qed.

Lemma alter_is_Some {A} (f : A → A) (l : list A) (i j : nat) :
  is_Some (l !! j) → is_Some (alter f i l !! j).
Proof.
  rewrite !lookup_lt_is_Some. by rewrite length_alter.
Qed.

Lemma endCurrentSession_is_Some (st : SessionState) (r : ref) :
  is_Some (objects st !! r) → is_Some (objects (endCurrentSession st) !! r).
Proof.
  unfold endCurrentSession. destruct (currentSession st); simpl; [|done].
  apply alter_is_Some.
Qed.

Lemma endCurrentSession_resolve (st : SessionState) :
  refs_resolve st → refs_resolve (endCurrentSession st).
Proof.
  intros [Hcur Hhist]. split.
  - by rewrite endCurrentSession_currentSession.
  - rewrite endCurrentSession_projectSessions. intros p rs r Hp Hr.
    apply endCurrentSession_is_Some. by apply (Hhist p rs r).
Qed.

Lemma step_resolve (st : SessionState) (o : Op) :
  refs_resolve st → refs_resolve (step st o).
Proof.
  intros Hres. pose proof Hres as [Hcur Hhist].
  destruct o as [env p obj t|p now| |sid did]; simpl.
  - split; simpl.
    + intros r [= <-]. rewrite lookup_lt_is_Some, length_app. simpl. lia.
    + rewrite endCurrentSession_projectSessions. intros q rs r Hq Hr.
      rewrite lookup_lt_is_Some, length_app. simpl.
      apply entries_set_elem in Hq as [Hq|Hq].
      * injection Hq as -> ->.
        apply elem_of_app in Hr as [Hr|Hr];
          [|apply list_elem_of_singleton in Hr; lia].
        unfold getProjectSessions in Hr.
        destruct (entries_get p (projectSessions st)) as [rs|] eqn:E;
          simpl in Hr; [|by apply elem_of_nil in Hr].
        apply entries_get_elem in E.
        pose proof (endCurrentSession_is_Some st r (Hhist p rs r E Hr)) as Hs.
        apply lookup_lt_is_Some in Hs. lia.
      * pose proof (endCurrentSession_is_Some st r (Hhist q rs r Hq Hr)) as Hs.
        apply lookup_lt_is_Some in Hs. lia.
  - assert (refs_resolve (continueCurrent now st).2) as Hfall.
    { destruct (continueCurrent_state now st) as [->| ->]; [done|].
      by apply endCurrentSession_resolve. }
    unfold continueSession.
    destruct p as [p|]; [|done].
    destruct (truthy p); [|done].
    destruct (lastSession st p) as [r|] eqn:Hl; [|done].
    destruct (objects st !! r) as [lastS|] eqn:Hs; [|done].
    case_decide; [|done]. split; simpl.
    + intros r' [= <-]. apply alter_is_Some, endCurrentSession_is_Some. by rewrite Hs.
    + rewrite endCurrentSession_projectSessions. intros q rs r' Hq Hr.
      apply alter_is_Some, endCurrentSession_is_Some. by apply (Hhist q rs r').
  - by apply endCurrentSession_resolve.
  - unfold setDocumentId.
    destruct (locate (objects st) sid (projectSessions st)) as [[p r]|]; [|done].
    split; simpl.
    + intros r' Hr'. apply alter_is_Some. by apply Hcur.
    + intros q rs r' Hq Hr. apply alter_is_Some. by apply (Hhist q rs r').
Qed.

(** In a state reached from the new registry the slot and the last entry of
    a history always resolve: the lines of [continueSession] that read
    [startTime] never meet a missing object. *)
Lemma run_resolve (ops : list Op) :
  let st := run ops initial in
  (∀ r, currentSession st = Some r → is_Some (objects st !! r))
  ∧ (∀ p r, lastSession st p = Some r → is_Some (objects st !! r)).
Proof.
  cbv zeta.
  assert (refs_resolve (run ops initial)) as [Hcur Hhist].
  { assert (refs_resolve initial) as Hinit.
    { split; [done|]. intros p rs r Hp. by apply elem_of_nil in Hp. }
    revert Hinit. generalize initial.
    induction ops as [|o ops IH]; intros st Hres; simpl; [done|].
    by apply IH, step_resolve. }
  split; [done|].
  intros p r (rs & Hp & Hr)%lastSession_elem. by apply (Hhist p rs r).
Qed.

Lemma entries_get_set {V} (k q : string) (v : V) (m : list (string * V)) :
  entries_get q (entries_set k v m)
  = if decide (k = q) then Some v else entries_get q m.
Proof.
  induction m as [|[k' v'] m IH]; simpl.
  - by repeat case_decide.
  - repeat (case_decide; simpl; simplify_eq); try done.
    all: rewrite IH; by repeat (case_decide; simplify_eq).
Qed.

(** A project whose name is the empty string is the one project
    [continueSession] cannot be asked for.  It has no history as long as
    [startSession] is called with non-empty names, which the schema of the
    [start_session] tool ensures. *)
Lemma no_history_for_empty_name (ops : list Op) :
  Forall (λ o, ∀ env p obj t, o = Start env p obj t → p ≠ "") ops →
  getProjectSessions (run ops initial) "" = [].
Proof.
  assert (getProjectSessions initial "" = []) as Hinit by done.
  revert Hinit. generalize initial.
  induction ops as [|o ops IH]; intros st Hst Hops; simpl; [done|].
  apply Forall_cons in Hops as [Ho Hops].
  apply IH; [|done]. clear IH Hops.
  unfold getProjectSessions in *.
  destruct o as [env p obj t|p now| |sid did]; simpl.
  - rewrite entries_get_set, endCurrentSession_projectSessions.
    rewrite decide_False; [done|]. by apply (Ho env p obj t).
  - assert (projectSessions (continueSession p now st).2 = projectSessions st) as ->;
      [|done].
    assert (projectSessions (continueCurrent now st).2 = projectSessions st) as Hfall.
    { destruct (continueCurrent_state now st) as [->| ->]; [done|].
      apply endCurrentSession_projectSessions. }
    unfold continueSession.
    destruct p as [p|]; [|done].
    destruct (truthy p); [|done].
    destruct (lastSession st p) as [r|]; [|done].
    destruct (objects st !! r); [|done].
    case_decide; [|done]. apply endCurrentSession_projectSessions.
  - by rewrite endCurrentSession_projectSessions.
  - unfold setDocumentId.
    by destruct (locate (objects st) sid (projectSessions st)) as [[q r]|].
Qed.

(** [find] and [locate] only read the ids of the objects. *)
Lemma find_by_id_ext (objs objs' : list Session) (sid : string) (rs : list ref) :
  (∀ r, id <$> objs !! r = id <$> objs' !! r) →
  find_by_id objs sid rs = find_by_id objs' sid rs.
Proof.
  intros Hid. induction rs as [|r rs IH]; simpl; [done|].
  specialize (Hid r).
  destruct (objs !! r) as [s|], (objs' !! r) as [s'|]; simplify_eq/=; [|done].
  rewrite Hid. case_decide; [done|apply IH].
Qed.

Lemma locate_ext (objs objs' : list Session) (sid : string)
    (entries : list (string * list ref)) :
  (∀ r, id <$> objs !! r = id <$> objs' !! r) →
  locate objs sid entries = locate objs' sid entries.
Proof.
  intros Hid. induction entries as [|[p rs] entries IH]; simpl; [done|].
  by rewrite (find_by_id_ext objs objs' sid rs Hid), IH.
Qed.

Lemma set_documentId_ids (objs : list Session) (did : string) (r r' : ref) :
  id <$> alter (set_documentId did) r objs !! r' = id <$> objs !! r'.
Proof.
  rewrite list_lookup_alter. case_decide as E; [subst r'|done].
  by destruct (objs !! r).
Qed.

(** What [setDocumentId] writes when it finds the session. *)
Lemma setDocumentId_found (sid did : string) (st : SessionState)
    (p : string) (r : ref) (s : Session) :
  locate (objects st) sid (projectSessions st) = Some (p, r) →
  objects st !! r = Some s →
  objects (setDocumentId sid did st) !! r = Some (set_documentId did s)
  ∧ todaysDocuments (setDocumentId sid did st) !! p = Some did.
Proof.
  intros Hl Hs. unfold setDocumentId. rewrite Hl; simpl. split.
  - by rewrite list_lookup_alter_eq, Hs.
  - apply lookup_insert_eq.
Qed.

(** C9.  A second [setDocumentId] with the same session id and document id
    leaves the whole state (the session objects, the document cache, the
    histories and the current slot) as the first call left it. *)
Theorem setDocumentId_idempotent (sessionId documentId : string) (st : SessionState) :
  setDocumentId sessionId documentId (setDocumentId sessionId documentId st)
  = setDocumentId sessionId documentId st.
Proof.
  unfold setDocumentId at 2 3.
  destruct (locate (objects st) sessionId (projectSessions st)) as [[p r]|] eqn:Hl.
  - unfold setDocumentId; simpl.
    rewrite (locate_ext _ (objects st)), Hl
      by (intros r'; apply set_documentId_ids).
    f_equal.
    + rewrite list_alter_alter_eq. by apply list_alter_ext.
    + apply insert_insert_eq.
  - unfold setDocumentId. by rewrite Hl.
Qed.

(** The document cache is written by [setDocumentId] alone: no other
    operation of the registry, at whatever time, changes or empties it. *)
Lemma todaysDocuments_kept (st : SessionState) (o : Op) :
  (∀ sid did, o ≠ AttachDocument sid did) →
  todaysDocuments (step st o) = todaysDocuments st.
Proof.
  intros Hne. destruct o as [env p obj t|p now| |sid did]; simpl.
  - apply endCurrentSession_todaysDocuments.
  - assert (todaysDocuments (continueCurrent now st).2 = todaysDocuments st) as Hfall.
    { destruct (continueCurrent_state now st) as [->| ->]; [done|].
      apply endCurrentSession_todaysDocuments. }
    unfold continueSession.
    destruct p as [p|]; [|done].
    destruct (truthy p); [|done].
    destruct (lastSession st p) as [r|]; [|done].
    destruct (objects st !! r); [|done].
    case_decide; [|done]. apply endCurrentSession_todaysDocuments.
  - apply endCurrentSession_todaysDocuments.
  - by destruct (Hne sid did).
Qed.

(** C3 fails on the code.  The mapping of "Cart" to doc-1 was recorded on
    15 January.  [getTodaysDocumentId], which reads no clock, still answers
    doc-1 after a [continueSession] made on 16 January has found the
    session stale, and the [startSession] of the service on 16 January
    reuses doc-1 and reports that no new document is needed. *)
Lemma getTodaysDocumentId_next_day :
  getTodaysDocumentId cartAttached "Cart" = Some "doc-1"
  ∧ continueSession (Some "Cart") (jan16 + 1000) cartAttached = (None, cartAttached)
  ∧ getTodaysDocumentId
      (continueSession (Some "Cart") (jan16 + 1000) cartAttached).2 "Cart"
    = Some "doc-1"
  ∧ needsNewDocument cartAttached "Cart" = false
  ∧ (VibeLoggerService.startSession envCartNextDay docsUp "Cart" "Fix bug"
       "project_log" cartAttached).1
    = Ok (1, "doc-1", false).
Proof. split_and!; reflexivity. Qed.

End SessionManagerFacts.

(** ** The service *)

Section VibeLoggerServiceFacts.
Import JS SessionManager VibeLoggerService Samples.

(** C5.  Without a current session, [endSession] throws 'No active session
    to end' and [endCurrentSession] does nothing: the state, histories
    included, is as it was.  With a current session [s],
    [endCurrentSession] clears its flag and the slot and leaves every
    history and every other session alone.  [endSession] first appends the
    closing text to the document of [s]: when [s] has a document id and the
    append succeeds, it ends the session and returns it; when [s] has no
    document id or the append fails, it throws and leaves the state, with
    [s] current and active, as it was. *)
Theorem endSession_requires_active (docs : Docs) (st : SessionState) :
  (currentSession st = None →
     endSession docs st = (Err NoActiveSessionToEnd, st)
     ∧ endCurrentSession st = st)
  ∧ (∀ r s,
       currentSession st = Some r → objects st !! r = Some s →
       let st' := endCurrentSession st in
       currentSession st' = None
       ∧ objects st' !! r = Some (set_isActive false s)
       ∧ (∀ r', r' ≠ r → objects st' !! r' = objects st !! r')
       ∧ projectSessions st' = projectSessions st
       ∧ todaysDocuments st' = todaysDocuments st
       ∧ (documentId s ≠ "" → appendContent docs = true →
          endSession docs st = (Ok r, st'))
       ∧ (documentId s = "" ∨ appendContent docs = false →
          endSession docs st = (Err DocsFailure, st))).
Proof.
  split.
  - intros Hc. unfold endSession, endCurrentSession, getCurrentSession.
    by rewrite Hc.
  - intros r s Hc Hs. cbv zeta. split_and!.
    + apply endCurrentSession_currentSession.
    + by apply endCurrentSession_current.
    + intros r' Hne. by apply (endCurrentSession_others st r r').
    + apply endCurrentSession_projectSessions.
    + apply endCurrentSession_todaysDocuments.
    + intros Hd Hok. unfold endSession, getCurrentSession, appendTo.
      rewrite Hc, Hs, Hok. simpl. by rewrite (truthy_nonempty _ Hd).
    + intros Hbad. unfold endSession, getCurrentSession, appendTo.
      rewrite Hc, Hs. simpl. destruct Hbad as [-> | ->]; [done|].
      by rewrite andb_false_r.
Qed.

Lemma endSession_requires_active_witness :
  endSession docsUp initial = (Err NoActiveSessionToEnd, initial)
  ∧ (endSession docsUp cartAttached).1 = Ok 0
  ∧ projectSessions (endSession docsUp cartAttached).2 = [("Cart", [0])]
  ∧ endSession docsDown cartAttached = (Err DocsFailure, cartAttached).
Proof.
  destruct (endSession_requires_active docsUp initial) as [Hnone _].
  destruct (endSession_requires_active docsUp cartAttached) as [_ Hsome].
  destruct (endSession_requires_active docsDown cartAttached) as [_ Hdown].
  destruct (Hsome 0
              (mkSession "session-2025-01-15T09-00-00-k3x9a1" "Cart" "doc-1"
                 "session-cart-2025-01-15-ada-lovelace" (jan15 + 32400000)
                 "Add wishlist" "project_log" None true)
              eq_refl eq_refl) as (_ & _ & _ & Hhist & _ & Hend & _).
  destruct (Hdown 0
              (mkSession "session-2025-01-15T09-00-00-k3x9a1" "Cart" "doc-1"
                 "session-cart-2025-01-15-ada-lovelace" (jan15 + 32400000)
                 "Add wishlist" "project_log" None true)
              eq_refl eq_refl) as (_ & _ & _ & _ & _ & _ & Hfail).
  split_and!.
  - exact (proj1 (Hnone eq_refl)).
  - by rewrite (Hend ltac:(discriminate) eq_refl).
  - rewrite (Hend ltac:(discriminate) eq_refl). cbn [snd]. rewrite Hhist. reflexivity.
  - apply Hfail. by right.
Defined.

(** The service on one day: the first [startSession] for "Cart" creates a
    document, the second one reuses it. *)
Example startSession_same_day :
  let first := VibeLoggerService.startSession envCart docsUp "Cart" "Add wishlist"
                 "project_log" initial in
  let second := VibeLoggerService.startSession envBlog docsUp "Cart" "Fix bug"
                  "project_log" first.2 in
  first.1 = Ok (0, "doc-2", true)
  ∧ second.1 = Ok (1, "doc-2", false)
  ∧ (previousSessionId <$> objects second.2 !! 1)
    = Some (Some "session-2025-01-15T09-00-00-k3x9a1").
Proof. cbv zeta. split_and!; reflexivity. Qed.

(** C5 as stated fails: a session can be active and [endSession] neither
    deactivate nor return it.  On 15 January the "Cart" session has the
    document doc-1 and the document client cannot append: [endSession]
    throws, and the session is still the current one and still active.  And
    when [startSession] could not create a document, the session it left
    current has no document id, and [endSession] throws on it even with a
    document client for which every call succeeds. *)
Lemma endSession_append_failure :
  currentSession cartAttached = Some 0
  ∧ endSession docsDown cartAttached = (Err DocsFailure, cartAttached)
  ∧ (isActive <$> objects (endSession docsDown cartAttached).2 !! 0) = Some true
  ∧ VibeLoggerService.startSession envCart (mkDocs (λ _, true) None true)
      "Cart" "Add wishlist" "project_log" initial
    = (Err DocsFailure, cartStarted)
  ∧ currentSession cartStarted = Some 0
  ∧ endSession docsUp cartStarted = (Err DocsFailure, cartStarted)
  ∧ (isActive <$> objects (endSession docsUp cartStarted).2 !! 0) = Some true.
Proof. split_and!; reflexivity. Qed.

End VibeLoggerServiceFacts.

(** ** More on the document name *)

Section NameShapeFacts.
Import JS DocumentName NameShape.
Local Open Scope nat_scope.

Lemma runs_hyphen_shape (b : bool) (s : string) :
  has_double_hyphen (runs_to_hyphen is_hyphen b s) = false
  ∧ (b = true → starts_with_hyphen (runs_to_hyphen is_hyphen b s) = false).
Proof.
  revert b. induction s as [|c r IH]; intros b; simpl; [done|].
  destruct (is_hyphen c) eqn:Hc.
  - destruct (IH true) as [Hd Hs]. destruct b; simpl; [by split|].
    rewrite Hd, (Hs eq_refl). by split.
  - destruct (IH false) as [Hd _]. simpl. rewrite Hc, Hd. by split.
Qed.

Lemma strip_leading_shape (s : string) :
  has_double_hyphen s = false →
  has_double_hyphen (strip_leading_hyphen s) = false
  ∧ starts_with_hyphen (strip_leading_hyphen s) = false.
Proof.
  destruct s as [|c r]; simpl; [done|].
  intros [H1 H2]%orb_false_iff.
  destruct (is_hyphen c) eqn:Hc; simpl in *; [done|].
  by rewrite Hc, H2.
Qed.

Lemma strip_trailing_starts (s : string) :
  starts_with_hyphen (strip_trailing_hyphen s) = true → starts_with_hyphen s = true.
Proof.
  destruct s as [|c [|c' r']]; simpl; [done| |done].
  by destruct (is_hyphen c) eqn:E; simpl; rewrite ?E.
Qed.

Lemma strip_trailing_double (s : string) :
  has_double_hyphen s = false → has_double_hyphen (strip_trailing_hyphen s) = false.
Proof.
  induction s as [|c r IH]; [done|].
  destruct r as [|c' r'].
  - simpl. by destruct (is_hyphen c) eqn:E; simpl; rewrite ?E.
  - change (strip_trailing_hyphen (String c (String c' r')))
      with (String c (strip_trailing_hyphen (String c' r'))).
    cbn [has_double_hyphen]. intros [H1 H2]%orb_false_iff.
    rewrite (IH H2), orb_false_r.
    destruct (is_hyphen c); [|done]. simpl in *.
    destruct (starts_with_hyphen (strip_trailing_hyphen (String c' r'))) eqn:E; [|done].
    apply strip_trailing_starts in E. simpl in E. congruence.
Qed.

Lemma strip_trailing_ends (s : string) :
  has_double_hyphen s = false → ends_with_hyphen (strip_trailing_hyphen s) = false.
Proof.
  induction s as [|c r IH]; [done|].
  destruct r as [|c' r'].
  - simpl. by destruct (is_hyphen c) eqn:E; simpl; rewrite ?E.
  - change (strip_trailing_hyphen (String c (String c' r')))
      with (String c (strip_trailing_hyphen (String c' r'))).
    cbn [has_double_hyphen]. intros [H1 H2]%orb_false_iff.
    specialize (IH H2).
    destruct (strip_trailing_hyphen (String c' r')) as [|d x] eqn:E.
    + destruct r' as [|c'' r'']; [|done].
      simpl in E. destruct (is_hyphen c') eqn:Hc'; [|done].
      simpl in *. rewrite Hc' in H1. by rewrite andb_true_r in H1.
    + exact IH.
Qed.

Lemma slice0_starts (n : nat) (s : string) :
  starts_with_hyphen (slice0 n s) = true → starts_with_hyphen s = true.
Proof. by destruct n, s. Qed.

Lemma slice0_double (n : nat) (s : string) :
  has_double_hyphen s = false → has_double_hyphen (slice0 n s) = false.
Proof.
  revert s. induction n as [|n IH]; intros [|c r]; simpl; try done.
  intros [H1 H2]%orb_false_iff. rewrite (IH r H2), orb_false_r.
  destruct (is_hyphen c); [|done]. simpl in *.
  destruct (starts_with_hyphen (slice0 n r)) eqn:E; [|done].
  apply slice0_starts in E. congruence.
Qed.

Lemma slice0_short (n : nat) (s : string) :
  String.length (slice0 n s) < n → slice0 n s = s.
Proof.
  revert s. induction n as [|n IH]; intros [|c r]; simpl; try done; try lia.
  intros H. f_equal. apply IH. lia.
Qed.

Lemma slice0_fits (n : nat) (s : string) :
  String.length s ≤ n → slice0 n s = s.
Proof.
  revert s. induction n as [|n IH]; intros [|c r]; simpl; try done; try lia.
  intros H. f_equal. apply IH. lia.
Qed.

(** X1.  A sanitized project name never starts with a hyphen and never has
    two hyphens in a row.  It ends with a hyphen only when the cut at 50
    characters fell right after one: then it has exactly 50 characters. *)
Theorem sanitizeProjectName_hyphens (name : string) :
  let clean := sanitizeProjectName name in
  starts_with_hyphen clean = false
  ∧ has_double_hyphen clean = false
  ∧ (ends_with_hyphen clean = true → String.length clean = 50).
Proof.
  cbv zeta. unfold sanitizeProjectName.
  set (kept := keep_chars _ _).
  set (spaced := runs_to_hyphen is_space false kept).
  destruct (runs_hyphen_shape false spaced) as [Hd _].
  destruct (strip_leading_shape _ Hd) as [Hd1 Hs1].
  pose proof (strip_trailing_double _ Hd1) as Hd2.
  pose proof (strip_trailing_ends _ Hd1) as He2.
  set (stripped := strip_trailing_hyphen _) in *.
  split_and!.
  - destruct (starts_with_hyphen (slice0 50 stripped)) eqn:E; [|done].
    apply slice0_starts, strip_trailing_starts in E. congruence.
  - by apply slice0_double.
  - intros He. pose proof (length_slice0 50 stripped) as Hle.
    destruct (decide (String.length (slice0 50 stripped) = 50)) as [|Hne]; [done|].
    rewrite slice0_short in He by lia. congruence.
Qed.

Lemma sanitizeProjectName_hyphens_witness :
  sanitizeProjectName "Payments gateway migration to the new ledger core v2 plan"
  = "payments-gateway-migration-to-the-new-ledger-core-"
  ∧ String.length
      (sanitizeProjectName "Payments gateway migration to the new ledger core v2 plan")
    = 50.
Proof.
  split; [reflexivity|].
  destruct (sanitizeProjectName_hyphens
              "Payments gateway migration to the new ledger core v2 plan")
    as (_ & _ & H).
  exact (H eq_refl).
Defined.

Lemma lower_char_name_char (c : ascii) : name_char c = true → lower_char c = c.
Proof.
  destruct c as [[] [] [] [] [] [] [] []]; intros H; try reflexivity;
    vm_compute in H; discriminate.
Qed.

Lemma name_char_not_space (c : ascii) : name_char c = true → is_space c = false.
Proof.
  destruct c as [[] [] [] [] [] [] [] []]; intros H; try reflexivity;
    vm_compute in H; discriminate.
Qed.

Lemma toLowerCase_name_chars (s : string) :
  all_chars name_char s = true → toLowerCase s = s.
Proof.
  induction s as [|c r IH]; simpl; [done|].
  intros [Hc Hr]%andb_true_iff. by rewrite (lower_char_name_char c Hc), IH.
Qed.

Lemma keep_chars_id (keep : ascii → bool) (s : string) :
  all_chars keep s = true → keep_chars keep s = s.
Proof.
  induction s as [|c r IH]; simpl; [done|].
  intros [Hc Hr]%andb_true_iff. by rewrite Hc, IH.
Qed.

Lemma all_chars_weaken (p q : ascii → bool) (s : string) :
  (∀ c, p c = true → q c = true) → all_chars p s = true → all_chars q s = true.
Proof.
  intros Hpq. induction s as [|c r IH]; simpl; [done|].
  intros [Hc Hr]%andb_true_iff. by rewrite (Hpq c Hc), IH.
Qed.

Lemma runs_space_id (s : string) :
  all_chars name_char s = true → runs_to_hyphen is_space false s = s.
Proof.
  induction s as [|c r IH]; simpl; [done|].
  intros [Hc Hr]%andb_true_iff. by rewrite (name_char_not_space c Hc), IH.
Qed.

Lemma is_hyphen_eq (c : ascii) : is_hyphen c = true → c = "-"%char.
Proof.
  destruct c as [[] [] [] [] [] [] [] []]; intros H; try reflexivity;
    vm_compute in H; discriminate.
Qed.

Lemma runs_hyphen_id (s : string) :
  has_double_hyphen s = false →
  runs_to_hyphen is_hyphen false s = s
  ∧ (starts_with_hyphen s = false → runs_to_hyphen is_hyphen true s = s).
Proof.
  induction s as [|c r IH]; simpl; [done|].
  intros [H1 H2]%orb_false_iff. destruct (IH H2) as [IHf IHt].
  destruct (is_hyphen c) eqn:Hc; simpl in *.
  - split; [|done]. by rewrite (IHt H1), (is_hyphen_eq c Hc).
  - by rewrite IHf.
Qed.

Lemma strip_trailing_id (s : string) :
  ends_with_hyphen s = false → strip_trailing_hyphen s = s.
Proof.
  induction s as [|c r IH]; [done|].
  destruct r as [|c' r'].
  - simpl. by intros ->.
  - intros H.
    change (strip_trailing_hyphen (String c (String c' r')))
      with (String c (strip_trailing_hyphen (String c' r'))).
    f_equal. by apply IH.
Qed.

(** X2.  A name that already has the shape [sanitizeProjectName] produces
    (characters of [a-z0-9-] only, no hyphen at either end, no two hyphens
    in a row, at most 50 characters) is returned as it is. *)
Theorem sanitizeProjectName_fixed (name : string) :
  all_chars name_char name = true →
  starts_with_hyphen name = false →
  ends_with_hyphen name = false →
  has_double_hyphen name = false →
  String.length name ≤ 50 →
  sanitizeProjectName name = name.
Proof.
  intros Hchars Hstart Hend Hdouble Hlen. unfold sanitizeProjectName.
  rewrite (toLowerCase_name_chars name Hchars).
  rewrite keep_chars_id.
  2:{ apply (all_chars_weaken name_char); [|done].
      intros c. unfold name_char.
      destruct (is_lower c), (is_digit c), (is_hyphen c), (is_space c); simpl; congruence. }
  rewrite (runs_space_id name Hchars).
  rewrite (proj1 (runs_hyphen_id name Hdouble)).
  assert (strip_leading_hyphen name = name) as ->.
  { destruct name as [|c r]; [done|]. simpl in *. by rewrite Hstart. }
  rewrite (strip_trailing_id name Hend).
  by apply slice0_fits.
Qed.

Lemma sanitizeProjectName_fixed_witness :
  sanitizeProjectName "vibe-logger-v2" = "vibe-logger-v2".
Proof.
  apply sanitizeProjectName_fixed; [reflexivity..|vm_compute; lia].
Defined.

Lemma runs_space_no_space (b : bool) (s : string) :
  has_space (runs_to_hyphen is_space b s) = false.
Proof.
  revert b. induction s as [|c r IH]; intros b; simpl; [done|].
  destruct (is_space c) eqn:Hc.
  - destruct b; simpl; by rewrite ?IH.
  - simpl. by rewrite Hc, IH.
Qed.

(** X3.  The operator name of [getCurrentUsername] never contains a
    whitespace character, and the name taken when the [git] call fails is
    never empty: an unset or empty [USER] gives 'developer'. *)
Theorem getCurrentUsername_shape (git user : option string) :
  has_space (getCurrentUsername git user) = false
  ∧ getCurrentUsername None user ≠ "".
Proof.
  split.
  - unfold getCurrentUsername. destruct git as [stdout|].
    + apply runs_space_no_space.
    + destruct user as [u|]; simpl; [|done].
      destruct (truthy _) eqn:E; [|done]. apply runs_space_no_space.
  - unfold getCurrentUsername. destruct user as [u|]; simpl; [|done].
    destruct (runs_to_hyphen is_space false (toLowerCase u)) as [|c r] eqn:E; simpl; done.
Qed.

End NameShapeFacts.

(** ** The shape of the registry *)

Section RegistryShapeFacts.
Import JS SessionManager RegistryShape Samples.
Local Open Scope nat_scope.

Lemma entries_keys_get {V} (k : string) (m : list (string * V)) :
  k ∈ m.*1 ↔ is_Some (entries_get k m).
Proof.
  induction m as [|[k' v'] m IH]; csimpl.
  - split; [by intros ?%elem_of_nil|by intros [? ?]].
  - case_decide as E; [subst k'|].
    + split; [by eexists|left].
    + rewrite elem_of_cons, IH. split; [|by right].
      by intros [?|?].
Qed.

Lemma entries_elem_get {V} (k : string) (v : V) (m : list (string * V)) :
  NoDup m.*1 → (k, v) ∈ m → entries_get k m = Some v.
Proof.
  induction m as [|[k' v'] m IH]; csimpl; [by intros _ ?%elem_of_nil|].
  intros [Hk Hnd]%NoDup_cons [Heq|Hin]%elem_of_cons.
  - injection Heq as <- <-. by rewrite decide_True.
  - rewrite decide_False; [by apply IH|].
    intros ->. apply Hk. apply list_elem_of_fmap. by exists (k, v).
Qed.

Lemma entries_set_keys {V} (k : string) (v : V) (m : list (string * V)) :
  (entries_set k v m).*1 = if decide (k ∈ m.*1) then m.*1 else (m.*1 ++ [k])%list.
Proof.
  induction m as [|[k' v'] m IH]; csimpl; [done|].
  - destruct (decide (k' = k)) as [->|Hne]; csimpl.
    + rewrite decide_True; [done|left].
    + rewrite IH. destruct (decide (k ∈ m.*1)) as [Hin|Hout].
      * rewrite decide_True; [done|by right].
      * rewrite decide_False; [done|].
        intros [?|?]%elem_of_cons; congruence.
Qed.

Lemma entries_set_NoDup {V} (k : string) (v : V) (m : list (string * V)) :
  NoDup m.*1 → NoDup (entries_set k v m).*1.
Proof.
  intros Hnd. rewrite entries_set_keys. case_decide as Hin; [done|].
  apply NoDup_app. split_and!; [done| |apply NoDup_singleton].
  intros x Hx ->%list_elem_of_singleton. done.
Qed.

Lemma entries_set_other {V} (k q : string) (v x : V) (m : list (string * V)) :
  q ≠ k → (q, x) ∈ m → (q, x) ∈ entries_set k v m.
Proof.
  intros Hne. induction m as [|[k' v'] m IH]; simpl; [by intros ?%elem_of_nil|].
  intros [Heq|Hin]%elem_of_cons.
  - injection Heq as <- <-. rewrite decide_False by done. left.
  - case_decide; right; [done|by apply IH].
Qed.

Lemma entries_set_same {V} (k : string) (v : V) (m : list (string * V)) :
  (k, v) ∈ entries_set k v m.
Proof.
  induction m as [|[k' v'] m IH]; simpl; [left|].
  case_decide; [left|by right].
Qed.

(** An operation that rewrites fields of objects other than [projectName]
    and leaves the histories alone keeps the filing. *)
Lemma filed_transfer (st st' : SessionState) :
  projectSessions st' = projectSessions st →
  (∀ r, projectName <$> objects st' !! r = projectName <$> objects st !! r) →
  filed st → filed st'.
Proof.
  intros Hp Ho [Hk Hn Hr Hw Hl].
  split; unfold getAllProjects in *; rewrite ?Hp; try done.
  - intros p rs r Hin Hr'. specialize (Hr p rs r Hin Hr'). specialize (Ho r).
    destruct Hr as [s Hs]. rewrite Hs in Ho.
    destruct (objects st' !! r); [by eexists|done].
  - intros p rs r s' Hin Hr' Hs'. specialize (Ho r). rewrite Hs' in Ho.
    destruct (objects st !! r) as [s|] eqn:Hs; [|done].
    simpl in Ho. injection Ho as ->. by apply (Hw p rs r s).
  - intros r s' Hs'. specialize (Ho r). rewrite Hs' in Ho.
    destruct (objects st !! r) as [s|] eqn:Hs; [|done].
    simpl in Ho. injection Ho as ->. by apply (Hl r s).
Qed.

Lemma alter_projectName (f : Session → Session) (l : list Session) (i r : nat) :
  (∀ s, projectName (f s) = projectName s) →
  projectName <$> alter f i l !! r = projectName <$> l !! r.
Proof.
  intros Hf. rewrite list_lookup_alter. case_decide as E; [subst r|done].
  destruct (l !! i); simpl; [|done]. by rewrite Hf.
Qed.

Lemma endCurrentSession_objects_projectName (st : SessionState) (r : ref) :
  projectName <$> objects (endCurrentSession st) !! r = projectName <$> objects st !! r.
Proof.
  unfold endCurrentSession. destruct (currentSession st); simpl; [|done].
  by apply alter_projectName.
Qed.

Lemma endCurrentSession_filed (st : SessionState) :
  filed st → filed (endCurrentSession st).
Proof.
  apply filed_transfer.
  - apply endCurrentSession_projectSessions.
  - apply endCurrentSession_objects_projectName.
Qed.

Lemma setDocumentId_projectSessions sid did (st : SessionState) :
  projectSessions (setDocumentId sid did st) = projectSessions st.
Proof.
  unfold setDocumentId.
  by destruct (locate (objects st) sid (projectSessions st)) as [[p r]|].
Qed.

Lemma setDocumentId_currentSession sid did (st : SessionState) :
  currentSession (setDocumentId sid did st) = currentSession st.
Proof.
  unfold setDocumentId.
  by destruct (locate (objects st) sid (projectSessions st)) as [[p r]|].
Qed.

Lemma setDocumentId_filed sid did (st : SessionState) :
  filed st → filed (setDocumentId sid did st).
Proof.
  apply filed_transfer; [apply setDocumentId_projectSessions|].
  intros r. unfold setDocumentId.
  destruct (locate (objects st) sid (projectSessions st)) as [[p r']|]; simpl; [|done].
  by apply alter_projectName.
Qed.

Lemma continueSession_projectSessions p now (st : SessionState) :
  projectSessions (continueSession p now st).2 = projectSessions st.
Proof.
  assert (projectSessions (continueCurrent now st).2 = projectSessions st) as Hfall.
  { destruct (continueCurrent_state now st) as [->| ->]; [done|].
    apply endCurrentSession_projectSessions. }
  unfold continueSession.
  destruct p as [p|]; [|done].
  destruct (truthy p); [|done].
  destruct (lastSession st p) as [r|]; [|done].
  destruct (objects st !! r); [|done].
  case_decide; [|done]. apply endCurrentSession_projectSessions.
Qed.

Lemma continueSession_filed p now (st : SessionState) :
  filed st → filed (continueSession p now st).2.
Proof.
  apply filed_transfer; [apply continueSession_projectSessions|].
  intros r.
  assert (projectName <$> objects (continueCurrent now st).2 !! r
          = projectName <$> objects st !! r) as Hfall.
  { destruct (continueCurrent_state now st) as [->| ->]; [done|].
    apply endCurrentSession_objects_projectName. }
  unfold continueSession.
  destruct p as [p|]; [|done].
  destruct (truthy p); [|done].
  destruct (lastSession st p) as [r'|]; [|done].
  destruct (objects st !! r'); [|done].
  case_decide; [|done]. simpl.
  rewrite alter_projectName by done.
  apply endCurrentSession_objects_projectName.
Qed.

Lemma startSession_projectSessions env p obj t (st : SessionState) :
  projectSessions (startSession env p obj t st).2
  = entries_set p (getProjectSessions st p ++ [length (objects st)])%list
      (projectSessions st).
Proof.
  unfold startSession; simpl.
  by rewrite endCurrentSession_length, endCurrentSession_projectSessions.
Qed.

Lemma getProjectSessions_elem (st : SessionState) (p : string) (r : ref) :
  r ∈ getProjectSessions st p → ∃ rs, (p, rs) ∈ projectSessions st ∧ r ∈ rs.
Proof.
  unfold getProjectSessions.
  destruct (entries_get p (projectSessions st)) as [rs|] eqn:E; simpl.
  - intros Hr. exists rs. split; [by apply entries_get_elem|done].
  - by intros ?%elem_of_nil.
Qed.

Lemma startSession_filed env p obj t (st : SessionState) :
  filed st → filed (startSession env p obj t st).2.
Proof.
  intros Hf. pose proof (endCurrentSession_filed st Hf) as [Hk Hn Hr Hw Hl].
  assert (∀ q rs r,
            (q, rs) ∈ projectSessions (startSession env p obj t st).2 → r ∈ rs →
            r = length (objects (endCurrentSession st)) ∧ q = p
            ∨ r < length (objects (endCurrentSession st))
              ∧ ∃ rs0, (q, rs0) ∈ projectSessions (endCurrentSession st) ∧ r ∈ rs0)
    as Hcases.
  { intros q rs r Hin Hr'. unfold startSession in Hin; simpl in Hin.
    apply entries_set_elem in Hin as [Heq|Hin].
    - injection Heq as -> ->.
      apply elem_of_app in Hr' as [Hr'|Hr'].
      + right. apply getProjectSessions_elem in Hr' as (rs0 & Hin0 & Hr0).
        rewrite <- endCurrentSession_projectSessions in Hin0.
        split; [|by exists rs0]. by apply lookup_lt_is_Some, (Hr p rs0).
      + apply list_elem_of_singleton in Hr'. by left.
    - right. split; [|by exists rs]. by apply lookup_lt_is_Some, (Hr q rs). }
  split.
  - unfold getAllProjects. rewrite startSession_projectSessions.
    apply entries_set_NoDup. destruct Hf as [Hk0 _ _ _ _]. exact Hk0.
  - intros q rs Hin. unfold startSession in Hin; simpl in Hin.
    apply entries_set_elem in Hin as [Heq|Hin]; [|by apply (Hn q)].
    injection Heq as -> ->. by intros [? ?]%app_eq_nil.
  - intros q rs r Hin Hr'. unfold startSession at 1; simpl.
    apply lookup_lt_is_Some. rewrite length_app; simpl.
    destruct (Hcases q rs r Hin Hr') as [[-> _]|[Hlt _]]; lia.
  - intros q rs r s Hin Hr'. unfold startSession at 1; simpl.
    destruct (Hcases q rs r Hin Hr') as [[-> ->]|[Hlt (rs0 & Hin0 & Hr0)]].
    + rewrite list_lookup_middle by done. by intros [= <-].
    + rewrite lookup_app_l by done. by apply (Hw q rs0).
  - intros r s. unfold startSession; simpl.
    destruct (decide (r < length (objects (endCurrentSession st)))) as [Hlt|Hge].
    + rewrite lookup_app_l by done. intros Hs.
      destruct (Hl r s Hs) as (rs & Hin & Hr').
      destruct (decide (projectName s = p)) as [Hp|Hp].
      * exists (getProjectSessions st p ++ [length (objects (endCurrentSession st))])%list.
        rewrite Hp. split; [apply entries_set_same|].
        apply elem_of_app. left. unfold getProjectSessions.
        rewrite Hp in Hin.
        rewrite <- (endCurrentSession_projectSessions st) at 1.
        by rewrite (entries_elem_get p rs _ Hk Hin).
      * exists rs. split; [|done]. by apply entries_set_other.
    + intros Hs. apply lookup_lt_Some in Hs as Hlen.
      rewrite length_app in Hlen; simpl in Hlen.
      assert (r = length (objects (endCurrentSession st))) as -> by lia.
      rewrite list_lookup_middle in Hs by done. injection Hs as <-. simpl.
      eexists. split; [apply entries_set_same|].
      apply elem_of_app. right. left.
Qed.

Lemma step_filed (st : SessionState) (o : Op) : filed st → filed (step st o).
Proof.
  intros Hf. destruct o; simpl.
  - by apply startSession_filed.
  - by apply continueSession_filed.
  - by apply endCurrentSession_filed.
  - by apply setDocumentId_filed.
Qed.

Lemma initial_filed : filed initial.
Proof.
  split; simpl.
  - apply NoDup_nil_2.
  - by intros p rs ?%elem_of_nil.
  - by intros p rs r ?%elem_of_nil.
  - by intros p rs r s ?%elem_of_nil.
  - by intros [|r] s.
Qed.

Lemma run_filed (ops : list Op) (st : SessionState) : filed st → filed (run ops st).
Proof.
  revert st. induction ops as [|o ops IH]; intros st Hf; simpl; [done|].
  by apply IH, step_filed.
Qed.

End RegistryShapeFacts.

(** ** Histories, the current session and the document cache *)

Section RegistryFacts.
Import JS SessionManager RegistryShape Samples.
Local Open Scope nat_scope.

Lemma lastSession_ext (st st' : SessionState) (p : string) :
  projectSessions st' = projectSessions st → lastSession st' p = lastSession st p.
Proof. intros H. unfold lastSession, getProjectSessions. by rewrite H. Qed.

Lemma startSession_getProjectSessions env p obj t (st : SessionState) (q : string) :
  getProjectSessions (startSession env p obj t st).2 q
  = if decide (q = p) then (getProjectSessions st p ++ [length (objects st)])%list
    else getProjectSessions st q.
Proof.
  unfold getProjectSessions at 1.
  rewrite startSession_projectSessions, entries_get_set.
  destruct (decide (p = q)) as [->|Hne].
  - by rewrite decide_True.
  - by rewrite decide_False.
Qed.

Lemma step_current (st : SessionState) (o : Op) :
  filed st → current_is_last st → current_is_last (step st o).
Proof.
  intros Hf Hcur. destruct o as [env p obj t|p now| |sid did]; cbn [step].
  - intros r Hr.
    assert (r = length (objects st)) as ->.
    { unfold startSession in Hr; simpl in Hr.
      rewrite endCurrentSession_length in Hr. congruence. }
    assert (∃ s, objects (startSession env p obj t st).2 !! length (objects st) = Some s
                 ∧ isActive s = true ∧ projectName s = p) as (s & Hs & Ha & Hp).
    { eexists.
      split; [unfold startSession; simpl;
              apply list_lookup_middle; symmetry;
              apply endCurrentSession_length|done]. }
    exists s. split_and!; [done|done|]. rewrite Hp. unfold lastSession.
    rewrite startSession_getProjectSessions, decide_True by done.
    apply last_snoc.
  - assert (current_is_last (continueCurrent now st).2) as Hfall.
    { destruct (continueCurrent_state now st) as [->| ->]; [done|].
      intros r. by rewrite endCurrentSession_currentSession. }
    unfold continueSession.
    destruct p as [p|]; [|done].
    destruct (truthy p); [|done].
    destruct (lastSession st p) as [r|] eqn:Hl; [|done].
    destruct (objects st !! r) as [lastS|] eqn:Hs; [|done].
    case_decide; [|done]. simpl.
    intros r' [= <-]. simpl.
    pose proof (endCurrentSession_objects_projectName st r) as Hn.
    rewrite Hs in Hn.
    destruct (objects (endCurrentSession st) !! r) as [s1|] eqn:Hs1; [|done].
    simpl in Hn. injection Hn as Hn.
    exists (set_isActive true s1). rewrite list_lookup_alter_eq, Hs1.
    split_and!; [done|done|]. simpl. rewrite Hn.
    destruct (lastSession_elem st p r Hl) as (rs & Hin & Hr).
    rewrite (history_owns st Hf p rs r lastS Hin Hr Hs).
    rewrite <- Hl. apply lastSession_ext. simpl.
    apply endCurrentSession_projectSessions.
  - intros r. by rewrite endCurrentSession_currentSession.
  - intros r. rewrite setDocumentId_currentSession. intros Hr.
    destruct (Hcur r Hr) as (s & Hs & Ha & Hl).
    unfold setDocumentId.
    destruct (locate (objects st) sid (projectSessions st)) as [[q r']|] eqn:E;
      [|by exists s].
    simpl. rewrite list_lookup_alter. case_decide as Er.
    + subst r'. rewrite Hs. simpl. eexists. by split_and!.
    + by exists s.
Qed.

Lemma run_current (ops : list Op) (st : SessionState) :
  filed st → current_is_last st → current_is_last (run ops st).
Proof.
  revert st. induction ops as [|o ops IH]; intros st Hf Hc; simpl; [done|].
  apply IH; [by apply step_filed|by apply step_current].
Qed.

Lemma step_projectSessions (st : SessionState) (o : Op) :
  (∀ env p obj t, o ≠ Start env p obj t) →
  projectSessions (step st o) = projectSessions st.
Proof.
  intros Hne. destruct o as [env p obj t|p now| |sid did]; simpl.
  - by destruct (Hne env p obj t).
  - apply continueSession_projectSessions.
  - apply endCurrentSession_projectSessions.
  - apply setDocumentId_projectSessions.
Qed.

Lemma alter_created (f : Session → Session) (l : list Session) (i r : nat) (s : Session) :
  (∀ x, created (f x) = created x) →
  l !! r = Some s →
  ∃ s', alter f i l !! r = Some s' ∧ created s' = created s.
Proof.
  intros Hf Hs. rewrite list_lookup_alter. case_decide as E; [subst r|by exists s].
  rewrite Hs. simpl. by eexists.
Qed.

Lemma endCurrentSession_created (st : SessionState) (r : ref) (s : Session) :
  objects st !! r = Some s →
  ∃ s', objects (endCurrentSession st) !! r = Some s' ∧ created s' = created s.
Proof.
  intros Hs. unfold endCurrentSession.
  destruct (currentSession st); simpl; [|by exists s].
  by apply alter_created.
Qed.

Lemma step_created (st : SessionState) (o : Op) (r : ref) (s : Session) :
  objects st !! r = Some s →
  ∃ s', objects (step st o) !! r = Some s' ∧ created s' = created s.
Proof.
  intros Hs. destruct o as [env p obj t|p now| |sid did]; simpl.
  - destruct (endCurrentSession_created st r s Hs) as (s' & Hs' & Hc).
    exists s'. split; [|done]. unfold startSession; simpl.
    rewrite lookup_app_l; [done|]. by apply lookup_lt_Some in Hs'.
  - assert (∃ s', objects (continueCurrent now st).2 !! r = Some s'
                  ∧ created s' = created s) as Hfall.
    { destruct (continueCurrent_state now st) as [->| ->]; [by exists s|].
      by apply endCurrentSession_created. }
    unfold continueSession.
    destruct p as [p|]; [|done].
    destruct (truthy p); [|done].
    destruct (lastSession st p) as [r'|]; [|done].
    destruct (objects st !! r'); [|by exists s].
    case_decide; [|by exists s]. simpl.
    destruct (endCurrentSession_created st r s Hs) as (s1 & Hs1 & Hc1).
    destruct (alter_created (set_isActive true) _ r' r s1 ltac:(done) Hs1)
      as (s2 & Hs2 & Hc2).
    exists s2. split; [done|congruence].
  - by apply endCurrentSession_created.
  - unfold setDocumentId.
    destruct (locate (objects st) sid (projectSessions st)) as [[q r']|];
      [|by exists s].
    simpl. by apply alter_created.
Qed.

Lemma step_prefix (st : SessionState) (o : Op) (p : string) :
  getProjectSessions st p `prefix_of` getProjectSessions (step st o) p.
Proof.
  destruct o as [env q obj t|q now| |sid did].
  - cbn [step]. rewrite startSession_getProjectSessions.
    case_decide as E; [subst q; by eexists|done].
  - unfold getProjectSessions. rewrite step_projectSessions; done.
  - unfold getProjectSessions. rewrite step_projectSessions; done.
  - unfold getProjectSessions. rewrite step_projectSessions; done.
Qed.

(** X4.  Whatever operations run, a history only grows at its end and a
    session keeps the fields it was created with: its id, project, document
    name, start time, objective, template and previous session id.  Only
    [isActive] and [documentId] are ever rewritten. *)
Theorem history_append_only (ops : list Op) (st : SessionState) :
  (∀ p, getProjectSessions st p `prefix_of` getProjectSessions (run ops st) p)
  ∧ (∀ r s, objects st !! r = Some s →
            ∃ s', objects (run ops st) !! r = Some s' ∧ created s' = created s).
Proof.
  revert st. induction ops as [|o ops IH]; intros st; simpl.
  - split; [done|]. intros r s Hs. by exists s.
  - destruct (IH (step st o)) as [IHp IHo]. split.
    + intros p. etrans; [apply (step_prefix st o)|apply IHp].
    + intros r s Hs.
      destruct (step_created st o r s Hs) as (s1 & Hs1 & Hc1).
      destruct (IHo r s1 Hs1) as (s2 & Hs2 & Hc2).
      exists s2. split; [done|congruence].
Qed.

Lemma history_append_only_witness :
  ∃ s', objects (run [End; Start envBlog "Blog" "Write post" "adr";
                      AttachDocument "session-2025-01-15T09-00-00-k3x9a1" "doc-9"]
                   cartAttached) !! 0 = Some s'
        ∧ created s'
          = ("session-2025-01-15T09-00-00-k3x9a1", "Cart",
             "session-cart-2025-01-15-ada-lovelace", (jan15 + 32400000)%Z,
             "Add wishlist", "project_log", None).
Proof.
  destruct (history_append_only
              [End; Start envBlog "Blog" "Write post" "adr";
               AttachDocument "session-2025-01-15T09-00-00-k3x9a1" "doc-9"]
              cartAttached) as [_ H].
  exact (H 0 (mkSession "session-2025-01-15T09-00-00-k3x9a1" "Cart" "doc-1"
                "session-cart-2025-01-15-ada-lovelace" (jan15 + 32400000)
                "Add wishlist" "project_log" None true) eq_refl).
Defined.

(** X5.  [startSession] files the new session at the end of the history of
    its project and leaves the other histories alone.  The session takes
    the cached document id of the project, or the empty string when there
    is none, and the given clock as start time; its previous session id is
    the id of the session that was last in that history, and is absent
    exactly when the history was empty. *)
Theorem startSession_history (ops : list Op) env (p obj t : string) :
  let st := run ops initial in
  let r := (startSession env p obj t st).1 in
  let st' := (startSession env p obj t st).2 in
  r = length (objects st)
  ∧ (∀ q, getProjectSessions st' q
          = if decide (q = p) then (getProjectSessions st p ++ [r])%list
            else getProjectSessions st q)
  ∧ ∃ s, objects st' !! r = Some s
         ∧ documentId s = or_else (todaysDocuments st !! p) ""
         ∧ startTime s = env_now env
         ∧ template s = t
         ∧ (previousSessionId s = None ↔ getProjectSessions st p = [])
         ∧ (∀ r0 s0, lastSession st p = Some r0 → objects st !! r0 = Some s0 →
                     previousSessionId s = Some (id s0)).
Proof.
  cbv zeta. set (st := run ops initial).
  split; [unfold startSession; simpl; apply endCurrentSession_length|].
  split.
  { intros q. rewrite startSession_getProjectSessions.
    unfold startSession; simpl. by rewrite endCurrentSession_length. }
  eexists. split; [unfold startSession; simpl; by apply list_lookup_middle|].
  simpl. split_and!; try done.
  - fold (lastSession st p).
    destruct (lastSession st p) as [r0|] eqn:Hl; simpl.
    + destruct (proj2 (run_resolve ops) p r0 Hl) as [s0 Hs0].
      fold st in Hs0. rewrite Hs0. simpl. split; [done|].
      intros Hnil. unfold lastSession in Hl. by rewrite Hnil in Hl.
    + split; [|done]. intros _. unfold lastSession in Hl.
      by apply last_None in Hl.
  - intros r0 s0 Hl Hs0. fold (lastSession st p). rewrite Hl. simpl. by rewrite Hs0.
Qed.

Lemma startSession_history_witness :
  previousSessionId
  <$> objects (startSession envBlog "Cart" "Fix bug" "project_log" cartStarted).2 !! 1
  = Some (Some "session-2025-01-15T09-00-00-k3x9a1").
Proof.
  destruct (startSession_history [Start envCart "Cart" "Add wishlist" "project_log"]
              envBlog "Cart" "Fix bug" "project_log")
    as (Hr & _ & s & Hs & _ & _ & _ & _ & Hprev).
  unfold cartStarted. change (run _ initial)
    with (startSession envCart "Cart" "Add wishlist" "project_log" initial).2 in *.
  rewrite Hr in Hs. change (length _) with 1 in Hs. rewrite Hs. simpl. f_equal.
  exact (Hprev 0
           (mkSession "session-2025-01-15T09-00-00-k3x9a1" "Cart" ""
              "session-cart-2025-01-15-ada-lovelace" (jan15 + 32400000)
              "Add wishlist" "project_log" None true) eq_refl eq_refl).
Defined.

(** X6.  In every registry reached from the new one, the history of a
    project lists exactly the sessions whose [projectName] is that
    project. *)
Theorem history_lists_project (ops : list Op) (p : string) (r : ref) :
  let st := run ops initial in
  r ∈ getProjectSessions st p
  ↔ ∃ s, objects st !! r = Some s ∧ projectName s = p.
Proof.
  cbv zeta. pose proof (run_filed ops initial initial_filed) as Hf.
  set (st := run ops initial) in *. split.
  - intros (rs & Hin & Hr)%getProjectSessions_elem.
    destruct (history_resolves st Hf p rs r Hin Hr) as [s Hs].
    exists s. split; [done|]. by apply (history_owns st Hf p rs r).
  - intros (s & Hs & <-).
    destruct (all_listed st Hf r s Hs) as (rs & Hin & Hr).
    unfold getProjectSessions.
    by rewrite (entries_elem_get _ rs _ (keys_unique st Hf) Hin).
Qed.

(** X7.  In every registry reached from the new one, the current session,
    when there is one, is an existing session whose flag is set and which is
    the most recent session of its project. *)
Theorem current_session_is_last (ops : list Op) (r : ref) :
  let st := run ops initial in
  currentSession st = Some r →
  ∃ s, objects st !! r = Some s
       ∧ isActive s = true
       ∧ lastSession st (projectName s) = Some r.
Proof.
  cbv zeta. apply (run_current ops initial initial_filed). by intros r'.
Qed.

Lemma current_session_is_last_witness :
  ∃ s, objects cartAttached !! 0 = Some s
       ∧ isActive s = true
       ∧ lastSession cartAttached (projectName s) = Some 0.
Proof.
  exact (current_session_is_last
           [Start envCart "Cart" "Add wishlist" "project_log";
            AttachDocument "session-2025-01-15T09-00-00-k3x9a1" "doc-1"]
           0 eq_refl).
Defined.

(** X8.  In every registry reached from the new one, [getAllProjects] names
    no project twice, and it names exactly the projects that have a
    session. *)
Theorem getAllProjects_exact (ops : list Op) (p : string) :
  let st := run ops initial in
  NoDup (getAllProjects st)
  ∧ (p ∈ getAllProjects st ↔ getProjectSessions st p ≠ []).
Proof.
  cbv zeta. pose proof (run_filed ops initial initial_filed) as Hf.
  set (st := run ops initial) in *.
  split; [apply (keys_unique st Hf)|].
  unfold getAllProjects, getProjectSessions. rewrite entries_keys_get. split.
  - intros [rs Hrs]. rewrite Hrs. simpl.
    apply (histories_nonempty st Hf p). by apply entries_get_elem.
  - destruct (entries_get p (projectSessions st)); [by eexists|done].
Qed.

End RegistryFacts.

(** ** Attaching a document, and resuming an ended session *)

Section AttachFacts.
Import JS SessionManager RegistryShape Samples.
Local Open Scope nat_scope.

Lemma find_by_id_Some (objs : list Session) (sid : string) (rs : list ref) (r : ref) :
  find_by_id objs sid rs = Some r →
  r ∈ rs ∧ ∃ s, objs !! r = Some s ∧ id s = sid.
Proof.
  induction rs as [|r0 rs IH]; simpl; [done|].
  destruct (objs !! r0) as [s0|] eqn:Hs0.
  - case_decide as E.
    + intros [= <-]. split; [left|by exists s0].
    + intros [Hr Hs]%IH. split; [by right|done].
  - intros [Hr Hs]%IH. split; [by right|done].
Qed.

Lemma find_by_id_None (objs : list Session) (sid : string) (rs : list ref) :
  find_by_id objs sid rs = None →
  ∀ r s, r ∈ rs → objs !! r = Some s → id s ≠ sid.
Proof.
  induction rs as [|r0 rs IH]; simpl; [by intros _ r s ?%elem_of_nil|].
  intros Hf r s [->|Hr]%elem_of_cons Hs.
  - rewrite Hs in Hf. by case_decide.
  - destruct (objs !! r0); [case_decide; [done|]|]; by apply (IH Hf r s).
Qed.

Lemma locate_Some (objs : list Session) (sid : string)
    (entries : list (string * list ref)) (p : string) (r : ref) :
  locate objs sid entries = Some (p, r) →
  ∃ rs s, (p, rs) ∈ entries ∧ r ∈ rs ∧ objs !! r = Some s ∧ id s = sid.
Proof.
  induction entries as [|[q rs] entries IH]; simpl; [done|].
  destruct (find_by_id objs sid rs) as [r0|] eqn:Hf.
  - intros [= <- <-]. apply find_by_id_Some in Hf as (Hr & s & Hs & Hid).
    exists rs, s. split_and!; [left|done..].
  - intros (rs' & s & Hin & H)%IH. exists rs', s. split; [by right|done].
Qed.

Lemma locate_None (objs : list Session) (sid : string)
    (entries : list (string * list ref)) :
  locate objs sid entries = None →
  ∀ p rs r s, (p, rs) ∈ entries → r ∈ rs → objs !! r = Some s → id s ≠ sid.
Proof.
  induction entries as [|[q rs0] entries IH]; simpl;
    [by intros _ p rs r s ?%elem_of_nil|].
  destruct (find_by_id objs sid rs0) as [r0|] eqn:Hf; [done|].
  intros Hl p rs r s [Heq|Hin]%elem_of_cons Hr Hs.
  - injection Heq as -> ->. by apply (find_by_id_None objs sid rs0 Hf r s).
  - by apply (IH Hl p rs r s).
Qed.

Lemma locate_no_such_id (objs : list Session) (sid : string)
    (entries : list (string * list ref)) :
  (∀ r s, objs !! r = Some s → id s ≠ sid) → locate objs sid entries = None.
Proof.
  intros Hno. destruct (locate objs sid entries) as [[p r]|] eqn:E; [|done].
  apply locate_Some in E as (rs & s & _ & _ & Hs & Hid).
  by destruct (Hno r s Hs).
Qed.

(** X9.  [setDocumentId] with an id that no session has does nothing: no
    session is changed and nothing is cached. *)
Theorem setDocumentId_unknown (sessionId documentId : string) (st : SessionState) :
  (∀ r s, objects st !! r = Some s → id s ≠ sessionId) →
  setDocumentId sessionId documentId st = st.
Proof.
  intros Hno. unfold setDocumentId.
  by rewrite (locate_no_such_id _ _ _ Hno).
Qed.

Lemma setDocumentId_unknown_witness :
  setDocumentId "session-2025-01-15T09-00-00-zzzzzz" "doc-7" cartAttached = cartAttached.
Proof.
  apply setDocumentId_unknown.
  intros [|r] s; simpl; [|done]. intros [= <-]. discriminate.
Defined.

(** X10.  In a registry reached from the new one, take a session whose id
    no other session has.  [setDocumentId] with that id writes the document
    id into that session and into no other, and caches it under the project
    of the session: [getTodaysDocumentId] then returns it and
    [needsNewDocument] is false, unless the id is the empty string, which
    reads as no document.  The next [startSession] for the project gives its
    session this document id. *)
Theorem setDocumentId_then_lookup (ops : list Op) (r : ref) (s : Session)
    (documentId : string) :
  let st := run ops initial in
  let st' := setDocumentId (id s) documentId st in
  objects st !! r = Some s →
  (∀ r' s', objects st !! r' = Some s' → id s' = id s → r' = r) →
  objects st' !! r = Some (set_documentId documentId s)
  ∧ (∀ r', r' ≠ r → objects st' !! r' = objects st !! r')
  ∧ getTodaysDocumentId st' (projectName s)
    = (if truthy documentId then Some documentId else None)
  ∧ needsNewDocument st' (projectName s) = negb (truthy documentId)
  ∧ (∀ env obj t,
       SessionManager.documentId
       <$> objects (startSession env (projectName s) obj t st').2
           !! (startSession env (projectName s) obj t st').1
       = Some documentId).
Proof.
  cbv zeta. intros Hs Huniq.
  pose proof (run_filed ops initial initial_filed) as Hf.
  set (st := run ops initial) in *.
  destruct (all_listed st Hf r s Hs) as (rs & Hin & Hr).
  destruct (locate (objects st) (id s) (projectSessions st)) as [[p r0]|] eqn:El.
  2:{ by destruct (locate_None _ _ _ El (projectName s) rs r s Hin Hr Hs). }
  pose proof El as (rs0 & s0 & Hin0 & Hr0 & Hs0 & Hid0)%locate_Some.
  assert (r0 = r) as -> by (by apply (Huniq r0 s0)).
  assert (s0 = s) as -> by congruence.
  assert (p = projectName s) as -> by (symmetry; by apply (history_owns st Hf p rs0 r s)).
  assert (todaysDocuments (setDocumentId (id s) documentId st) !! projectName s
          = Some documentId) as Hdoc.
  { unfold setDocumentId. rewrite El. simpl. apply lookup_insert_eq. }
  split_and!.
  - unfold setDocumentId. rewrite El. simpl. by rewrite list_lookup_alter_eq, Hs.
  - intros r' Hne. unfold setDocumentId. rewrite El. simpl.
    by rewrite list_lookup_alter_ne.
  - unfold getTodaysDocumentId. by rewrite Hdoc.
  - unfold needsNewDocument. by rewrite Hdoc.
  - intros env obj t. unfold startSession; simpl.
    rewrite list_lookup_middle by done. simpl. rewrite Hdoc. simpl.
    by destruct documentId.
Qed.

Lemma setDocumentId_then_lookup_witness :
  getTodaysDocumentId
    (setDocumentId "session-2025-01-15T09-00-00-k3x9a1" "doc-1" cartStarted) "Cart"
  = Some "doc-1".
Proof.
  destruct (setDocumentId_then_lookup
              [Start envCart "Cart" "Add wishlist" "project_log"] 0
              (mkSession "session-2025-01-15T09-00-00-k3x9a1" "Cart" ""
                 "session-cart-2025-01-15-ada-lovelace" (jan15 + 32400000)
                 "Add wishlist" "project_log" None true)
              "doc-1" eq_refl) as (_ & _ & H & _).
  - intros [|r'] s'; [done|]. by destruct r'.
  - exact H.
Defined.

Lemma list_alter_fixed {A} (f : A → A) (l : list A) (i : nat) (x : A) :
  l !! i = Some x → f x = x → alter f i l = l.
Proof.
  intros Hx Hf. rewrite (list_alter_ext f (λ y, y) l l i); [|congruence|done].
  by apply list_alter_id.
Qed.

(** X11.  In a registry reached from the new one, ending the current
    session and then continuing its project on the day the session started
    returns that session and restores the state the registry had before the
    end.  Continuing without a project after the end returns nothing. *)
Theorem end_then_continue (ops : list Op) (r : ref) (s : Session) (now : Z) :
  let st := run ops initial in
  currentSession st = Some r →
  objects st !! r = Some s →
  projectName s ≠ "" →
  utcDay (startTime s) = utcDay now →
  continueSession (Some (projectName s)) now (endCurrentSession st) = (Some r, st)
  ∧ continueSession None now (endCurrentSession st) = (None, endCurrentSession st).
Proof.
  cbv zeta. intros Hc Hs Hp Hday.
  destruct (current_session_is_last ops r Hc) as (s' & Hs' & Ha & Hl).
  set (st := run ops initial) in *.
  assert (s' = s) as -> by congruence.
  split.
  - unfold continueSession.
    rewrite (truthy_nonempty _ Hp).
    rewrite (lastSession_ext st (endCurrentSession st))
      by apply endCurrentSession_projectSessions.
    rewrite Hl, (endCurrentSession_current st r s Hc Hs). simpl.
    rewrite decide_True by done. f_equal.
    unfold endCurrentSession at 1.
    rewrite endCurrentSession_currentSession.
    unfold endCurrentSession. rewrite Hc. simpl.
    destruct st as [objs cur hist docs]; simpl in *. subst cur. f_equal.
    rewrite list_alter_alter_eq.
    apply (list_alter_fixed _ _ _ s); [done|].
    destruct s; simpl in *. by rewrite Ha.
  - unfold continueSession, continueCurrent.
    by rewrite endCurrentSession_currentSession.
Qed.

Lemma end_then_continue_witness :
  continueSession (Some "Cart") (jan15 + 80000000) (endCurrentSession cartAttached)
  = (Some 0, cartAttached).
Proof.
  destruct (end_then_continue
              [Start envCart "Cart" "Add wishlist" "project_log";
               AttachDocument "session-2025-01-15T09-00-00-k3x9a1" "doc-1"]
              0
              (mkSession "session-2025-01-15T09-00-00-k3x9a1" "Cart" "doc-1"
                 "session-cart-2025-01-15-ada-lovelace" (jan15 + 32400000)
                 "Add wishlist" "project_log" None true)
              (jan15 + 80000000) eq_refl eq_refl ltac:(discriminate) eq_refl)
    as [H _].
  exact H.
Defined.

End AttachFacts.

(** ** More on the token lifecycle *)

Section GoogleAuthMoreFacts.
Import JS Schemas GoogleAuth Samples AuthSamples.

(** X12.  When [isAuthenticated] answers true, [getAuthenticatedClient]
    returns and leaves everything as it was: the credentials, the token
    file and the list of requests sent. *)
Theorem authenticated_client_untouched (w : World) (st : AuthState) :
  isAuthenticated (now w) st = true →
  getAuthenticatedClient w st = (Ok (), st).
Proof.
  unfold isAuthenticated, getAuthenticatedClient, mbind, M_bind, get.
  destruct (oauth2Client st) as [creds|]; [|done].
  intros [Ha He%negb_true_iff]%andb_true_iff. by rewrite Ha, He.
Qed.

Lemma authenticated_client_untouched_witness :
  getAuthenticatedClient (mkWorld 1736899500000 None false) liveState
  = (Ok (), liveState).
Proof. apply authenticated_client_untouched. reflexivity. Defined.

(** X13.  With an access token that has expired, a refresh token, an
    endpoint that grants a token set and a writable disk,
    [getAuthenticatedClient] returns after one refresh request.  The new
    credentials of the client and the new content of the token file are the
    same token set: what the endpoint granted, with the refresh token that
    was sent carried over by the library, as the schema returns it.  So the
    client keeps its refresh token, whether or not the endpoint names one. *)
Theorem expired_client_refreshes_once (w : World) (st : AuthState)
    (creds granted : TokenData) (t : string) :
  oauth2Client st = Some creds →
  truthy_opt (access_token creds) = true →
  isTokenExpired (now w) creds = true →
  or_undefined (refresh_token creds) = Some t →
  remote w = Some (JObject granted) →
  diskWritable w = true →
  let v := transform (carry_refresh_token creds granted) in
  getAuthenticatedClient w st
  = (Ok (), mkAuth (Some v) (credentials st) (credentialsFile st) (Some (JObject v))
                   (requests st ++ [RefreshRequest t])%list)
  ∧ refresh_token v = Some t
  ∧ access_token v = Some (or_else (access_token granted) "")
  ∧ expiry_date v = (if truthy_num (expiry_date granted) then expiry_date granted
                     else None).
Proof.
  intros Hc Ha He Hr Hw Hd. cbv zeta. split_and!; [|done|done|done].
  unfold getAuthenticatedClient, mbind, M_bind, get. rewrite Hc, Ha, He. simpl.
  by rewrite refreshTokens_paths, Hc, Hr, Hw, Hd.
Qed.

Lemma expired_client_refreshes_once_witness :
  let v := mkTokenData (Some "ya29.new") (Some "1//0g") (Some "") (Some "Bearer")
                       (Some 1736906400000%Z) None in
  getAuthenticatedClient
    (mkWorld 1736899500000 (Some (JObject grantedTokens)) true) staleState
  = (Ok (),
     mkAuth (Some v) (Some installedApp) (Some (Flat installedApp))
            (Some (JObject v)) [RefreshRequest "1//0g"]).
Proof.
  cbv zeta.
  destruct (expired_client_refreshes_once
              (mkWorld 1736899500000 (Some (JObject grantedTokens)) true) staleState
              staleTokens grantedTokens "1//0g"
              eq_refl eq_refl eq_refl eq_refl eq_refl eq_refl) as (H & _).
  exact H.
Defined.

(** [handleAuthCode], path by path. *)
Lemma handleAuthCode_paths (w : World) (code : string) (st : AuthState) :
  handleAuthCode w code st =
  match oauth2Client st with
  | None => (Err ClientNotInitialized, st)
  | Some _ =>
      if truthy code then
        match remote w with
        | None => (Err ExchangeFailed, sent (TokenRequest code) st)
        | Some tokens =>
            match TokenDataSchema_parse tokens with
            | None => (Err InvalidCodeFormat, sent (TokenRequest code) st)
            | Some v =>
                if diskWritable w
                then (Ok (), mkAuth (Some v) (credentials st) (credentialsFile st)
                                    (Some (JObject v))
                                    (requests st ++ [TokenRequest code])%list)
                else (Err ExchangeFailed,
                      mkAuth (Some v) (credentials st) (credentialsFile st)
                             (tokenFile st)
                             (requests st ++ [TokenRequest code])%list)
            end
        end
      else (Err InvalidCodeFormat, st)
  end.
Proof.
  unfold handleAuthCode, mbind, M_bind, get.
  destruct (oauth2Client st) as [client|] eqn:Hc; [|done].
  unfold try_catch, AuthCodeSchema_parse.
  destruct (truthy code); [|done].
  unfold mbind, M_bind, send; simpl.
  destruct (remote w) as [tokens|]; [|done].
  unfold mbind, M_bind, parseTokens.
  destruct (TokenDataSchema_parse tokens) as [v|] eqn:Hp; [|done].
  unfold mret, M_ret, setCredentials; simpl.
  unfold saveTokens, try_catch, mbind, M_bind, parseTokens.
  rewrite (parse_validated _ _ Hp).
  unfold mret, M_ret, writeTokenFile; simpl.
  by destruct (diskWritable w).
Qed.

(** X14.  [handleAuthCode] rejects an empty code with 'Invalid
    authorization code format' before anything is sent, and a call on a
    client that was never built with 'OAuth2 client not initialized'; in
    both cases the state is untouched. *)
Theorem handleAuthCode_rejects_early (w : World) (code : string) (st : AuthState) :
  (oauth2Client st = None →
     handleAuthCode w code st = (Err ClientNotInitialized, st))
  ∧ (is_Some (oauth2Client st) →
     handleAuthCode w "" st = (Err InvalidCodeFormat, st)).
Proof.
  rewrite !handleAuthCode_paths. split.
  - by intros ->.
  - by intros [c ->].
Qed.

Lemma handleAuthCode_rejects_early_witness :
  handleAuthCode (mkWorld 1736899500000 (Some (JObject grantedTokens)) true) ""
    staleState
  = (Err InvalidCodeFormat, staleState)
  ∧ handleAuthCode (mkWorld 1736899500000 (Some (JObject grantedTokens)) true) "4/0Ab"
      freshInstall
    = (Err ClientNotInitialized, freshInstall).
Proof.
  split.
  - apply (proj2 (handleAuthCode_rejects_early _ "" staleState)). by eexists.
  - by apply (proj1 (handleAuthCode_rejects_early _ "4/0Ab" freshInstall)).
Defined.

(** X15.  With a client and a non-empty code, [handleAuthCode] sends one
    token request carrying the code.  If the endpoint refuses, it throws
    'Failed to exchange auth code' and the credentials and the token file
    stay as they were.  If the endpoint answers with something the token
    schema rejects, the error is 'Invalid authorization code format', again
    with credentials and file unchanged.  It returns only when the answer
    was validated, and then the validated token set is both the credentials
    of the client and the content of the token file. *)
Theorem handleAuthCode_exchange (w : World) (code : string) (st : AuthState) :
  is_Some (oauth2Client st) →
  code ≠ "" →
  let out := (handleAuthCode w code st).1 in
  let st' := (handleAuthCode w code st).2 in
  requests st' = (requests st ++ [TokenRequest code])%list
  ∧ (remote w = None →
     out = Err ExchangeFailed
     ∧ oauth2Client st' = oauth2Client st ∧ tokenFile st' = tokenFile st)
  ∧ (∀ answer, remote w = Some answer → TokenDataSchema_parse answer = None →
     out = Err InvalidCodeFormat
     ∧ oauth2Client st' = oauth2Client st ∧ tokenFile st' = tokenFile st)
  ∧ (out = Ok () →
     ∃ answer v, remote w = Some answer
                 ∧ TokenDataSchema_parse answer = Some v
                 ∧ oauth2Client st' = Some v
                 ∧ tokenFile st' = Some (JObject v)).
Proof.
  intros [c Hc] Hcode. cbv zeta. rewrite handleAuthCode_paths, Hc.
  rewrite (truthy_nonempty code Hcode).
  destruct (remote w) as [answer|] eqn:Hw.
  2:{ simpl. by split_and!. }
  destruct (TokenDataSchema_parse answer) as [v|] eqn:Hp.
  2:{ simpl. by split_and!. }
  destruct (diskWritable w); simpl.
  - split_and!; try done.
    + intros a [= <-]. congruence.
    + intros _. by exists answer, v.
  - split_and!; try done. intros a [= <-]. congruence.
Qed.

Lemma handleAuthCode_exchange_witness :
  let w := mkWorld 1736899500000 (Some JOther) true in
  (handleAuthCode w "4/0Ab" staleState).1 = Err InvalidCodeFormat
  ∧ requests (handleAuthCode w "4/0Ab" staleState).2 = [TokenRequest "4/0Ab"]
  ∧ oauth2Client (handleAuthCode w "4/0Ab" staleState).2 = Some staleTokens.
Proof.
  cbv zeta.
  destruct (handleAuthCode_exchange (mkWorld 1736899500000 (Some JOther) true)
              "4/0Ab" staleState ltac:(by eexists) ltac:(discriminate))
    as (Hreq & _ & Hbad & _).
  destruct (Hbad JOther eq_refl eq_refl) as (Hout & Hcl & _).
  split_and!; [exact Hout|exact Hreq|exact Hcl].
Defined.

(** X16.  [clearTokens] never throws and touches neither the credentials
    file nor the list of requests.  When the token file is there and can be
    removed, it is removed and the credentials of the client are emptied,
    so that [isAuthenticated] is false afterwards.  When there is no file,
    or the file cannot be removed, the state is untouched: the file, if
    any, stays, and so do the credentials in memory. *)
Theorem clearTokens_outcome (removable : bool) (st : AuthState) (now : Z) :
  let st' := (clearTokens removable st).2 in
  (clearTokens removable st).1 = Ok ()
  ∧ requests st' = requests st
  ∧ credentials st' = credentials st
  ∧ credentialsFile st' = credentialsFile st
  ∧ (is_Some (tokenFile st) → removable = true →
     tokenFile st' = None
     ∧ oauth2Client st' = (λ _, noTokens) <$> oauth2Client st
     ∧ isAuthenticated now st' = false)
  ∧ (tokenFile st = None ∨ removable = false → st' = st).
Proof.
  cbv zeta. unfold clearTokens, try_catch, mbind, M_bind, unlinkTokenFile, get.
  destruct (tokenFile st) as [j|] eqn:Hf; simpl.
  - destruct removable; simpl.
    + destruct (oauth2Client st) as [c|] eqn:Hc; simpl.
      * split_and!; try done. by intros [|].
      * split_and!; try done. by intros [|].
    + by split_and!.
  - by split_and!.
Qed.

Lemma clearTokens_outcome_witness :
  isAuthenticated 1736899500000 liveState = true
  ∧ isAuthenticated 1736899500000 (clearTokens true liveState).2 = false
  ∧ (clearTokens false liveState).2 = liveState.
Proof.
  split; [reflexivity|].
  destruct (clearTokens_outcome true liveState 1736899500000)
    as (_ & _ & _ & _ & Hcleared & _).
  destruct (clearTokens_outcome false liveState 1736899500000)
    as (_ & _ & _ & _ & _ & Hkept).
  split.
  - apply Hcleared; [by eexists|reflexivity].
  - apply Hkept. by right.
Defined.

End GoogleAuthMoreFacts.

(** ** Starting up *)

Section StartupFacts.
Import JS Schemas GoogleAuth Samples AuthSamples Startup.

(** [initialize], path by path. *)
Lemma initialize_paths (w : World) (st : AuthState) :
  initialize w st =
  match accepted (credentialsFile st) with
  | None => (Err InitFailed, st)
  | Some c =>
      match tokenFile st ≫= TokenDataSchema_parse with
      | None => (Ok (), built c noTokens st)
      | Some v =>
          if isTokenExpired (now w) v
          then (Ok (), (refreshTokens w (built c v st)).2)
          else (Ok (), built c v st)
      end
  end.
Proof.
  unfold initialize, try_catch, mbind, M_bind, get.
  assert (∀ c, (let (o, st') := (newClient c;; loadTokens w) st in
                match o with
                | Ok a => (Ok a, st')
                | Err _ => throw InitFailed st'
                end)
               = match tokenFile st ≫= TokenDataSchema_parse with
                 | None => (Ok (), built c noTokens st)
                 | Some v =>
                     if isTokenExpired (now w) v
                     then (Ok (), (refreshTokens w (built c v st)).2)
                     else (Ok (), built c v st)
                 end) as Hbuilt.
  { intros c. unfold mbind, M_bind, newClient, loadTokens, try_catch, mbind, M_bind, get.
    unfold built.
    cbn. destruct (tokenFile st) as [j|] eqn:Hf; cbn; [|done].
    unfold parseTokens. destruct (TokenDataSchema_parse j) as [v|]; cbn; [|done].
    destruct (isTokenExpired (now w) v); cbn; [|done].
    by destruct (refreshTokens w _) as [[[]|e] st']. }
  destruct (credentialsFile st) as [[c|c|]|]; simpl; try done; apply Hbuilt.
Qed.

(** X17.  [initialize] depends on the credentials file alone for its
    outcome.  With an accepted file, in either layout, it returns, whatever
    the token file holds and whatever the endpoint answers: a missing or
    invalid token file, or a refresh that fails, is not reported.  With a
    missing or rejected credentials file it throws 'Failed to initialize
    Google Auth' and leaves the state as it was. *)
Theorem initialize_outcome (w : World) (st : AuthState) :
  (is_Some (accepted (credentialsFile st)) →
     (initialize w st).1 = Ok ()
     ∧ is_Some (oauth2Client (initialize w st).2)
     ∧ credentials (initialize w st).2 = accepted (credentialsFile st))
  ∧ (accepted (credentialsFile st) = None →
     initialize w st = (Err InitFailed, st)).
Proof.
  rewrite initialize_paths. split.
  - intros [c ->].
    destruct (tokenFile st ≫= TokenDataSchema_parse) as [v|]; simpl; [|by eauto].
    destruct (isTokenExpired (now w) v); simpl; [|by eauto].
    split; [done|]. rewrite refreshTokens_paths. simpl.
    destruct (or_undefined (refresh_token v)); [|by eauto].
    destruct (remote w) as [[g|]|]; [|by eauto|by eauto].
    destruct (diskWritable w); by eauto.
  - by intros ->.
Qed.

Lemma initialize_outcome_witness :
  (initialize (mkWorld 1736899500000 None true) staleState).1 = Ok ()
  ∧ oauth2Client (initialize (mkWorld 1736899500000 None true) staleState).2
    = Some staleTokens
  ∧ initialize (mkWorld 1736899500000 None true)
      (mkAuth None None (Some Rejected) None [])
    = (Err InitFailed, mkAuth None None (Some Rejected) None []).
Proof.
  destruct (initialize_outcome (mkWorld 1736899500000 None true) staleState)
    as [Hok _].
  destruct (initialize_outcome (mkWorld 1736899500000 None true)
              (mkAuth None None (Some Rejected) None [])) as [_ Hbad].
  split_and!.
  - apply Hok. by eexists.
  - reflexivity.
  - by apply Hbad.
Defined.

(** X18.  What [saveTokens] wrote, [initialize] reads back: after a
    validated token set was saved, an [initialize] made before the set
    expires installs that very set as the credentials of the new client and
    sends nothing. *)
Theorem saveTokens_initialize_round_trip (w w' : World) (st : AuthState)
    (j : Json) (v : TokenData) (c : GoogleCredentials) :
  TokenDataSchema_parse j = Some v →
  diskWritable w = true →
  accepted (credentialsFile st) = Some c →
  isTokenExpired (now w') v = false →
  let saved := (saveTokens w v st).2 in
  (saveTokens w v st).1 = Ok ()
  ∧ tokenFile saved = Some (JObject v)
  ∧ initialize w' saved = (Ok (), built c v saved)
  ∧ requests (initialize w' saved).2 = requests st.
Proof.
  intros Hp Hd Hc He. cbv zeta.
  assert (saveTokens w v st
          = (Ok (), mkAuth (oauth2Client st) (credentials st) (credentialsFile st)
                           (Some (JObject v)) (requests st))) as ->.
  { unfold saveTokens, try_catch, mbind, M_bind, parseTokens.
    rewrite (parse_validated _ _ Hp).
    unfold mret, M_ret, writeTokenFile. by rewrite Hd. }
  assert (transform v = v) as Htr.
  { pose proof (parse_validated _ _ Hp) as Hv. simpl in Hv. congruence. }
  simpl. split_and!; [done|done| |].
  - rewrite initialize_paths. simpl. by rewrite Hc, Htr, He.
  - rewrite initialize_paths. simpl. by rewrite Hc, Htr, He.
Qed.

Lemma saveTokens_initialize_round_trip_witness :
  let w := mkWorld 1736899500000 None true in
  oauth2Client (initialize w (saveTokens w liveTokens freshInstall).2).2
  = Some liveTokens.
Proof.
  cbv zeta.
  destruct (saveTokens_initialize_round_trip
              (mkWorld 1736899500000 None true) (mkWorld 1736899500000 None true)
              freshInstall (JObject liveTokens) liveTokens installedApp
              eq_refl eq_refl eq_refl eq_refl) as (_ & _ & H & _).
  by rewrite H.
Defined.

(** X19.  A token set the schema returns always has an access token, a
    scope and a token type, the type being non-empty ('Bearer' unless the
    input names another); its refresh token and id token are never the
    empty string and its expiry is never 0: those inputs come out as absent.
    Validating it again returns it unchanged. *)
Theorem TokenDataSchema_output (j : Json) (v : TokenData) :
  TokenDataSchema_parse j = Some v →
  is_Some (access_token v)
  ∧ is_Some (scope v)
  ∧ truthy_opt (token_type v) = true
  ∧ refresh_token v ≠ Some ""
  ∧ id_token v ≠ Some ""
  ∧ expiry_date v ≠ Some 0%Z
  ∧ TokenDataSchema_parse (JObject v) = Some v.
Proof.
  intros Hp. split_and!.
  - destruct j as [d|]; [|done]. injection Hp as <-. by eexists.
  - destruct j as [d|]; [|done]. injection Hp as <-. by eexists.
  - destruct j as [d|]; [|done]. injection Hp as <-. simpl.
    by destruct (token_type d) as [[|a x]|].
  - destruct j as [d|]; [|done]. injection Hp as <-. simpl.
    by destruct (refresh_token d) as [[|a x]|].
  - destruct j as [d|]; [|done]. injection Hp as <-. simpl.
    by destruct (id_token d) as [[|a x]|].
  - by apply (parse_expiry_nonzero j).
  - by apply (parse_validated j).
Qed.

Lemma TokenDataSchema_output_witness :
  TokenDataSchema_parse
    (JObject (mkTokenData (Some "ya29.a0") (Some "") None (Some "") (Some 0%Z) None))
  = Some (mkTokenData (Some "ya29.a0") None (Some "") (Some "Bearer") None None)
  ∧ truthy_opt (token_type
       (mkTokenData (Some "ya29.a0") None (Some "") (Some "Bearer") None None)) = true.
Proof.
  split; [reflexivity|].
  destruct (TokenDataSchema_output
              (JObject (mkTokenData (Some "ya29.a0") (Some "") None (Some "")
                          (Some 0%Z) None))
              _ eq_refl) as (_ & _ & H & _).
  exact H.
Defined.

Lemma refreshTokens_requests (w : World) (st : AuthState) :
  requests (refreshTokens w st).2 = requests st
  ∨ ∃ t, requests (refreshTokens w st).2 = (requests st ++ [RefreshRequest t])%list
         ∧ (oauth2Client st ≫= λ c, or_undefined (refresh_token c)) = Some t.
Proof.
  rewrite refreshTokens_paths.
  destruct (oauth2Client st) as [c|]; simpl; [|by left].
  destruct (or_undefined (refresh_token c)) as [t|]; [|by left].
  right. exists t. split; [|done].
  destruct (remote w) as [[g|]|]; [|done|done].
  by destruct (diskWritable w).
Qed.

(** X20.  [initialize] sends at most one request, a refresh request, and
    only when the token file holds a token set that the schema accepts,
    that has expired and that carries a refresh token: the request carries
    that refresh token.  Otherwise the list of requests is as it was. *)
Theorem initialize_requests (w : World) (st : AuthState) :
  let st' := (initialize w st).2 in
  requests st' = requests st
  ∨ ∃ v t, tokenFile st ≫= TokenDataSchema_parse = Some v
           ∧ isTokenExpired (now w) v = true
           ∧ refresh_token v = Some t
           ∧ requests st' = (requests st ++ [RefreshRequest t])%list.
Proof.
  cbv zeta. rewrite initialize_paths.
  destruct (accepted (credentialsFile st)) as [c|]; [|by left].
  destruct (tokenFile st ≫= TokenDataSchema_parse) as [v|] eqn:Hv; [|by left].
  destruct (isTokenExpired (now w) v) eqn:He; [|by left].
  simpl. destruct (refreshTokens_requests w (built c v st)) as [H|(t & H & Ht)].
  - by left.
  - right. exists v, t. split_and!; try done.
    simpl in Ht. by destruct (refresh_token v) as [[|a x]|]; simplify_eq/=.
Qed.

End StartupFacts.

(** ** The document client *)

Section GoogleDocsClientFacts.
Import JS Schemas GoogleAuth Samples AuthSamples ClientSamples.
Import GoogleDocsClient.
Local Open Scope nat_scope.

(** [ensureAuthenticated] on a client that is not authenticated: it throws
    and leaves the client as it was. *)
Lemma ensureAuthenticated_refused (now : Z) (w : World) (st : ClientState) :
  GoogleAuth.isAuthenticated now (auth st) = false →
  ensureAuthenticated now w st
  = (Err (match oauth2Client (auth st) with
          | Some _ => AuthenticationRequired
          | None => FromAuth ClientNotInitialized
          end), st).
Proof.
  intros Hn. unfold ensureAuthenticated. rewrite Hn. simpl.
  unfold bind, onAuth, getAuthUrl.
  destruct st as [a d c]; simpl. by destruct (oauth2Client a).
Qed.

(** X21.  On a client that is not authenticated, no operation reaches the
    Docs API and none sends a token request: [createDocument],
    [getDocument], [appendContent] and [findDocumentByTitle] all throw and
    leave the client, its credentials and both lists of calls as they were.
    This holds also when the credentials have merely expired and carry a
    refresh token.  [getDocument] then throws 'Authentication required', or
    'OAuth2 client not initialized' when the OAuth2 client was never
    built. *)
Theorem unauthenticated_no_call (api : Api) (now now' : Z) (w : World)
    (st : ClientState) (title documentId content : string) (index : option Z) :
  GoogleAuth.isAuthenticated now (auth st) = false →
  (∃ e, createDocument api now w title st = (Err e, st))
  ∧ getDocument api now w documentId st
    = (Err (match oauth2Client (auth st) with
            | Some _ => AuthenticationRequired
            | None => FromAuth ClientNotInitialized
            end), st)
  ∧ (∃ e, appendContent api now now' w documentId content index st = (Err e, st))
  ∧ (∃ e, findDocumentByTitle now w title st = (Err e, st)).
Proof.
  intros Hn. pose proof (ensureAuthenticated_refused now w st Hn) as He.
  split_and!.
  - unfold createDocument, bind at 1, fromOption.
    destruct (CreateDocumentOptionsSchema_parse title); [|by eexists].
    unfold ret, bind at 1. rewrite He. by eexists.
  - unfold getDocument, bind at 1. by rewrite He.
  - unfold appendContent, bind at 1, fromOption.
    destruct (AppendContentOptionsSchema_parse documentId content index)
      as [[[i c] x]|]; [|by eexists].
    unfold ret, bind at 1. rewrite He. by eexists.
  - unfold findDocumentByTitle, bind. rewrite He. by eexists.
Qed.

Lemma unauthenticated_no_call_witness :
  getDocument apiUp 1736899500000 (mkWorld 1736899500000 (Some (JObject grantedTokens)) true)
    "doc-1" staleClient
  = (Err AuthenticationRequired, staleClient)
  ∧ refresh_token staleTokens = Some "1//0g".
Proof.
  split; [|reflexivity].
  destruct (unauthenticated_no_call apiUp 1736899500000 1736899500000
              (mkWorld 1736899500000 (Some (JObject grantedTokens)) true)
              staleClient "t" "doc-1" "text" None eq_refl) as (_ & H & _).
  exact H.
Defined.

Lemma onAuth_calls {A} (m : GoogleAuth.M A) (st : ClientState) :
  calls (onAuth m st).2 = calls st ∧ docsApi (onAuth m st).2 = docsApi st.
Proof. unfold onAuth. by destruct (m (auth st)) as [[a|e] auth']. Qed.

Lemma ensureAuthenticated_calls (now : Z) (w : World) (st : ClientState) :
  calls (ensureAuthenticated now w st).2 = calls st.
Proof.
  unfold ensureAuthenticated.
  destruct (GoogleAuth.isAuthenticated now (auth st)); simpl.
  - destruct (docsApi st); simpl; [done|].
    unfold bind. pose proof (onAuth_calls (getAuthenticatedClient w) st) as [Hc _].
    by destruct (onAuth (getAuthenticatedClient w) st) as [[a|e] st'].
  - unfold bind. pose proof (onAuth_calls getAuthUrl st) as [Hc _].
    by destruct (onAuth getAuthUrl st) as [[a|e] st'].
Qed.

(** What [ensureAuthenticated] throws is 'Authentication required' or an
    error of [GoogleAuth]. *)
Lemma ensureAuthenticated_errors (now : Z) (w : World) (st : ClientState) (e : Error) :
  (ensureAuthenticated now w st).1 = Err e →
  e = AuthenticationRequired ∨ ∃ a, e = FromAuth a.
Proof.
  unfold ensureAuthenticated.
  destruct (GoogleAuth.isAuthenticated now (auth st)); simpl.
  - destruct (docsApi st); simpl; [done|].
    unfold bind, onAuth.
    destruct (getAuthenticatedClient w (auth st)) as [[a|e'] st']; simpl; [done|].
    intros [= <-]. right. by eexists.
  - unfold bind, onAuth.
    destruct (getAuthUrl (auth st)) as [[a|e'] st']; simpl.
    + intros [= <-]. by left.
    + intros [= <-]. right. by eexists.
Qed.

(** After [ensureAuthenticated] returned, the API handle is built. *)
Lemma ensureAuthenticated_builds (now : Z) (w : World) (st : ClientState) :
  (ensureAuthenticated now w st).1 = Ok () →
  docsApi (ensureAuthenticated now w st).2 = true.
Proof.
  unfold ensureAuthenticated.
  destruct (GoogleAuth.isAuthenticated now (auth st)); simpl.
  - destruct (docsApi st) eqn:Hd; simpl; [done|].
    unfold bind. by destruct (onAuth (getAuthenticatedClient w) st) as [[a|e] st'].
  - unfold bind. by destruct (onAuth getAuthUrl st) as [[a|e] st'].
Qed.

(** X22.  [createDocument] checks the title before anything else: an empty
    title or one of more than 255 characters is thrown back as the schema's
    error with the client untouched, whether it is authenticated or not.
    When [createDocument] returns, one [Create] call with the title was
    made, and the document info has the id and the title of the API's
    answer, both non-empty. *)
Theorem createDocument_checked (api : Api) (now : Z) (w : World)
    (title : string) (st : ClientState) :
  (title = "" ∨ 255 < String.length title →
     createDocument api now w title st = (Err ZodError, st))
  ∧ (∀ info, (createDocument api now w title st).1 = Ok info →
       title ≠ "" ∧ String.length title ≤ 255
       ∧ calls (createDocument api now w title st).2 = (calls st ++ [Create title])%list
       ∧ api_create api
         = Some (mkCreated (Some (info_id info)) (Some (info_title info)))
       ∧ info_id info ≠ "" ∧ info_title info ≠ "").
Proof.
  split.
  - intros Hbad. unfold createDocument, bind at 1, fromOption.
    unfold CreateDocumentOptionsSchema_parse.
    destruct Hbad as [->|Hlen]; [done|].
    assert ((String.length title <=? 255) = false) as -> by (apply Nat.leb_gt; lia).
    by rewrite andb_false_r.
  - intros info.
    destruct (createDocument api now w title st) as [out st'] eqn:E.
    simpl. intros ->. revert E.
    unfold createDocument, bind at 1, fromOption.
    unfold CreateDocumentOptionsSchema_parse.
    destruct (truthy title) eqn:Ht; [|done].
    destruct (Nat.leb_spec (String.length title) 255) as [Hlen|Hlen]; [|done].
    simpl. unfold ret, bind at 1.
    pose proof (ensureAuthenticated_calls now w st) as Hcalls.
    destruct (ensureAuthenticated now w st) as [[[]|e] st1]; [|done].
    simpl in Hcalls. unfold bind at 1, requireApi.
    destruct (docsApi st1); [|done].
    unfold catch, bind at 1, call. unfold bind at 1, fromOption.
    destruct (api_create api) as [[[i|] [t|]]|]; simpl; try done.
    unfold bind, ret, GoogleDocumentSchema_parse; simpl.
    destruct (truthy i) eqn:Hi; simpl; [|done]. rewrite Hi. simpl.
    destruct (truthy t) eqn:Htt; simpl; [|done].
    unfold DocumentInfoSchema_parse. rewrite Hi, Htt. simpl.
    intros [= <- <-]. simpl. rewrite Hcalls.
    split_and!; try done; by intros ->.
Qed.

Lemma createDocument_checked_witness :
  createDocument apiUp 1736899500000 (mkWorld 1736899500000 None true) "" liveClient
  = (Err ZodError, liveClient)
  ∧ calls (createDocument apiUp 1736899500000 (mkWorld 1736899500000 None true)
             "session-cart" liveClient).2
    = [Create "session-cart"].
Proof.
  destruct (createDocument_checked apiUp 1736899500000
              (mkWorld 1736899500000 None true) "" liveClient) as [Hbad _].
  destruct (createDocument_checked apiUp 1736899500000
              (mkWorld 1736899500000 None true) "session-cart" liveClient)
    as [_ Hok].
  split.
  - apply Hbad. by left.
  - destruct (Hok (mkInfo "doc-2" "session-cart") eq_refl) as (_ & _ & H & _).
    exact H.
Defined.

(** X23.  [appendContent] checks its options before anything else: an
    empty document id, an empty text or an index below 1 is thrown back as
    the schema's error with the client untouched.  It never throws 'Invalid
    append content options provided'.  When it returns, it has made two API
    calls, a [Get] of the document and then one [InsertText]: at the given
    index when there is one, and otherwise one position before the end of
    the body, or at 0 when the body has no end index or ends at 0.  When
    the document cannot be fetched, no text is inserted. *)
Theorem appendContent_calls (api : Api) (now now' : Z) (w : World)
    (documentId content : string) (index : option Z) (st : ClientState) :
  let out := (appendContent api now now' w documentId content index st).1 in
  let st' := (appendContent api now now' w documentId content index st).2 in
  out ≠ Err InvalidAppendOptions
  ∧ (documentId = "" ∨ content = "" ∨ (∃ i, index = Some i ∧ (i < 1)%Z) →
     out = Err ZodError ∧ st' = st)
  ∧ (out = Ok () →
     ∃ doc, api_get api documentId = Some doc
            ∧ api_batchUpdate api = true
            ∧ calls st'
              = (calls st
                 ++ [Get documentId;
                     InsertText documentId
                       match index, doc_lastEndIndex doc with
                       | Some i, _ => i
                       | None, Some e => if (e =? 0)%Z then 0%Z else (e - 1)%Z
                       | None, None => 0%Z
                       end
                       content])%list)
  ∧ (api_get api documentId = None →
     calls st' = calls st ∨ calls st' = (calls st ++ [Get documentId])%list).
Proof.
  cbv zeta.
  destruct (appendContent api now now' w documentId content index st)
    as [out st'] eqn:E.
  simpl. revert E.
  unfold appendContent, bind at 1, fromOption, AppendContentOptionsSchema_parse.
  destruct (truthy documentId) eqn:Hid.
  2:{ simpl. intros [= <- <-]. split_and!; try done. intros _. by left. }
  destruct (truthy content) eqn:Hc.
  2:{ simpl. intros [= <- <-]. split_and!; try done. intros _. by left. }
  assert (match index with Some i => (1 <=? i)%Z | None => true end = false
          ∨ match index with Some i => (1 <=? i)%Z | None => true end = true) as [Hi|Hi]
    by (destruct (match index with Some i => (1 <=? i)%Z | None => true end); auto).
  { rewrite Hi. simpl. intros [= <- <-]. split_and!; try done. intros _. by left. }
  rewrite Hi. simpl. unfold ret, bind at 1.
  assert (¬ (documentId = "" ∨ content = "" ∨ ∃ i, index = Some i ∧ (i < 1)%Z)) as Hvalid.
  { intros [->|[->|(i & -> & Hlt)]]; try done. apply Z.leb_le in Hi. lia. }
  pose proof (ensureAuthenticated_calls now w st) as Hcalls1.
  pose proof (ensureAuthenticated_errors now w st) as Herr1.
  destruct (ensureAuthenticated now w st) as [[[]|e1] st1].
  2:{ intros [= <- <-]. simpl in *.
      split_and!; [|by intros ?|done|intros _; by left].
      destruct (Herr1 e1 eq_refl) as [->|[a ->]]; done. }
  clear Herr1.
  simpl in Hcalls1. unfold bind at 1, requireApi.
  destruct (docsApi st1).
  2:{ intros [= <- <-]. simpl in *.
      split_and!; [done|by intros ?|done|intros _; by left]. }
  unfold catch, bind at 1, getDocument, bind at 1.
  pose proof (ensureAuthenticated_calls now' w st1) as Hcalls2.
  pose proof (ensureAuthenticated_errors now' w st1) as Herr2.
  destruct (ensureAuthenticated now' w st1) as [[[]|e2] st2].
  2:{ destruct (Herr2 e2 eq_refl) as [->|[a ->]]; intros [= <- <-]; simpl in *;
        (split_and!; [done|by intros ?|done|intros _; left; congruence]). }
  clear Herr2.
  simpl in Hcalls2. unfold bind at 1, requireApi.
  destruct (docsApi st2).
  2:{ intros [= <- <-]. simpl in *.
      split_and!; [done|by intros ?|done|intros _; left; congruence]. }
  unfold catch, bind at 1, call, fromOption. simpl.
  destruct (api_get api documentId) as [doc|] eqn:Hget.
  2:{ simpl. intros [= <- <-]. simpl.
      split_and!; [done|by intros ?|done|intros _; right; congruence]. }
  simpl. unfold bind, ret; simpl.
  destruct (api_batchUpdate api) eqn:Hup; simpl.
  - intros [= <- <-]. simpl. split_and!; [done|by intros ?| |done].
    intros _. exists doc. split_and!; try done.
    rewrite Hcalls2, Hcalls1, <- app_assoc. simpl. do 3 f_equal.
    destruct index as [i|]; simpl.
    + apply Z.leb_le in Hi. destruct (Z.eqb_spec i 0); [lia|done].
    + by destruct (doc_lastEndIndex doc) as [e|]; simpl; [destruct (e =? 0)%Z|].
  - intros [= <- <-]. simpl. split_and!; [done|by intros ?|done|done].
Qed.

Lemma appendContent_calls_witness :
  calls (appendContent apiUp 1736899500000 1736899500000
           (mkWorld 1736899500000 None true) "doc-1" "## Decision" None liveClient).2
  = [Get "doc-1"; InsertText "doc-1" 119 "## Decision"]
  ∧ appendContent apiUp 1736899500000 1736899500000
      (mkWorld 1736899500000 None true) "doc-1" "" None liveClient
    = (Err ZodError, liveClient).
Proof.
  destruct (appendContent_calls apiUp 1736899500000 1736899500000
              (mkWorld 1736899500000 None true) "doc-1" "## Decision" None liveClient)
    as (_ & _ & Hok & _).
  destruct (appendContent_calls apiUp 1736899500000 1736899500000
              (mkWorld 1736899500000 None true) "doc-1" "" None liveClient)
    as (_ & Hbad & _).
  split.
  - destruct (Hok eq_refl) as (doc & Hdoc & _ & Hcalls).
    injection Hdoc as <-. exact Hcalls.
  - destruct Hbad as [Hout Hst]; [right; by left|].
    apply injective_projections; [exact Hout|exact Hst].
Defined.

(** X24.  [initialize] of the client can ask the endpoint twice.  When the
    token file holds a validated token set with an access token and a
    refresh token that has expired, and the endpoint refuses, the refresh
    that [auth.initialize()] makes fails without a report, the refresh of
    [getAuthenticatedClient()] fails again, and [initialize] throws 'Token
    refresh failed' after two refresh requests, with the API handle left as
    it was. *)
Theorem initialize_refresh_twice (w1 w2 : World) (st : ClientState)
    (c : GoogleCredentials) (v : TokenData) (t : string) :
  Startup.accepted (credentialsFile (auth st)) = Some c →
  tokenFile (auth st) ≫= TokenDataSchema_parse = Some v →
  truthy_opt (access_token v) = true →
  refresh_token v = Some t →
  isTokenExpired (GoogleAuth.now w1) v = true →
  isTokenExpired (GoogleAuth.now w2) v = true →
  remote w1 = None →
  remote w2 = None →
  initialize w1 w2 st
  = (Err (FromAuth RefreshFailed),
     mkClient
       (mkAuth (Some v) (Some c) (credentialsFile (auth st)) (tokenFile (auth st))
               (requests (auth st) ++ [RefreshRequest t; RefreshRequest t])%list)
       (docsApi st) (calls st)).
Proof.
  intros Hc Hv Ha Ht He1 He2 Hr1 Hr2.
  assert (or_undefined (refresh_token v) = Some t) as Hrt.
  { destruct (tokenFile (auth st)) as [j|]; [|done]. simpl in Hv.
    destruct (TokenDataSchema_output j v Hv) as (_ & _ & _ & Hne & _).
    rewrite Ht in *. by destruct t. }
  assert (GoogleAuth.initialize w1 (auth st)
          = (Ok (), sent (RefreshRequest t) (Startup.built c v (auth st)))) as E1.
  { rewrite initialize_paths, Hc, Hv, He1, refreshTokens_paths.
    unfold Startup.built at 1 2. cbn [oauth2Client]. by rewrite Hrt, Hr1. }
  assert (getAuthenticatedClient w2
            (sent (RefreshRequest t) (Startup.built c v (auth st)))
          = (Err RefreshFailed,
             sent (RefreshRequest t)
               (sent (RefreshRequest t) (Startup.built c v (auth st))))) as E2.
  { unfold getAuthenticatedClient, mbind, M_bind, get, sent, Startup.built.
    cbn [oauth2Client]. rewrite Ha, He2. cbn [negb].
    rewrite refreshTokens_paths. cbn [oauth2Client]. by rewrite Hrt, Hr2. }
  unfold initialize, bind, onAuth. rewrite E1. cbn [auth]. rewrite E2.
  unfold sent, Startup.built. cbn. by rewrite <- app_assoc.
Qed.

Lemma initialize_refresh_twice_witness :
  let w := mkWorld 1736899500000 None true in
  initialize w w (mkClient staleState false [])
  = (Err (FromAuth RefreshFailed),
     mkClient
       (mkAuth (Some staleTokens) (Some installedApp) (Some (Flat installedApp))
               (Some (JObject staleTokens))
               [RefreshRequest "1//0g"; RefreshRequest "1//0g"])
       false []).
Proof.
  exact (initialize_refresh_twice
           (mkWorld 1736899500000 None true) (mkWorld 1736899500000 None true)
           (mkClient staleState false []) installedApp staleTokens "1//0g"
           eq_refl eq_refl eq_refl eq_refl eq_refl eq_refl eq_refl eq_refl).
Defined.

End GoogleDocsClientFacts.

(** ** The session operations of the service *)

Section ServiceFacts.
Import JS SessionManager RegistryShape VibeLoggerService Samples.
Local Open Scope nat_scope.

(** In a filed registry, the scan of [setDocumentId] for an id that one
    session alone has ends on that session, in the entry of its project. *)
Lemma locate_unique (st : SessionState) (r : ref) (s : Session) :
  filed st →
  objects st !! r = Some s →
  (∀ r' s', objects st !! r' = Some s' → id s' = id s → r' = r) →
  locate (objects st) (id s) (projectSessions st) = Some (projectName s, r).
Proof.
  intros Hf Hs Huniq.
  destruct (all_listed st Hf r s Hs) as (rs & Hin & Hr).
  destruct (locate (objects st) (id s) (projectSessions st)) as [[p r0]|] eqn:El.
  2:{ by destruct (locate_None _ _ _ El (projectName s) rs r s Hin Hr Hs). }
  pose proof El as (rs0 & s0 & Hin0 & Hr0 & Hs0 & Hid0)%locate_Some.
  assert (r0 = r) as -> by (by apply (Huniq r0 s0)).
  assert (s0 = s) as -> by congruence.
  by rewrite (history_owns st Hf p rs0 r s Hin0 Hr0 Hs).
Qed.

Lemma startSession_fresh_unique env p obj t (st : SessionState) :
  (∀ r0 s0, objects st !! r0 = Some s0 → id s0 ≠ env_sessionId env) →
  ∀ r' s', objects (SessionManager.startSession env p obj t st).2 !! r' = Some s' →
           id s' = env_sessionId env → r' = length (objects st).
Proof.
  intros Hfresh r' s'. unfold SessionManager.startSession; simpl.
  rewrite <- (endCurrentSession_length st).
  destruct (decide (r' < length (objects (endCurrentSession st)))) as [Hlt|Hge].
  - rewrite lookup_app_l by done. intros Hs' Hid.
    rewrite endCurrentSession_length in Hlt.
    apply lookup_lt_is_Some in Hlt as [s0 Hs0].
    destruct (endCurrentSession_created st r' s0 Hs0) as (s1 & Hs1 & Hc).
    assert (s1 = s') as -> by congruence.
    unfold created in Hc. destruct (Hfresh r' s0 Hs0). congruence.
  - intros Hs' _. apply lookup_lt_Some in Hs'.
    rewrite length_app in Hs'. simpl in Hs'. lia.
Qed.

(** X25.  [startSession] of the service, in a registry reached from the new
    one and with a session id no session has yet.  Whether it returns or
    throws, the new session is the current one afterwards.  When it returns
    a document id, that id is not empty, it is the [documentId] of the new
    session and it is what [getTodaysDocumentId] now answers for the
    project.  It reports an existing document exactly when the cache held
    that id for the project and the document client could fetch it. *)
Theorem service_startSession_attaches (ops : list Op) (env : StartEnv) (docs : Docs)
    (p obj t : string) :
  let st := run ops initial in
  let out := (VibeLoggerService.startSession env docs p obj t st).1 in
  let st' := (VibeLoggerService.startSession env docs p obj t st).2 in
  (∀ r0 s0, objects st !! r0 = Some s0 → id s0 ≠ env_sessionId env) →
  currentSession st' = Some (length (objects st))
  ∧ (∀ r d isNew, out = Ok (r, d, isNew) →
       r = length (objects st)
       ∧ d ≠ ""
       ∧ (∃ s, objects st' !! r = Some s
               ∧ documentId s = d ∧ projectName s = p ∧ isActive s = true)
       ∧ getTodaysDocumentId st' p = Some d
       ∧ (isNew = false ↔ getTodaysDocumentId st p = Some d ∧ getDocument docs d = true)).
Proof.
  cbv zeta. intros Hfresh.
  pose proof (run_filed ops initial initial_filed) as Hf.
  set (st := run ops initial) in *.
  unfold VibeLoggerService.startSession.
  destruct (SessionManager.startSession env p obj t st) as [r1 st1] eqn:E1.
  assert (r1 = length (objects st)) as ->.
  { apply (f_equal fst) in E1. simpl in E1. rewrite <- E1.
    unfold SessionManager.startSession; simpl. apply endCurrentSession_length. }
  assert (st1 = (SessionManager.startSession env p obj t st).2) as Hst1
    by (by rewrite E1).
  assert (currentSession st1 = Some (length (objects st))) as Hcur.
  { rewrite Hst1. unfold SessionManager.startSession; simpl.
    by rewrite endCurrentSession_length. }
  assert (∃ s1, objects st1 !! length (objects st) = Some s1
                ∧ id s1 = env_sessionId env ∧ projectName s1 = p
                ∧ isActive s1 = true) as (s1 & Hs1 & Hid1 & Hp1 & Ha1).
  { rewrite Hst1. eexists.
    split; [unfold SessionManager.startSession; simpl;
            apply list_lookup_middle; symmetry; apply endCurrentSession_length|done]. }
  assert (filed st1) as Hf1 by (rewrite Hst1; by apply startSession_filed).
  assert (locate (objects st1) (env_sessionId env) (projectSessions st1)
          = Some (p, length (objects st))) as Hloc.
  { rewrite <- Hid1, <- Hp1. apply (locate_unique st1 _ s1 Hf1 Hs1).
    intros r' s' Hs' Hid'. rewrite Hst1 in Hs'.
    apply (startSession_fresh_unique env p obj t st Hfresh r' s' Hs'). congruence. }
  assert (getTodaysDocumentId st1 p = getTodaysDocumentId st p) as Hdocs.
  { rewrite Hst1. unfold getTodaysDocumentId, SessionManager.startSession; simpl.
    by rewrite endCurrentSession_todaysDocuments. }
  assert (∀ d, currentSession (setDocumentId (env_sessionId env) d st1)
               = Some (length (objects st))) as Hcur2.
  { intros d. by rewrite setDocumentId_currentSession. }
  assert (∀ d isNew,
            d ≠ "" →
            (isNew = false ↔ getTodaysDocumentId st p = Some d ∧ getDocument docs d = true) →
            let st2 := setDocumentId (env_sessionId env) d st1 in
            ∀ r d' isNew', (Ok (length (objects st), d, isNew) : Outcome Error _)
                           = Ok (r, d', isNew') →
            r = length (objects st)
            ∧ d' ≠ ""
            ∧ (∃ s, objects st2 !! r = Some s
                    ∧ documentId s = d' ∧ projectName s = p ∧ isActive s = true)
            ∧ getTodaysDocumentId st2 p = Some d'
            ∧ (isNew' = false
               ↔ getTodaysDocumentId st p = Some d' ∧ getDocument docs d' = true))
    as Hok.
  { intros d isNew Hd Hnew st2 r d' isNew' [= <- <- <-].
    split_and!; try done.
    - exists (set_documentId d s1). unfold st2, setDocumentId. rewrite Hloc. simpl.
      by rewrite list_lookup_alter_eq, Hs1.
    - unfold st2, getTodaysDocumentId, setDocumentId. rewrite Hloc. simpl.
      rewrite lookup_insert_eq. simpl. by destruct d. }
  rewrite Hdocs.
  destruct (getTodaysDocumentId st p) as [existing|] eqn:Hex.
  - destruct (getDocument docs existing) eqn:Hget.
    + destruct (appendTo docs existing); simpl.
      * split; [apply Hcur2|]. apply (Hok existing false).
        -- unfold getTodaysDocumentId in Hex.
           destruct (todaysDocuments st !! p) as [[|a x]|]; simpl in Hex; congruence.
        -- split; [intros _|done]. split; [done|done].
      * split; [apply Hcur2|done].
    + unfold createSessionDocument, appendTo.
      destruct (createDocument docs) as [d|]; [|by split].
      destruct (truthy d) eqn:Hd; simpl; [|by split].
      destruct (appendContent docs); simpl; [|by split].
      rewrite Hd; simpl.
      split; [apply Hcur2|]. apply (Hok d true); [by destruct d|].
      split; [done|]. intros [[= ->] Hg]. congruence.
  - unfold createSessionDocument, appendTo.
    destruct (createDocument docs) as [d|]; [|by split].
    destruct (truthy d) eqn:Hd; simpl; [|by split].
    destruct (appendContent docs); simpl; [|by split].
    rewrite Hd; simpl.
    split; [apply Hcur2|]. apply (Hok d true); [by destruct d|].
    split; [done|]. by intros [? ?].
Qed.

Lemma service_startSession_attaches_witness :
  getTodaysDocumentId
    (VibeLoggerService.startSession envCart docsUp "Cart" "Add wishlist" "project_log"
       initial).2 "Cart"
  = Some "doc-2".
Proof.
  destruct (service_startSession_attaches [] envCart docsUp "Cart" "Add wishlist"
              "project_log") as [_ H].
  - by intros [|r0] s0.
  - destruct (H 0 "doc-2" true eq_refl) as (_ & _ & _ & Hdoc & _). exact Hdoc.
Defined.

(** What [continueSession] of the registry returns is the current session
    afterwards, and a session started on the day of the call. *)
Lemma continueSession_Some (p : option string) (now : Z) (st : SessionState) (r : ref) :
  current_is_last st →
  (SessionManager.continueSession p now st).1 = Some r →
  let st' := (SessionManager.continueSession p now st).2 in
  currentSession st' = Some r
  ∧ ∃ s, objects st' !! r = Some s
         ∧ isActive s = true
         ∧ utcDay (startTime s) = utcDay now.
Proof.
  intros Hcur. cbv zeta.
  assert ((continueCurrent now st).1 = Some r →
          currentSession (continueCurrent now st).2 = Some r
          ∧ ∃ s, objects (continueCurrent now st).2 !! r = Some s
                 ∧ isActive s = true ∧ utcDay (startTime s) = utcDay now) as Hfall.
  { unfold continueCurrent.
    destruct (currentSession st) as [c|] eqn:Hc; [|done].
    destruct (objects st !! c) as [s|] eqn:Hs; [|done].
    case_decide as Hday; [|done]. simpl. intros [= <-].
    split; [done|]. destruct (Hcur c Hc) as (s' & Hs' & Ha & _).
    exists s. split_and!; [done| |done]. congruence. }
  unfold SessionManager.continueSession.
  destruct p as [p|]; [|done].
  destruct (truthy p); [|done].
  destruct (lastSession st p) as [r0|]; [|done].
  destruct (objects st !! r0) as [s0|] eqn:Hs0; [|done].
  case_decide as Hday; [|done]. simpl. intros [= <-].
  split; [done|].
  destruct (endCurrentSession_created st r0 s0 Hs0) as (s1 & Hs1 & Hc1).
  exists (set_isActive true s1). rewrite list_lookup_alter_eq, Hs1.
  split_and!; [done|done|]. simpl. unfold created in Hc1. congruence.
Qed.

(** X26.  [continueSession] of the service, in a registry reached from the
    new one.  It throws only 'Session document no longer exists', and then
    no session is current and no session is active: the session it had
    found is ended.  When it returns a session, that session is the current
    one, it is active, it was started on the day of the call, and the
    document client could fetch its document. *)
Theorem service_continueSession_outcomes (ops : list Op) (docs : Docs)
    (p : option string) (now : Z) :
  let st := run ops initial in
  let out := (VibeLoggerService.continueSession docs p now st).1 in
  let st' := (VibeLoggerService.continueSession docs p now st).2 in
  (∀ e, out = Err e →
        e = DocumentGone ∧ currentSession st' = None ∧ activeSessions st' = [])
  ∧ (∀ r, out = Ok (Some r) →
          currentSession st' = Some r
          ∧ ∃ s, objects st' !! r = Some s
                 ∧ isActive s = true
                 ∧ utcDay (startTime s) = utcDay now
                 ∧ getDocument docs (documentId s) = true).
Proof.
  cbv zeta.
  pose proof (run_current ops initial initial_filed ltac:(by intros r')) as Hcur.
  pose proof (run_invariant ops initial initial_invariant) as Hinv.
  set (st := run ops initial) in *.
  pose proof (continueSession_invariant p now st Hinv) as Hinv1.
  pose proof (continueSession_Some p now st) as Hsome.
  unfold VibeLoggerService.continueSession.
  destruct (SessionManager.continueSession p now st) as [[r1|] st1]; simpl in *.
  2:{ split; [done|]. by intros r. }
  destruct (Hsome r1 Hcur eq_refl) as (Hc1 & s & Hs & Ha & Hday).
  rewrite Hs. simpl.
  destruct (getDocument docs (documentId s)) eqn:Hget; simpl.
  - destruct (appendTo docs (documentId s)); simpl.
    + split; [done|]. intros r [= <-]. split; [done|]. by exists s.
    + split; [|done]. intros e [= <-]. split_and!; [done| |].
      * apply endCurrentSession_currentSession.
      * unfold activeSessions. apply filter_none. intros i x Hx.
        by rewrite (endCurrentSession_inactive st1 Hinv1 i x Hx).
  - split; [|done]. intros e [= <-]. split_and!; [done| |].
    + apply endCurrentSession_currentSession.
    + unfold activeSessions. apply filter_none. intros i x Hx.
      by rewrite (endCurrentSession_inactive st1 Hinv1 i x Hx).
Qed.

Lemma service_continueSession_outcomes_witness :
  let gone := mkDocs (λ _, false) None true in
  (VibeLoggerService.continueSession gone (Some "Cart") (jan15 + 80000000)
     cartAttached).1 = Err DocumentGone
  ∧ currentSession
      (VibeLoggerService.continueSession gone (Some "Cart") (jan15 + 80000000)
         cartAttached).2 = None.
Proof.
  cbv zeta.
  destruct (service_continueSession_outcomes
              [Start envCart "Cart" "Add wishlist" "project_log";
               AttachDocument "session-2025-01-15T09-00-00-k3x9a1" "doc-1"]
              (mkDocs (λ _, false) None true) (Some "Cart") (jan15 + 80000000))
    as [H _].
  destruct (H DocumentGone eq_refl) as (_ & Hc & _).
  split; [reflexivity|exact Hc].
Defined.

End ServiceFacts.

(** ** The session tools *)

Section ToolsFacts.
Import JS SessionManager RegistryShape VibeLoggerService Tools Samples.
Local Open Scope nat_scope.

Lemma StartSessionSchema_valid (project objective template : Arg) (p o t : string) :
  StartSessionSchema_parse project objective template = Some (p, o, t) →
  validStart p o t.
Proof.
  unfold StartSessionSchema_parse, validStart.
  destruct project as [|p'|], objective as [|o'|]; try done.
  destruct (truthy p') eqn:Hp, (truthy o') eqn:Ho; simpl; try done.
  destruct template as [|t'|]; [| |done].
  - intros [= <- <- <-]. split_and!; [by intros ->|by intros ->|].
    unfold SessionTemplates. set_solver.
  - case_bool_decide as Ht; [|done]. intros [= <- <- <-].
    split_and!; [by intros ->|by intros ->|done].
Qed.

Lemma run_app (ops ops' : list Op) (st : SessionState) :
  run (ops ++ ops') st = run ops' (run ops st).
Proof. apply foldl_app. Qed.

(** What a tool call does to the registry, a few operations of the registry
    do, and the sessions these start have arguments the schema accepted. *)
Lemma callTool_run (st : SessionState) (c : bool * ToolCall) :
  ∃ ops, callTool st c = run ops st
         ∧ Forall (λ o, ∀ env p obj t, o = Start env p obj t → validStart p obj t) ops.
Proof.
  destruct c as [initialized c]. unfold callTool; simpl.
  destruct initialized; simpl; [|by exists []].
  destruct c as [project objective template env docs|project now docs|accepted docs|].
  - destruct (StartSessionSchema_parse project objective template) as [[[p o] t]|] eqn:E;
      [|by exists []].
    apply StartSessionSchema_valid in E.
    assert (∀ env' p' obj' t', Start env p o t = Start env' p' obj' t' →
                               validStart p' obj' t') as Hv
      by (by intros ???? [= <- <- <- <-]).
    unfold VibeLoggerService.startSession.
    destruct (SessionManager.startSession env p o t st) as [r st1] eqn:E1.
    assert (st1 = run [Start env p o t] st) as ->
      by (unfold run; cbn [foldl step]; by rewrite E1).
    set (document := match getTodaysDocumentId _ p with Some _ => _ | None => _ end).
    destruct document as [[d isNew]|e].
    + exists [Start env p o t; AttachDocument (env_sessionId env) d].
      split; [by destruct (appendTo docs d)|].
      apply Forall_cons. split; [exact Hv|].
      apply Forall_cons. split; [by intros|done].
    + exists [Start env p o t]. split; [done|].
      apply Forall_cons. split; [exact Hv|done].
  - destruct (ContinueSessionSchema_parse project) as [p|]; [|by exists []].
    unfold VibeLoggerService.continueSession.
    destruct (SessionManager.continueSession p now st) as [[r|] st1] eqn:E1.
    + assert (st1 = run [Continue p now] st) as ->
        by (unfold run; cbn [foldl step]; by rewrite E1).
      destruct (_ && _).
      * exists [Continue p now]. split; [done|].
        apply Forall_cons. split; [by intros|done].
      * exists [Continue p now; End]. split; [done|].
        apply Forall_cons. split; [by intros|].
        apply Forall_cons. split; [by intros|done].
    + exists [Continue p now].
      split; [unfold run; cbn [foldl step]; by rewrite E1|].
      apply Forall_cons. split; [by intros|done].
  - destruct accepted; [|by exists []].
    unfold VibeLoggerService.endSession, getCurrentSession.
    destruct (currentSession st); [|by exists []].
    cbv zeta. destruct (appendTo docs _); [|by exists []].
    exists [End]. split; [done|]. apply Forall_cons. split; [by intros|done].
  - by exists [].
Qed.

Lemma callTools_run (cs : list (bool * ToolCall)) (st : SessionState) :
  ∃ ops, callTools cs st = run ops st
         ∧ Forall (λ o, ∀ env p obj t, o = Start env p obj t → validStart p obj t) ops.
Proof.
  revert st. induction cs as [|c cs IH]; intros st; simpl; [by exists []|].
  destruct (callTool_run st c) as (ops1 & -> & Hv1).
  destruct (IH (run ops1 st)) as (ops2 & -> & Hv2).
  exists (ops1 ++ ops2)%list. split; [by rewrite run_app|by apply Forall_app].
Qed.

Lemma step_length (st : SessionState) (o : Op) :
  length (objects (step st o))
  = length (objects st) + match o with Start _ _ _ _ => 1 | _ => 0 end.
Proof.
  destruct o as [env p obj t|p now| |sid did]; simpl.
  - rewrite length_app, endCurrentSession_length. simpl. lia.
  - assert (length (objects (continueCurrent now st).2) = length (objects st)) as Hfall.
    { destruct (continueCurrent_state now st) as [->| ->]; [done|].
      apply endCurrentSession_length. }
    unfold SessionManager.continueSession.
    destruct p as [p|]; [|lia].
    destruct (truthy p); [|lia].
    destruct (lastSession st p) as [r|]; [|lia].
    destruct (objects st !! r); [|simpl; lia].
    case_decide; [|simpl; lia]. simpl.
    rewrite length_alter, endCurrentSession_length. lia.
  - rewrite endCurrentSession_length. lia.
  - unfold setDocumentId.
    destruct (locate (objects st) sid (projectSessions st)) as [[q r]|]; simpl;
      rewrite ?length_alter; lia.
Qed.

Lemma run_valid_sessions (ops : list Op) (st : SessionState) :
  Forall (λ o, ∀ env p obj t, o = Start env p obj t → validStart p obj t) ops →
  (∀ r s, objects st !! r = Some s →
          validStart (projectName s) (objective s) (template s)) →
  ∀ r s, objects (run ops st) !! r = Some s →
         validStart (projectName s) (objective s) (template s).
Proof.
  revert st. induction ops as [|o ops IH]; intros st Hops Hst; simpl; [done|].
  apply Forall_cons in Hops as [Ho Hops]. apply IH; [done|]. clear IH Hops.
  intros r s Hs.
  destruct (decide (r < length (objects st))) as [Hlt|Hge].
  - apply lookup_lt_is_Some in Hlt as [s0 Hs0].
    destruct (step_created st o r s0 Hs0) as (s1 & Hs1 & Hc).
    assert (s1 = s) as -> by congruence.
    specialize (Hst r s0 Hs0). unfold created in Hc.
    injection Hc as _ Hp _ _ Hobj Ht _. by rewrite Hp, Hobj, Ht.
  - apply lookup_lt_Some in Hs as Hlen. rewrite step_length in Hlen.
    destruct o as [env p obj t|p now| |sid did]; try lia.
    assert (r = length (objects (endCurrentSession st))) as ->
      by (rewrite endCurrentSession_length; lia).
    simpl in Hs. rewrite list_lookup_middle in Hs by done.
    injection Hs as <-. simpl. by apply (Ho env).
Qed.

(** X27.  Whatever tool calls are made on the new registry, every session
    in it has a non-empty project, a non-empty objective and a template of
    the five of [SessionTemplateSchema], and no session is filed under the
    empty project name (the one name [continueSession] takes for a missing
    argument). *)
Theorem tool_sessions_validated (cs : list (bool * ToolCall)) :
  let st := callTools cs initial in
  (∀ r s, objects st !! r = Some s →
          projectName s ≠ "" ∧ objective s ≠ "" ∧ template s ∈ SessionTemplates)
  ∧ getProjectSessions st "" = [].
Proof.
  cbv zeta. destruct (callTools_run cs initial) as (ops & -> & Hops). split.
  - apply (run_valid_sessions ops initial Hops). by intros [|r] s.
  - apply no_history_for_empty_name.
    eapply Forall_impl; [exact Hops|]. simpl.
    intros o Ho env p obj t Heq. by destruct (Ho env p obj t Heq).
Qed.

Lemma tool_sessions_validated_witness :
  template
  <$> objects (callTools [(true, start_session (Text "Cart") (Text "Add wishlist")
                                    Absent envCart docsUp);
                          (true, start_session (Text "") (Text "x") Absent envBlog docsUp);
                          (true, start_session (Text "Blog") (Text "Post")
                                    (Text "weekly") envBlog docsUp)]
                 initial) !! 0
  = Some "project_log"
  ∧ length (objects (callTools
                       [(true, start_session (Text "Cart") (Text "Add wishlist")
                                 Absent envCart docsUp);
                        (true, start_session (Text "") (Text "x") Absent envBlog docsUp);
                        (true, start_session (Text "Blog") (Text "Post")
                                 (Text "weekly") envBlog docsUp)]
                       initial)) = 1.
Proof.
  split; [|reflexivity].
  destruct (tool_sessions_validated
              [(true, start_session (Text "Cart") (Text "Add wishlist")
                        Absent envCart docsUp);
               (true, start_session (Text "") (Text "x") Absent envBlog docsUp);
               (true, start_session (Text "Blog") (Text "Post")
                        (Text "weekly") envBlog docsUp)]) as [H _].
  destruct (H 0 _ eq_refl) as (_ & _ & Ht). reflexivity.
Defined.

End ToolsFacts.
